(** * Whatnot Slot Matcher: the matching engine of [app/matcher.py]

    A shallow embedding of the engine (identifier parsing, keyword filters,
    strategy selection, the two assignment loops, duplicate detection and
    the summary) together with its callers, the HTTP endpoints of
    [app/main.py] and the command line of [app/cli.py], the properties of
    the specification proved, or refuted, against it, and further
    properties of the code.

    Modelling conventions.
    - A Python [str] is a [string]; a character is a code point below 256,
      so [str.strip], [str.lower] and the regular expression class [\d]
      are the restrictions of the Python ones to that range.
    - A cell of a DataFrame is a [value].  Objects of libraries (finite
      floats, timestamps) are carried with the observations the engine
      makes of them: truthiness and [str()].  An integer cell is an
      integer of a column as [read_csv] and NumPy type it; Python integers
      of more than 4300 digits, whose [str()] raises, are no values of
      the model.
    - A DataFrame is an object on a heap; the engine receives a reference.
      [df.copy()] and [df.sort_values] allocate, [df[c] = v] and
      [df.at[i, c] = v] mutate in place.  Row labels may repeat:
      [df.at[i, c] = v] writes every row that bears the label [i], and
      [df.at[i, c]] is a cell only when one row does.
    - [int] and [str] convert integers of at most 4300 digits, the
      default limit of CPython, and raise a [ValueError] beyond.
    - pandas' [to_datetime] and [read_csv], NumPy's [argsort], the parser
      of [argparse] and the file system of the command line are
      parameters of the development.
    - The ratio of [detect_mode] is a binary64 number: counts are
      converted, divided and compared as primitive floats. *)

From Stdlib Require Import ZArith NArith List String Ascii Bool Lia.
From Stdlib Require Import Decimal DecimalString DecimalPos Permutation.
From Stdlib Require Import Sorted.
From Stdlib Require Import QArith Floats Uint63.
From stdpp Require Import base list strings.
Import ListNotations.

Local Open Scope string_scope.
Local Open Scope Z_scope.

#[local] Arguments String.append !_ _ / : simpl nomatch.

(** ** Strings *)

Module Str.

Definition code (c : ascii) : N := N_of_ascii c.

(** [\d] of the [re] module, on code points below 256. *)
Definition is_digit (c : ascii) : bool :=
  ((48 <=? code c) && (code c <=? 57))%N.

(** [str.isspace], on code points below 256: the characters removed by
    [str.strip()]. *)
Definition is_space (c : ascii) : bool :=
  match code c with
  | 9 | 10 | 11 | 12 | 13 | 28 | 29 | 30 | 31 | 32 | 133 | 160 => true
  | _ => false
  end%N.

(** [str.lower] on one character: A-Z, and the capital letters of
    Latin-1 (0xC0-0xDE except the multiplication sign 0xD7). *)
Definition lower_char (c : ascii) : ascii :=
  let n := code c in
  if (((65 <=? n) && (n <=? 90))
      || ((192 <=? n) && (n <=? 222) && negb (n =? 215)))%N
  then ascii_of_N (n + 32) else c.

Fixpoint lower (s : string) : string :=
  match s with
  | EmptyString => EmptyString
  | String c s' => String (lower_char c) (lower s')
  end.

Fixpoint lstrip (s : string) : string :=
  match s with
  | EmptyString => EmptyString
  | String c s' => if is_space c then lstrip s' else s
  end.

Fixpoint rstrip (s : string) : string :=
  match s with
  | EmptyString => EmptyString
  | String c s' =>
      match rstrip s' with
      | EmptyString => if is_space c then EmptyString else String c EmptyString
      | r => String c r
      end
  end.

Definition strip (s : string) : string := rstrip (lstrip s).

Definition is_empty (s : string) : bool :=
  match s with EmptyString => true | _ => false end.

(** [k in s] for strings: [k] occurs in [s] as a contiguous substring. *)
Fixpoint contains (k s : string) : bool :=
  String.prefix k s
  || match s with
     | EmptyString => false
     | String _ s' => contains k s'
     end.

(** The longest prefix of digits. *)
Fixpoint take_digits (s : string) : string :=
  match s with
  | EmptyString => EmptyString
  | String c s' => if is_digit c then String c (take_digits s') else EmptyString
  end.

(** [re.search(r'\d+', s)]: the leftmost match, extended greedily;
    the result is [match.group()]. *)
Fixpoint re_search_digits (s : string) : option string :=
  match s with
  | EmptyString => None
  | String c s' =>
      if is_digit c then Some (take_digits s) else re_search_digits s'
  end.

Definition digit_val (c : ascii) : Z := Z.of_N (code c) - 48.

Fixpoint int_of_digits_from (acc : Z) (s : string) : Z :=
  match s with
  | EmptyString => acc
  | String c s' => int_of_digits_from (10 * acc + digit_val c) s'
  end.

(** The longest string of digits that [int] converts: the default of
    [sys.get_int_max_str_digits()]. *)
Definition max_str_digits : nat := 4300.

(** [int(s)] on a string of decimal digits: the number, or [None] where
    CPython raises a [ValueError] because the string has more than
    [max_str_digits] digits. *)
Definition int_of_digits (s : string) : option Z :=
  if (max_str_digits <? String.length s)%nat then None
  else Some (int_of_digits_from 0 s).

(** [str(n)] for an integer. *)
Definition of_int (z : Z) : string := NilZero.string_of_int (Z.to_int z).

Fixpoint all_chars (p : ascii -> bool) (s : string) : bool :=
  match s with
  | EmptyString => true
  | String c s' => p c && all_chars p s'
  end.

Definition no_digit (s : string) : bool :=
  all_chars (fun c => negb (is_digit c)) s.

End Str.

(** ** Cell values *)

Inductive value : Type :=
| VNone                                   (* None *)
| VNaN                                    (* float('nan') *)
| VNaT                                    (* pandas.NaT *)
| VBool (b : bool)
| VInt (z : Z)
| VFloat (nonzero : bool) (repr : string) (* a finite float and its str() *)
| VStr (s : string)
| VTime (ns : Z) (repr : string).         (* a pandas.Timestamp *)

(** [str(v)] *)
Definition py_str (v : value) : string :=
  match v with
  | VNone => "None"
  | VNaN => "nan"
  | VNaT => "NaT"
  | VBool true => "True"
  | VBool false => "False"
  | VInt z => Str.of_int z
  | VFloat _ r => r
  | VStr s => s
  | VTime _ r => r
  end.

(** [not v]: the truth value of an object, negated. *)
Definition py_not (v : value) : bool :=
  match v with
  | VNone => true
  | VBool b => negb b
  | VInt z => z =? 0
  | VFloat nz _ => negb nz
  | VStr s => Str.is_empty s
  | VNaN | VNaT | VTime _ _ => false
  end.

(** [pd.isna(v)] on a scalar. *)
Definition isna (v : value) : bool :=
  match v with
  | VNone | VNaN | VNaT => true
  | _ => false
  end.

(** ** Exceptions *)

Inductive exn : Type :=
| ValueError (msg : string)
| KeyError (msg : string)
| HTTPException (status_code : nat)
| OtherError (msg : string).

(** ** Identifier parser *)

(** The text of the [ValueError] that [int] raises on a string of more
    than [Str.max_str_digits] digits. *)
Definition int_limit_message (digits : string) : string :=
  "Exceeds the limit (4300 digits) for integer string conversion: value has "
  ++ Str.of_int (Z.of_nat (String.length digits))
  ++ " digits; use sys.set_int_max_str_digits() to increase the limit".

(** The result is the slot number, [None], or the exception of [int]. *)
Definition parse_sku_to_slot (sku : value) : exn + option Z :=
  if py_not sku || isna sku then inr None
  else
    let sku_str := Str.strip (py_str sku) in
    if Str.is_empty sku_str then inr None
    else
      match Str.re_search_digits sku_str with
      | Some group =>
          match Str.int_of_digits group with
          | Some n => inr (Some n)
          | None => inl (ValueError (int_limit_message group))
          end
      | None => inr None
      end.

Example parse_item_001 : parse_sku_to_slot (VStr "ITEM-001") = inr (Some 1).
Proof. reflexivity. Qed.
Example parse_item_12 : parse_sku_to_slot (VStr "item_12") = inr (Some 12).
Proof. reflexivity. Qed.
Example parse_two_runs : parse_sku_to_slot (VStr "ITEM-001-2023") = inr (Some 1).
Proof. reflexivity. Qed.
Example parse_ws : parse_sku_to_slot (VStr "  ITEM-5  ") = inr (Some 5).
Proof. reflexivity. Qed.
Example parse_blank : parse_sku_to_slot (VStr "   ") = inr None.
Proof. reflexivity. Qed.
Example parse_int : parse_sku_to_slot (VInt 42) = inr (Some 42).
Proof. reflexivity. Qed.
Example parse_neg : parse_sku_to_slot (VInt (-7)) = inr (Some 7).
Proof. reflexivity. Qed.

(** ** DataFrames *)

(** A DataFrame, column by column: the index labels of its rows, in row
    order, and its columns, in column order, each with one cell per row. *)
Record DataFrame : Type := mkDF {
  df_index : list nat;
  df_columns : list (string * list value)
}.

(** A row as [iterrows] yields it: the cells of one position, by column. *)
Definition Row : Type := list (string * value).

Module DF.

Fixpoint assoc {A : Type} (c : string) (l : list (string * A)) : option A :=
  match l with
  | [] => None
  | (c', x) :: l' => if String.eqb c c' then Some x else assoc c l'
  end.

(** Replace the data of column [c] where it stands, or append the column. *)
Fixpoint assoc_set {A : Type} (c : string) (x : A) (l : list (string * A))
  : list (string * A) :=
  match l with
  | [] => [(c, x)]
  | (c', y) :: l' =>
      if String.eqb c c' then (c, x) :: l' else (c', y) :: assoc_set c x l'
  end.

Fixpoint assoc_alter {A : Type} (f : A -> A) (c : string)
  (l : list (string * A)) : list (string * A) :=
  match l with
  | [] => []
  | (c', y) :: l' =>
      if String.eqb c c' then (c', f y) :: l' else (c', y) :: assoc_alter f c l'
  end.

(** [df.columns] *)
Definition columns (d : DataFrame) : list string := map fst (df_columns d).

(** [len(df)] *)
Definition len (d : DataFrame) : nat := length (df_index d).

(** [df.empty]: some axis has length 0. *)
Definition empty (d : DataFrame) : bool :=
  (len d =? 0)%nat || (length (df_columns d) =? 0)%nat.

(** [df[c]] *)
Definition get_column (c : string) (d : DataFrame) : option (list value) :=
  assoc c (df_columns d).

(** [c in df.columns] *)
Definition has_column (c : string) (d : DataFrame) : bool :=
  match get_column c d with Some _ => true | None => false end.

(** [df[c] = v] with a scalar: the value is broadcast to every row. *)
Definition set_scalar (c : string) (v : value) (d : DataFrame) : DataFrame :=
  mkDF (df_index d) (assoc_set c (repeat v (len d)) (df_columns d)).

(** [df[c] = series] where the series carries the index of [df]: the
    cell of row [p] is entry [p] of the series, NaT where it has none. *)
Definition set_series (c : string) (data : list value) (d : DataFrame)
  : DataFrame :=
  mkDF (df_index d)
       (assoc_set c (map (fun p => nth p data VNaT) (seq 0 (len d)))
          (df_columns d)).

(** The row at position [p]. *)
Definition iloc (p : nat) (d : DataFrame) : Row :=
  map (fun cd => (fst cd, nth p (snd cd) VNaN)) (df_columns d).

(** [df.iterrows()]: the pairs of label and row, in row order, taken
    from the frame as it is when the iteration starts. *)
Definition iterrows (d : DataFrame) : list (nat * Row) :=
  imap (fun p i => (i, iloc p d)) (df_index d).

(** [row.get(c, default)] *)
Definition row_get (row : Row) (c : string) (default : value) : value :=
  match assoc c row with Some v => v | None => default end.

(** The position of the first row labelled [i]. *)
Fixpoint get_loc (i : nat) (index : list nat) : option nat :=
  match index with
  | [] => None
  | j :: index' =>
      if (i =? j)%nat then Some 0%nat else option_map S (get_loc i index')
  end.

(** The cell of column [c] in the first row labelled [i]: the value of
    [df.at[i, c]] when one row bears the label. *)
Definition at_get (i : nat) (c : string) (d : DataFrame) : option value :=
  match get_loc i (df_index d), get_column c d with
  | Some p, Some data => data !! p
  | _, _ => None
  end.

(** The number of rows that bear the label [i]. *)
Definition count_label (i : nat) (index : list nat) : nat :=
  List.length (List.filter (Nat.eqb i) index).

(** The cells of a column after [v] is written to the rows labelled [i]. *)
Fixpoint set_where (i : nat) (v : value) (index : list nat)
  (data : list value) : list value :=
  match index, data with
  | j :: index', x :: data' =>
      (if (i =? j)%nat then v else x) :: set_where i v index' data'
  | _, _ => data
  end.

(** [df.at[i, c] = v] for a label and a column that the frame has: the
    cell of every row that bears the label is written. *)
Definition at_set (i : nat) (c : string) (v : value) (d : DataFrame)
  : DataFrame :=
  mkDF (df_index d) (assoc_alter (set_where i v (df_index d)) c (df_columns d)).

(** [df.take(perm)]: the rows at the positions [perm], in that order. *)
Definition take (perm : list nat) (d : DataFrame) : DataFrame :=
  mkDF (map (fun p => nth p (df_index d) 0%nat) perm)
       (map (fun cd => (fst cd, map (fun p => nth p (snd cd) VNaN) perm))
          (df_columns d)).

(** [df.head(n)] *)
Definition head (n : nat) (d : DataFrame) : DataFrame :=
  mkDF (firstn n (df_index d))
       (map (fun cd => (fst cd, firstn n (snd cd))) (df_columns d)).

End DF.

(** ** State and exceptions *)

(** Computations over a state [St] that return or raise. *)
Definition SE (St A : Type) : Type := St -> St * (exn + A).

Definition ret {St A : Type} (a : A) : SE St A := fun s => (s, inr a).

Definition raise {St A : Type} (e : exn) : SE St A := fun s => (s, inl e).

Definition bind {St A B : Type} (m : SE St A) (k : A -> SE St B) : SE St B :=
  fun s =>
    match m s with
    | (s', inr a) => k a s'
    | (s', inl e) => (s', inl e)
    end.

Definition gets {St A : Type} (f : St -> A) : SE St A := fun s => (s, inr (f s)).

(** A function of the state that returns or raises. *)
Definition call {St A : Type} (f : St -> exn + A) : SE St A := fun s => (s, f s).

Definition modify {St : Type} (f : St -> St) : SE St unit := fun s => (f s, inr tt).

(** [try: m  except: handler], catching every exception. *)
Definition try_except {St A : Type} (m : SE St A) (handler : exn -> SE St A)
  : SE St A :=
  fun s =>
    match m s with
    | (s', inl e) => handler e s'
    | r => r
    end.

Declare Scope se_scope.
Delimit Scope se_scope with se.
Notation "x <- m ;; k" := (bind m (fun x => k))
  (at level 100, m at next level, right associativity) : se_scope.
Notation "m ;;; k" := (bind m (fun _ => k))
  (at level 100, right associativity) : se_scope.
Local Open Scope se_scope.

(** [for x in xs: st = body x st] *)
Fixpoint for_each {St X A : Type} (body : X -> A -> SE St A) (xs : list X)
  (a : A) : SE St A :=
  match xs with
  | [] => ret a
  | x :: xs' => a' <- body x a ;; for_each body xs' a'
  end.

(** The heap of DataFrame objects; a reference is a position in it. *)
Abbreviation loc := nat (only parsing).
Abbreviation heap := (list DataFrame) (only parsing).

(** Run a computation on the object that [l] refers to. *)
Definition on {A : Type} (l : loc) (m : SE DataFrame A) : SE heap A :=
  fun h =>
    match h !! l with
    | Some d => let (d', r) := m d in (<[l := d']> h, r)
    | None => (h, inl (OtherError "dangling reference"))
    end.

(** Allocate a new object. *)
Definition alloc (d : DataFrame) : SE heap loc :=
  fun h => ((h ++ [d])%list, inr (List.length h)).

(** [df.copy()] *)
Definition df_copy (l : loc) : SE heap loc :=
  d <- on l (gets (fun d => d)) ;; alloc d.

(** The text of the [ValueError] that the truth value of a Series of
    several cells raises. *)
Definition ambiguous_truth_message : string :=
  "The truth value of a Series is ambiguous. Use a.empty, a.bool(), a.item(), a.any() or a.all().".

(** [df.at[i, c]] where the engine reads it, as the condition of a test
    ([if existing_reason], [if df.at[...] != 'manual_review']).  When one
    row bears the label the expression is its cell.  When several rows do,
    pandas gives their cells as a Series, and the test of that Series
    raises a [ValueError]. *)
Definition at_ (i : nat) (c : string) : SE DataFrame value :=
  fun d =>
    if (1 <? DF.count_label i (df_index d))%nat
    then (d, inl (ValueError ambiguous_truth_message))
    else match DF.at_get i c d with
         | Some v => (d, inr v)
         | None => (d, inl (KeyError c))
         end.

(** ** Row filter *)

(** The loop [for keyword in keywords: if keyword.lower() in product_name:
    return True], then [return False]. *)
Fixpoint any_keyword_in (keywords : list string) (product_name : string) : bool :=
  match keywords with
  | [] => false
  | keyword :: rest =>
      if Str.contains (Str.lower keyword) product_name then true
      else any_keyword_in rest product_name
  end.

(** [str(row.get('product name', '')).lower()] *)
Definition product_name_of (row : Row) : string :=
  Str.lower (py_str (DF.row_get row "product name" (VStr ""))).

Definition should_exclude_row (row : Row) (exclude_keywords : list string) : bool :=
  match exclude_keywords with
  | [] => false
  | _ => any_keyword_in exclude_keywords (product_name_of row)
  end.

Definition should_include_row (row : Row) (include_keywords : list string) : bool :=
  match include_keywords with
  | [] => true
  | _ => any_keyword_in include_keywords (product_name_of row)
  end.

(** ** Strategy selector *)

(** The conversion of a count to a binary64 float that true division
    performs on its operands. *)
Definition float_of_count (n : nat) : float :=
  PrimFloat.of_uint63 (Uint63.of_Z (Z.of_nat n)).

(** [column.apply(f)]: [f] on every cell, in row order; an exception of
    [f] ends the call. *)
Fixpoint series_apply {A : Type} (f : value -> exn + A) (col : list value)
  : exn + list A :=
  match col with
  | [] => inr []
  | x :: col' =>
      match f x with
      | inl e => inl e
      | inr y =>
          match series_apply f col' with
          | inl e => inl e
          | inr ys => inr (y :: ys)
          end
      end
  end.

(** [lambda x: parse_sku_to_slot(x) is not None] *)
Definition parses (x : value) : exn + bool :=
  match parse_sku_to_slot x with
  | inl e => inl e
  | inr (Some _) => inr true
  | inr None => inr false
  end.

(** [series.sum()] on booleans: the number of [True]. *)
Definition count_true (flags : list bool) : nat :=
  List.length (List.filter (fun b : bool => b) flags).

#[local] Set Warnings "-inexact-float".

Definition detect_mode (d : DataFrame) : exn + string :=
  match DF.get_column "sku" d with
  | None => inr "sequence"
  | Some col =>
      match series_apply parses col with
      | inl e => inl e
      | inr flags =>
          let valid_skus := count_true flags in
          let total_rows := DF.len d in
          if (total_rows =? 0)%nat then inr "sequence"
          else
            let sku_ratio :=
              (float_of_count valid_skus / float_of_count total_rows)%float in
            inr (if (0.8 <=? sku_ratio)%float then "sku" else "sequence")
      end
  end.

(** ** Slot assigner *)

(** The counters of [match] and its dictionary [slot_usage], which maps a
    slot number to the labels of the rows that received it, in insertion
    order. *)
Record Tally : Type := mkTally {
  excluded_count : nat;
  matched_count : nat;
  needs_review_count : nat;
  slot_usage : list (Z * list nat)
}.

Definition incr_excluded (t : Tally) : Tally :=
  mkTally (S (excluded_count t)) (matched_count t) (needs_review_count t) (slot_usage t).

Definition incr_needs_review (t : Tally) : Tally :=
  mkTally (excluded_count t) (matched_count t) (S (needs_review_count t)) (slot_usage t).

(** [if s in slot_usage: slot_usage[s].append(idx) else: slot_usage[s] = [idx]] *)
Fixpoint usage_add (slot_num : Z) (idx : nat) (u : list (Z * list nat))
  : list (Z * list nat) :=
  match u with
  | [] => [(slot_num, [idx])]
  | (s, indices) :: u' =>
      if s =? slot_num then (s, (indices ++ [idx])%list) :: u'
      else (s, indices) :: usage_add slot_num idx u'
  end.

Definition record_match (slot_num : Z) (idx : nat) (t : Tally) : Tally :=
  mkTally (excluded_count t) (S (matched_count t)) (needs_review_count t)
          (usage_add slot_num idx (slot_usage t)).

(** The text of [f"Item #{n}"]. *)
Definition item_label (n : Z) : string := "Item #" ++ Str.of_int n.

(** [str] converts the integers of at most [Str.max_str_digits] digits:
    those below [int_str_limit], the power [10 ^ 4300], in absolute
    value. *)
Definition int_str_limit : Z :=
  Eval vm_compute in 10 ^ Z.of_nat Str.max_str_digits.

#[global] Arguments int_str_limit : simpl never.

Lemma int_str_limit_eq : int_str_limit = 10 ^ Z.of_nat Str.max_str_digits.
Proof. vm_compute. reflexivity. Qed.

(** The text of the [ValueError] that [str] raises on a longer one. *)
Definition str_limit_message : string :=
  "Exceeds the limit (4300 digits) for integer string conversion; "
  ++ "use sys.set_int_max_str_digits() to increase the limit".

(** The evaluation of [f"Item #{n}"]: the label, or the exception of
    the conversion of [n]. *)
Definition format_item_label {St : Type} (n : Z) : SE St string :=
  if Z.abs n <? int_str_limit then ret (item_label n)
  else raise (ValueError str_limit_message).

(** [v != s] for a cell and a string literal. *)
Definition py_ne_str (v : value) (s : string) : bool :=
  match v with
  | VStr s' => negb (String.eqb s' s)
  | _ => true
  end.

Record Summary : Type := mkSummary {
  total_rows : nat;
  matched : nat;
  excluded : nat;
  needs_review : nat;
  duplicate_slots : nat;
  mode_used : string;
  start_slot_used : Z;
  exclude_keywords_used : list string;
  include_keywords_used : list string
}.

(** [[k.strip() for k in (kws or [])] if kws else []] *)
Definition normalize_keywords (kws : option (list string)) : list string :=
  match kws with
  | Some (k :: ks) => List.map Str.strip (k :: ks)
  | _ => []
  end.

(** The body of the loop of the identifier strategy. *)
Definition sku_row (exclude_keywords include_keywords : list string)
  (x : nat * Row) (t : Tally) : SE DataFrame Tally :=
  let idx := fst x in
  let row := snd x in
  if should_exclude_row row exclude_keywords then
    modify (DF.at_set idx "match_method" (VStr "excluded")) ;;;
    ret (incr_excluded t)
  else if negb (should_include_row row include_keywords) then
    modify (DF.at_set idx "match_method" (VStr "excluded")) ;;;
    ret (incr_excluded t)
  else
    let sku := DF.row_get row "sku" VNone in
    match parse_sku_to_slot sku with
    | inl e => raise e
    | inr None =>
        modify (DF.at_set idx "match_method" (VStr "manual_review")) ;;;
        modify (DF.at_set idx "needs_review" (VBool true)) ;;;
        modify (DF.at_set idx "review_reason" (VStr "sku_missing_or_invalid")) ;;;
        ret (incr_needs_review t)
    | inr (Some slot_num) =>
        modify (DF.at_set idx "slot" (VInt slot_num)) ;;;
        label <- format_item_label slot_num ;;
        modify (DF.at_set idx "matched_item_label" (VStr label)) ;;;
        modify (DF.at_set idx "match_method" (VStr "sku")) ;;;
        ret (record_match slot_num idx t)
    end.

(** The body of the loop of the sequence strategy; the state carries
    [current_slot]. *)
Definition sequence_row (exclude_keywords include_keywords : list string)
  (x : nat * Row) (st : Tally * Z) : SE DataFrame (Tally * Z) :=
  let idx := fst x in
  let row := snd x in
  let t := fst st in
  let current_slot := snd st in
  if should_exclude_row row exclude_keywords then
    modify (DF.at_set idx "match_method" (VStr "excluded")) ;;;
    ret (incr_excluded t, current_slot)
  else if negb (should_include_row row include_keywords) then
    modify (DF.at_set idx "match_method" (VStr "excluded")) ;;;
    ret (incr_excluded t, current_slot)
  else
    modify (DF.at_set idx "slot" (VInt current_slot)) ;;;
    label <- format_item_label current_slot ;;
    modify (DF.at_set idx "matched_item_label" (VStr label)) ;;;
    modify (DF.at_set idx "match_method" (VStr "sequence")) ;;;
    ret (record_match current_slot idx t, current_slot + 1).

(** The inner loop of duplicate detection, for one row of a group. *)
Definition flag_duplicate (idx : nat) (needs_review_count : nat)
  : SE DataFrame nat :=
  modify (DF.at_set idx "needs_review" (VBool true)) ;;;
  existing_reason <- at_ idx "review_reason" ;;
  modify (DF.at_set idx "review_reason"
            (VStr (if py_not existing_reason then "duplicate_slot"
                   else py_str existing_reason ++ "; duplicate_slot"))) ;;;
  method <- at_ idx "match_method" ;;
  ret (if py_ne_str method "manual_review" then S needs_review_count
       else needs_review_count).

(** The outer loop of duplicate detection, for one entry of [slot_usage];
    the state is [(duplicate_count, needs_review_count)]. *)
Definition detect_group (g : Z * list nat) (st : nat * nat)
  : SE DataFrame (nat * nat) :=
  let indices := snd g in
  if (1 <? List.length indices)%nat then
    n <- for_each flag_duplicate indices (snd st) ;;
    ret (S (fst st), n)
  else ret st.

Definition initial_tally : Tally := mkTally 0 0 0 [].

Definition invalid_mode_message (mode : string) : string :=
  "Invalid mode: " ++ mode ++ ". Must be 'auto', 'sku', or 'sequence'".

Section Engine.

(** [pd.to_datetime(column, errors='coerce')]: the timestamps of a
    column, [VNaT] where a cell does not parse; [None] when it raises. *)
Variable to_datetime : list value -> option (list value).

(** The sorting routine behind [sort_values]: from the keys, the
    positions of the rows in their new order. *)
Variable argsort : list value -> list nat.

(** [df.sort_values(c)]: a new frame. *)
Definition df_sort_values (l : loc) (c : string) : SE heap loc :=
  d <- on l (gets (fun d => d)) ;;
  match DF.get_column c d with
  | Some keys => alloc (DF.take (argsort keys) d)
  | None => raise (KeyError c)
  end.

Definition pd_to_datetime (col : option (list value)) : SE heap (list value) :=
  match col with
  | Some cells =>
      match to_datetime cells with
      | Some keys => ret keys
      | None => raise (OtherError "to_datetime")
      end
  | None => raise (KeyError "placed at")
  end.

(** The first step of the sequence strategy: the frame to iterate. *)
Definition sort_by_timestamp (df : loc) : SE heap loc :=
  has_placed_at <- on df (gets (DF.has_column "placed at")) ;;
  if has_placed_at : bool then
    try_except
      (col <- on df (gets (DF.get_column "placed at")) ;;
       keys <- pd_to_datetime col ;;
       on df (modify (DF.set_series "_sort_key" keys)) ;;;
       df_sort_values df "_sort_key")
      (fun _ => ret df)
  else ret df.

Definition match_ (df : loc) (mode : string) (start_slot : Z)
  (exclude_keywords include_keywords : option (list string))
  : SE heap (loc * Summary) :=
  is_empty <- on df (gets DF.empty) ;;
  if is_empty : bool then raise (ValueError "DataFrame is empty")
  else
    let exclude_keywords := normalize_keywords exclude_keywords in
    let include_keywords := normalize_keywords include_keywords in
    mode <- (if String.eqb mode "auto" then on df (call detect_mode)
             else ret mode) ;;
    if negb (String.eqb mode "sku" || String.eqb mode "sequence") then
      raise (ValueError (invalid_mode_message mode))
    else
      df <- df_copy df ;;
      on df (modify (DF.set_scalar "slot" VNone)) ;;;
      on df (modify (DF.set_scalar "matched_item_label" VNone)) ;;;
      on df (modify (DF.set_scalar "match_method" VNone)) ;;;
      on df (modify (DF.set_scalar "needs_review" (VBool false))) ;;;
      on df (modify (DF.set_scalar "review_reason" (VStr ""))) ;;;
      total_rows <- on df (gets DF.len) ;;
      r <- (if String.eqb mode "sku" then
              t <- on df (rows <- gets DF.iterrows ;;
                          for_each (sku_row exclude_keywords include_keywords)
                            rows initial_tally) ;;
              ret (df, t)
            else
              df <- sort_by_timestamp df ;;
              st <- on df (rows <- gets DF.iterrows ;;
                           for_each (sequence_row exclude_keywords include_keywords)
                             rows (initial_tally, start_slot)) ;;
              ret (df, fst st)) ;;
      let df := fst r in
      let t := snd r in
      dup <- on df (for_each detect_group (slot_usage t)
                      (0%nat, needs_review_count t)) ;;
      ret (df, mkSummary total_rows (matched_count t) (excluded_count t)
                 (snd dup) (fst dup) mode start_slot
                 exclude_keywords include_keywords).

End Engine.

(** ** The HTTP endpoint [/match] of [app/main.py] *)

(** [s.split(',')] *)
Fixpoint split_comma (s : string) : list string :=
  match s with
  | EmptyString => [EmptyString]
  | String c s' =>
      if Ascii.eqb c "," then EmptyString :: split_comma s'
      else match split_comma s' with
           | piece :: pieces => String c piece :: pieces
           | [] => [String c EmptyString]
           end
  end.

(** [[k.strip() for k in s.split(',') if k.strip()]] *)
Definition parse_keywords (s : string) : list string :=
  List.map Str.strip
    (List.filter (fun k => negb (Str.is_empty (Str.strip k))) (split_comma s)).

(** The dictionary that [match_endpoint] returns; the preview holds the
    first 25 rows. *)
Record Response : Type := mkResponse {
  resp_summary : Summary;
  resp_preview : list Row;
  resp_columns : list string;
  resp_total_rows : nat
}.

(** The cells that the JSON encoder accepts: the framework encodes with
    [allow_nan=False], and [json.dumps] then raises a [ValueError] on a
    float that is not a number.  (The integers of the table are written
    as [str] converts them: those of the input are integers of a column,
    and a slot has been converted for its label.) *)
Definition json_compliant (v : value) : bool :=
  match v with
  | VNaN => false
  | _ => true
  end.

(** The encoder writes the start slot of the summary as [str] converts
    it, and the cells of the preview. *)
Definition encodable (r : Response) : bool :=
  (Z.abs (start_slot_used (resp_summary r)) <? int_str_limit)
  && forallb (fun row : Row => forallb (fun cell => json_compliant (snd cell)) row)
       (resp_preview r).

(** The encoding of the returned dictionary as the body of the answer.
    The framework encodes when the function has returned, outside its
    [try]; an exception there is answered with status 500. *)
Definition send_json (r : Response) : SE (list DataFrame) Response :=
  if encodable r then ret r else raise (HTTPException 500).

Section Endpoint.

(** [pd.read_csv(BytesIO(file_bytes))]: the table, or the text of the
    exception that it raises. *)
Variable read_csv : string -> string + DataFrame.
Variable to_datetime : list value -> option (list value).
Variable argsort : list value -> list nat.

(** [load_csv]: every exception of its body, the one for an empty table
    included, is raised again as a [ValueError]. *)
Definition load_csv (file_bytes : string) : SE (list DataFrame) nat :=
  match read_csv file_bytes with
  | inr d =>
      df <- alloc d ;;
      if DF.empty d then raise (ValueError "Failed to load CSV: CSV file is empty")
      else ret df
  | inl msg => raise (ValueError ("Failed to load CSV: " ++ msg))
  end.

(** [match_endpoint], on the bytes of the uploaded file, up to the
    answer to the request: the body of the function, then the encoding of
    the dictionary that it returns.  The handlers of its [try] turn a
    [ValueError] into status 400 and every other exception, the
    [HTTPException] of the validation included, into status 500; the
    detail texts are left out. *)
Definition match_endpoint (file_bytes mode : string) (start_slot : Z)
  (exclude_keywords include_keywords : string)
  : SE (list DataFrame) Response :=
  response <-
    try_except
      (if negb (String.eqb mode "auto" || String.eqb mode "sku"
                || String.eqb mode "sequence")
       then raise (HTTPException 400)
       else if start_slot <? 1 then raise (HTTPException 400)
       else
         df <- load_csv file_bytes ;;
         let exclude_list := parse_keywords exclude_keywords in
         let include_list := parse_keywords include_keywords in
         r <- match_ to_datetime argsort df mode start_slot
                (Some exclude_list) (Some include_list) ;;
         let matched_df := fst r in
         let summary := snd r in
         d <- on matched_df (gets (fun d => d)) ;;
         preview_df <- alloc (DF.head 25 d) ;;
         preview <- on preview_df (gets (fun p => List.map snd (DF.iterrows p))) ;;
         ret (mkResponse summary preview (DF.columns d) (DF.len d)))
      (fun e =>
         match e with
         | ValueError _ => raise (HTTPException 400)
         | _ => raise (HTTPException 500)
         end) ;;
  send_json response.

End Endpoint.

(** ** Serialisation *)

(** A CSV file is given by its records, and a record by its fields: the
    texts that stand between the separators.  The quotes that the writer
    puts around a field that holds a separator, a quote or a line break
    delimit the field in the bytes and are no part of it. *)

(** The nanoseconds of a day. *)
Definition day_ns : Z := 86400000000000.

(** Whether [to_csv] writes the timestamps of a column as dates: the
    column holds timestamps only, NaT aside, and each one is a midnight. *)
Definition dates_only (col : list value) : bool :=
  forallb (fun v => match v with
                    | VTime ns _ => ns mod day_ns =? 0
                    | VNaT => true
                    | _ => false
                    end) col.

(** A cell as [to_csv] writes it: a missing value as the empty field, a
    timestamp of a column of midnights as its date (the first ten
    characters of its rendering), every other value as [str] gives it. *)
Definition csv_field (as_date : bool) (v : value) : string :=
  if isna v then ""
  else match v with
       | VTime _ repr => if as_date then String.substring 0 10 repr else repr
       | _ => py_str v
       end.

Definition csv_column (col : list value) : list string :=
  List.map (csv_field (dates_only col)) col.

(** [export_csv]: the header, then one record per row, without the
    index ([index=False]). *)
Definition export_csv (d : DataFrame) : list (list string) :=
  DF.columns d
  :: List.map (fun p => List.map (fun cd => nth p (csv_column (snd cd)) "")
                          (df_columns d))
       (seq 0 (DF.len d)).

(** ** The HTTP endpoint [/download] of [app/main.py] *)

Section Download.

Variable read_csv : string -> string + DataFrame.
Variable to_datetime : list value -> option (list value).
Variable argsort : list value -> list nat.

(** [download_endpoint]: the steps of [match_endpoint] up to the call of
    the engine, then the export; the result is the body of the response.
    The handlers are those of [match_endpoint]. *)
Definition download_endpoint (file_bytes mode : string) (start_slot : Z)
  (exclude_keywords include_keywords : string)
  : SE (list DataFrame) (list (list string)) :=
  try_except
    (if negb (String.eqb mode "auto" || String.eqb mode "sku"
              || String.eqb mode "sequence")
     then raise (HTTPException 400)
     else if start_slot <? 1 then raise (HTTPException 400)
     else
       df <- load_csv read_csv file_bytes ;;
       let exclude_list := parse_keywords exclude_keywords in
       let include_list := parse_keywords include_keywords in
       r <- match_ to_datetime argsort df mode start_slot
              (Some exclude_list) (Some include_list) ;;
       let matched_df := fst r in
       csv_bytes <- on matched_df (gets export_csv) ;;
       ret csv_bytes)
    (fun e =>
       match e with
       | ValueError _ => raise (HTTPException 400)
       | _ => raise (HTTPException 500)
       end).

End Download.

(** ** The command line of [app/cli.py] *)

(** The arguments as [argparse] returns them; it admits the modes
    [auto], [sku] and [sequence] only, and the start slot is what [int]
    converts from the argument: an integer of at most 4300 digits, which
    [str] converts where the command line prints it. *)
Record Args : Type := mkArgs {
  input_file : string;
  output_file : string;
  arg_mode : string;
  arg_start_slot : Z;
  arg_exclude : string;
  arg_include : string
}.

(** What [parser.parse_args()] does with the arguments of the process.
    On [--help] it prints the help and ends the process with status 0; on
    arguments that it rejects (a missing [--in] or [--out], a mode that is
    no choice, a start slot that is no integer) it prints the usage and
    the error to the standard error and ends the process with status 2;
    otherwise it returns the arguments. *)
Inductive Parsed : Type :=
| ArgsHelp (text : string)
| ArgsError (text : string)
| ArgsParsed (args : Args).








Section CommandLine.

(** The parser of [argparse], on the arguments of the process. *)
Variable parse_args : list string -> Parsed.

(** The file system: [Path.exists], the bytes that reading a file gives
    or the text of the exception, and the text of the exception that
    writing a file raises, if it does. *)
Variable path_exists : string -> bool.
Variable read_file : string -> string + string.
Variable write_error : string -> option string.

Variable read_csv : string -> string + DataFrame.
Variable to_datetime : list value -> option (list value).
Variable argsort : list value -> list nat.





End CommandLine.

(** * Properties *)

(** ** Association lists and frames *)

Module DFFacts.
Import DF.

Lemma eqb_sym_false (a b : string) : a <> b -> String.eqb a b = false.
Proof. intros H. now apply String.eqb_neq. Qed.

Lemma assoc_alter_same {A} (f : A -> A) c (l : list (string * A)) :
  assoc c (assoc_alter f c l) = option_map f (assoc c l).
Proof.
  induction l as [|[c' y] l IH]; simpl; [reflexivity|].
  destruct (String.eqb c c') eqn:E; simpl; rewrite E; [reflexivity|exact IH].
Qed.

Lemma assoc_alter_other {A} (f : A -> A) c c' (l : list (string * A)) :
  c <> c' -> assoc c' (assoc_alter f c l) = assoc c' l.
Proof.
  intros Hne. induction l as [|[c0 y] l IH]; simpl; [reflexivity|].
  destruct (String.eqb c c0) eqn:E; simpl.
  - apply String.eqb_eq in E. subst c0.
    rewrite (eqb_sym_false c' c); [reflexivity|congruence].
  - now rewrite IH.
Qed.

Lemma assoc_alter_names {A} (f : A -> A) c (l : list (string * A)) :
  List.map fst (assoc_alter f c l) = List.map fst l.
Proof.
  induction l as [|[c' y] l IH]; simpl; [reflexivity|].
  destruct (String.eqb c c'); simpl; [reflexivity|now rewrite IH].
Qed.

Lemma assoc_set_same {A} c (x : A) (l : list (string * A)) :
  assoc c (assoc_set c x l) = Some x.
Proof.
  induction l as [|[c' y] l IH]; simpl.
  - now rewrite String.eqb_refl.
  - destruct (String.eqb c c') eqn:E; simpl.
    + now rewrite String.eqb_refl.
    + now rewrite E.
Qed.

Lemma assoc_set_other {A} c c' (x : A) (l : list (string * A)) :
  c <> c' -> assoc c' (assoc_set c x l) = assoc c' l.
Proof.
  intros Hne. induction l as [|[c0 y] l IH]; simpl.
  - rewrite eqb_sym_false; [reflexivity|congruence].
  - destruct (String.eqb c c0) eqn:E; simpl.
    + apply String.eqb_eq in E. subst c0.
      rewrite eqb_sym_false; [reflexivity|congruence].
    + now rewrite IH.
Qed.

(** Assigning a column keeps the names and their order when the column
    exists, and appends the name otherwise. *)
Lemma assoc_set_names {A} c (x : A) (l : list (string * A)) :
  List.map fst (assoc_set c x l)
  = match assoc c l with
    | Some _ => List.map fst l
    | None => (List.map fst l ++ [c])%list
    end.
Proof.
  induction l as [|[c' y] l IH]; simpl; [reflexivity|].
  destruct (String.eqb c c') eqn:E; simpl.
  - apply String.eqb_eq in E. now subst.
  - rewrite IH. now destruct (assoc c l).
Qed.

Lemma get_loc_lookup i index p :
  get_loc i index = Some p -> index !! p = Some i.
Proof.
  revert p. induction index as [|j index IH]; intros p; simpl; [discriminate|].
  destruct (Nat.eqb_spec i j) as [->|Hne].
  - now intros [= <-].
  - destruct (get_loc i index) as [q|]; simpl; [|discriminate].
    intros [= <-]. simpl. now apply IH.
Qed.

Lemma get_loc_NoDup i (index : list nat) p :
  NoDup index -> index !! p = Some i -> get_loc i index = Some p.
Proof.
  intros Hnd. revert p. induction Hnd as [|j index Hj Hnd IH]; intros p; simpl.
  - now rewrite lookup_nil.
  - destruct p as [|p]; simpl.
    + intros [= ->]. now rewrite Nat.eqb_refl.
    + intros Hp. destruct (Nat.eqb_spec i j) as [->|Hne].
      * exfalso. apply Hj. apply list_elem_of_lookup. eauto.
      * now rewrite (IH _ Hp).
Qed.

Lemma get_loc_elem i (index : list nat) :
  i ∈ index -> exists p, get_loc i index = Some p.
Proof.
  induction index as [|j index IH]; simpl.
  - intros H. now apply elem_of_nil in H.
  - intros H. destruct (Nat.eqb_spec i j) as [->|Hne]; [eauto|].
    apply elem_of_cons in H as [->|H]; [congruence|].
    destruct (IH H) as [p ->]. simpl. eauto.
Qed.

Lemma set_where_length i v index data :
  List.length (set_where i v index data) = List.length data.
Proof.
  revert data. induction index as [|j index IH]; intros [|x data]; simpl;
    try reflexivity.
  now rewrite IH.
Qed.

(** The cells after a write: a cell of a row labelled [i] holds the
    value, every other cell is as before. *)
Lemma set_where_lookup i v index data p :
  set_where i v index data !! p
  = match data !! p with
    | Some x =>
        match index !! p with
        | Some j => Some (if (i =? j)%nat then v else x)
        | None => Some x
        end
    | None => None
    end.
Proof.
  revert data p. induction index as [|j index IH]; intros [|x data] [|p]; simpl;
    try reflexivity.
  - now destruct (data !! p).
  - apply IH.
Qed.

(** With distinct labels at most one row bears a label. *)
Lemma count_label_NoDup i (index : list nat) :
  NoDup index -> (count_label i index <= 1)%nat.
Proof.
  unfold count_label. induction 1 as [|j index Hj Hnd IH]; simpl; [lia|].
  destruct (Nat.eqb_spec i j) as [->|Hne]; simpl; [|exact IH].
  assert (E : List.filter (Nat.eqb j) index = []).
  { clear IH Hnd. induction index as [|k index IH]; simpl; [reflexivity|].
    apply not_elem_of_cons in Hj as [Hjk Hj].
    destruct (Nat.eqb_spec j k); [congruence|auto]. }
  rewrite E. simpl. lia.
Qed.

Lemma at_set_index i c v d : df_index (at_set i c v d) = df_index d.
Proof. reflexivity. Qed.

Lemma at_set_columns i c v d : columns (at_set i c v d) = columns d.
Proof. unfold at_set, columns. simpl. apply assoc_alter_names. Qed.

(** Reading after a write: the written cell holds the value when it
    exists; the cell of every other label and column is as before. *)
Lemma at_get_at_set i c v j c' d :
  at_get j c' (at_set i c v d)
  = if decide (i = j /\ c = c')
    then match at_get i c d with Some _ => Some v | None => None end
    else at_get j c' d.
Proof.
  unfold at_set, at_get, get_column. simpl.
  destruct (decide (c = c')) as [<-|Hc].
  - rewrite assoc_alter_same.
    destruct (get_loc j (df_index d)) as [q|] eqn:Hj.
    + pose proof (get_loc_lookup _ _ _ Hj) as Hq.
      destruct (assoc c (df_columns d)) as [data|]; simpl.
      * rewrite set_where_lookup, Hq.
        destruct (decide (i = j /\ c = c)) as [[-> _]|Hn].
        -- rewrite Hj, Nat.eqb_refl. now destruct (data !! q).
        -- destruct (Nat.eqb_spec i j) as [->|Hij]; [tauto|].
           now destruct (data !! q).
      * destruct (decide (i = j /\ c = c)) as [[-> _]|Hn]; [|reflexivity].
        now rewrite Hj.
    + destruct (decide (i = j /\ c = c)) as [[-> _]|Hn]; [|reflexivity].
      now rewrite Hj.
  - rewrite decide_False by tauto.
    now rewrite assoc_alter_other.
Qed.

Lemma get_column_at_set_other i c v c' d :
  c <> c' -> get_column c' (at_set i c v d) = get_column c' d.
Proof.
  intros Hne. unfold at_set, get_column. simpl. now apply assoc_alter_other.
Qed.

Lemma get_column_at_set_length i c v c' d data :
  get_column c' d = Some data ->
  exists data', get_column c' (at_set i c v d) = Some data'
                /\ List.length data' = List.length data.
Proof.
  intros H. unfold at_set, get_column in *. simpl.
  destruct (decide (c = c')) as [<-|Hne].
  - rewrite assoc_alter_same, H. simpl. eexists. split; [reflexivity|].
    apply set_where_length.
  - rewrite assoc_alter_other by done. eauto.
Qed.

Lemma set_scalar_index c v d : df_index (set_scalar c v d) = df_index d.
Proof. reflexivity. Qed.

Lemma get_column_set_scalar c v c' d :
  get_column c' (set_scalar c v d)
  = if decide (c = c') then Some (repeat v (len d)) else get_column c' d.
Proof.
  unfold get_column, set_scalar. simpl.
  destruct (decide (c = c')) as [<-|Hne].
  - apply assoc_set_same.
  - now apply assoc_set_other.
Qed.

Lemma get_column_set_series c data c' d :
  get_column c' (set_series c data d)
  = if decide (c = c')
    then Some (List.map (fun p => nth p data VNaT) (seq 0 (len d)))
    else get_column c' d.
Proof.
  unfold get_column, set_series. simpl.
  destruct (decide (c = c')) as [<-|Hne].
  - apply assoc_set_same.
  - now apply assoc_set_other.
Qed.

Lemma assoc_map_snd {A B} (f : A -> B) c (l : list (string * A)) :
  assoc c (List.map (fun cd => (fst cd, f (snd cd))) l) = option_map f (assoc c l).
Proof.
  induction l as [|[c' y] l IH]; simpl; [reflexivity|].
  destruct (String.eqb c c'); [reflexivity|exact IH].
Qed.

Lemma get_column_take perm c d :
  get_column c (take perm d)
  = option_map (fun data => List.map (fun p => nth p data VNaN) perm)
      (get_column c d).
Proof. unfold get_column, take. simpl. apply (assoc_map_snd (fun data => List.map (fun p => nth p data VNaN) perm)). Qed.

(** What a row read with [row.get] holds: the cell of the column at the
    position of the row. *)
Lemma row_get_iloc p c dflt d :
  row_get (iloc p d) c dflt
  = match get_column c d with
    | Some data => nth p data VNaN
    | None => dflt
    end.
Proof.
  unfold row_get, iloc, get_column.
  rewrite (assoc_map_snd (fun data => nth p data VNaN)).
  now destruct (assoc c (df_columns d)).
Qed.

End DFFacts.

(** ** The annotation of a row *)

(** The five annotation cells of one row. *)
Record Ann : Type := mkAnn {
  a_slot : value;
  a_label : value;
  a_method : value;
  a_review : value;
  a_reason : value
}.

Definition ann_at (d : DataFrame) (i : nat) : option Ann :=
  match DF.at_get i "slot" d, DF.at_get i "matched_item_label" d,
        DF.at_get i "match_method" d, DF.at_get i "needs_review" d,
        DF.at_get i "review_reason" d with
  | Some s, Some l, Some m, Some r, Some e => Some (mkAnn s l m r e)
  | _, _, _, _, _ => None
  end.

(** The annotation columns, in the order in which [match] creates them. *)
Definition annotation_columns : list string :=
  ["slot"; "matched_item_label"; "match_method"; "needs_review"; "review_reason"].

Definition ann_set (c : string) (v : value) (a : Ann) : Ann :=
  if String.eqb c "slot" then mkAnn v (a_label a) (a_method a) (a_review a) (a_reason a)
  else if String.eqb c "matched_item_label" then mkAnn (a_slot a) v (a_method a) (a_review a) (a_reason a)
  else if String.eqb c "match_method" then mkAnn (a_slot a) (a_label a) v (a_review a) (a_reason a)
  else if String.eqb c "needs_review" then mkAnn (a_slot a) (a_label a) (a_method a) v (a_reason a)
  else if String.eqb c "review_reason" then mkAnn (a_slot a) (a_label a) (a_method a) (a_review a) v
  else a.

(** The cells as the initialisation of [match] leaves them. *)
Definition init_ann : Ann := mkAnn VNone VNone VNone (VBool false) (VStr "").

(** What a loop decides for a row. *)
Inductive outcome : Type :=
| Excluded
| Manual
| Assigned (method : string) (n : Z).

Definition final_ann (o : outcome) : Ann :=
  match o with
  | Excluded => mkAnn VNone VNone (VStr "excluded") (VBool false) (VStr "")
  | Manual => mkAnn VNone VNone (VStr "manual_review") (VBool true)
                (VStr "sku_missing_or_invalid")
  | Assigned m n => mkAnn (VInt n) (VStr (item_label n)) (VStr m) (VBool false) (VStr "")
  end.

(** The annotation after the inner loop of duplicate detection. *)
Definition dup_ann (a : Ann) : Ann :=
  mkAnn (a_slot a) (a_label a) (a_method a) (VBool true)
    (VStr (if py_not (a_reason a) then "duplicate_slot"
           else py_str (a_reason a) ++ "; duplicate_slot")).

(** A row passes the filter: it is not excluded and it is included. *)
Definition passes (ex inc : list string) (row : Row) : bool :=
  negb (should_exclude_row row ex) && should_include_row row inc.

(** Whether the parser returns on a value: [int] accepts its digits. *)
Definition parser_returns (v : value) : bool :=
  match parse_sku_to_slot v with
  | inr _ => true
  | inl _ => false
  end.

(** What the parser returns on a value, [None] also where it raises. *)
Definition slot_of (v : value) : option Z :=
  match parse_sku_to_slot v with
  | inr r => r
  | inl _ => None
  end.

Lemma parse_sku_to_slot_returns v :
  parser_returns v = true -> parse_sku_to_slot v = inr (slot_of v).
Proof.
  unfold parser_returns, slot_of.
  now destruct (parse_sku_to_slot v).
Qed.

Lemma parse_sku_to_slot_raises v :
  parser_returns v = false -> exists e, parse_sku_to_slot v = inl e.
Proof.
  unfold parser_returns.
  destruct (parse_sku_to_slot v) as [e|r]; [eauto|discriminate].
Qed.

(** The identifier of a row, as the loop reads it. *)
Definition sku_of (row : Row) : value := DF.row_get row "sku" VNone.

Definition sku_outcome (ex inc : list string) (row : Row) : outcome :=
  if passes ex inc row then
    match slot_of (sku_of row) with
    | None => Manual
    | Some n => Assigned "sku" n
    end
  else Excluded.

(** The decisions of a loop: label and outcome, in processing order. *)
Abbreviation Plan := (list (nat * outcome)) (only parsing).

Definition sku_plan (ex inc : list string) (rows : list (nat * Row)) : Plan :=
  List.map (fun x => (fst x, sku_outcome ex inc (snd x))) rows.

Fixpoint sequence_plan (ex inc : list string) (current_slot : Z)
  (rows : list (nat * Row)) : Plan :=
  match rows with
  | [] => []
  | x :: rows' =>
      if passes ex inc (snd x)
      then (fst x, Assigned "sequence" current_slot)
             :: sequence_plan ex inc (current_slot + 1) rows'
      else (fst x, Excluded) :: sequence_plan ex inc current_slot rows'
  end.

(** The slot counter after a plan of the sequence strategy. *)
Fixpoint sequence_next (ex inc : list string) (current_slot : Z)
  (rows : list (nat * Row)) : Z :=
  match rows with
  | [] => current_slot
  | x :: rows' =>
      if passes ex inc (snd x)
      then sequence_next ex inc (current_slot + 1) rows'
      else sequence_next ex inc current_slot rows'
  end.

Definition apply_outcome (i : nat) (o : outcome) (d : DataFrame) : DataFrame :=
  match o with
  | Excluded => DF.at_set i "match_method" (VStr "excluded") d
  | Manual =>
      DF.at_set i "review_reason" (VStr "sku_missing_or_invalid")
        (DF.at_set i "needs_review" (VBool true)
           (DF.at_set i "match_method" (VStr "manual_review") d))
  | Assigned m n =>
      DF.at_set i "match_method" (VStr m)
        (DF.at_set i "matched_item_label" (VStr (item_label n))
           (DF.at_set i "slot" (VInt n) d))
  end.

Definition tally_step (i : nat) (o : outcome) (t : Tally) : Tally :=
  match o with
  | Excluded => incr_excluded t
  | Manual => incr_needs_review t
  | Assigned _ n => record_match n i t
  end.

Definition apply_plan (p : Plan) (d : DataFrame) : DataFrame :=
  fold_left (fun d io => apply_outcome (fst io) (snd io) d) p d.

Definition tally_plan (p : Plan) (t : Tally) : Tally :=
  fold_left (fun t io => tally_step (fst io) (snd io) t) p t.

(** The identifier of the row is parsed when the row passes the filter;
    the parser returns on it. *)
Definition row_parses (ex inc : list string) (x : nat * Row) : Prop :=
  passes ex inc (snd x) = true -> parser_returns (sku_of (snd x)) = true.

(** The slot of an outcome is an integer that [str] converts. *)
Definition outcome_converts (o : outcome) : Prop :=
  match o with
  | Assigned _ n => Z.abs n < int_str_limit
  | _ => True
  end.

(** The labels of a plan can be written. *)
Definition plan_converts (p : Plan) : Prop :=
  Forall (fun io => outcome_converts (snd io)) p.

Lemma format_item_label_run {St : Type} n (s : St) :
  Z.abs n < int_str_limit -> format_item_label n s = (s, inr (item_label n)).
Proof.
  intros Hn. unfold format_item_label.
  apply Z.ltb_lt in Hn. now rewrite Hn.
Qed.

Lemma sku_row_run ex inc x t d :
  row_parses ex inc x ->
  outcome_converts (sku_outcome ex inc (snd x)) ->
  sku_row ex inc x t d
  = (apply_outcome (fst x) (sku_outcome ex inc (snd x)) d,
     inr (tally_step (fst x) (sku_outcome ex inc (snd x)) t)).
Proof.
  unfold row_parses, sku_row, sku_outcome, passes. intros Hret Hconv.
  destruct (should_exclude_row (snd x) ex); simpl in *; [reflexivity|].
  destruct (should_include_row (snd x) inc); simpl in *; [|reflexivity].
  fold (sku_of (snd x)) in *.
  rewrite (parse_sku_to_slot_returns _ (Hret eq_refl)).
  destruct (slot_of _) as [n|]; [|reflexivity].
  unfold bind, modify. now rewrite (format_item_label_run _ _ Hconv).
Qed.

(** The loop of the identifier strategy, when the parser returns on the
    identifier of every row that passes the filter. *)
Lemma sku_loop_run ex inc rows t d :
  Forall (row_parses ex inc) rows ->
  plan_converts (sku_plan ex inc rows) ->
  for_each (sku_row ex inc) rows t d
  = (apply_plan (sku_plan ex inc rows) d,
     inr (tally_plan (sku_plan ex inc rows) t)).
Proof.
  intros Hret. revert t d.
  induction Hret as [|x rows Hx Hret IH]; intros t d Hconv; simpl; [reflexivity|].
  apply Forall_cons in Hconv as [Hc Hconv].
  unfold bind. rewrite (sku_row_run _ _ _ _ _ Hx Hc). now apply IH.
Qed.

(** The loop of the sequence strategy, when its slots can be written
    into labels. *)
Lemma sequence_loop_run ex inc rows t cur d :
  plan_converts (sequence_plan ex inc cur rows) ->
  for_each (sequence_row ex inc) rows (t, cur) d
  = (apply_plan (sequence_plan ex inc cur rows) d,
     inr (tally_plan (sequence_plan ex inc cur rows) t,
          sequence_next ex inc cur rows)).
Proof.
  revert t cur d. induction rows as [|x rows IH]; intros t cur d; simpl; [reflexivity|].
  unfold bind, sequence_row, passes. simpl.
  destruct (should_exclude_row (snd x) ex); simpl.
  { intros Hconv. apply Forall_cons in Hconv as [_ Hconv]. now apply IH. }
  destruct (should_include_row (snd x) inc); simpl.
  - intros Hconv. apply Forall_cons in Hconv as [Hc Hconv]. simpl in Hc.
    apply Z.ltb_lt in Hc. unfold modify, format_item_label. rewrite Hc.
    now apply IH.
  - intros Hconv. apply Forall_cons in Hconv as [_ Hconv]. now apply IH.
Qed.

(** ** Writes to annotation cells *)

Definition is_annotation (c : string) : bool :=
  existsb (String.eqb c) annotation_columns.

(** What the loops leave alone: the index, the column names, the columns
    other than the annotations, and the length of every column. *)
Record same_frame (d d' : DataFrame) : Prop := mk_same_frame {
  sf_index : df_index d' = df_index d;
  sf_columns : DF.columns d' = DF.columns d;
  sf_other : forall c, is_annotation c = false ->
                       DF.get_column c d' = DF.get_column c d;
  sf_length : forall c data, DF.get_column c d = Some data ->
                exists data', DF.get_column c d' = Some data'
                              /\ List.length data' = List.length data
}.

Lemma same_frame_refl d : same_frame d d.
Proof. split; eauto. Qed.

Lemma same_frame_trans d1 d2 d3 :
  same_frame d1 d2 -> same_frame d2 d3 -> same_frame d1 d3.
Proof.
  intros [I1 C1 O1 L1] [I2 C2 O2 L2]. split.
  - congruence.
  - congruence.
  - intros c Hc. rewrite O2, O1; auto.
  - intros c data H. destruct (L1 _ _ H) as (data1 & H1 & E1).
    destruct (L2 _ _ H1) as (data2 & H2 & E2). exists data2. split; [done|congruence].
Qed.

Lemma is_annotation_cases c :
  is_annotation c = true ->
  c = "slot" \/ c = "matched_item_label" \/ c = "match_method"
  \/ c = "needs_review" \/ c = "review_reason".
Proof.
  unfold is_annotation. simpl.
  destruct (String.eqb_spec c "slot") as [->|_]; [tauto|].
  destruct (String.eqb_spec c "matched_item_label") as [->|_]; [tauto|].
  destruct (String.eqb_spec c "match_method") as [->|_]; [tauto|].
  destruct (String.eqb_spec c "needs_review") as [->|_]; [tauto|].
  destruct (String.eqb_spec c "review_reason") as [->|_]; [tauto|].
  discriminate.
Qed.

Lemma same_frame_at_set i c v d :
  is_annotation c = true -> same_frame d (DF.at_set i c v d).
Proof.
  intros Hc. split.
  - apply DFFacts.at_set_index.
  - apply DFFacts.at_set_columns.
  - intros c' Hc'. apply DFFacts.get_column_at_set_other. congruence.
  - intros c' data. apply DFFacts.get_column_at_set_length.
Qed.

Lemma at_get_at_set_label i c v c' d :
  DF.at_get i c' (DF.at_set i c v d)
  = if String.eqb c c'
    then match DF.at_get i c d with Some _ => Some v | None => None end
    else DF.at_get i c' d.
Proof.
  rewrite DFFacts.at_get_at_set.
  destruct (String.eqb_spec c c') as [->|Hne].
  - now rewrite decide_True.
  - rewrite decide_False; [reflexivity|tauto].
Qed.

Lemma ann_at_at_set_same i c v d a :
  ann_at d i = Some a ->
  ann_at (DF.at_set i c v d) i = Some (ann_set c v a).
Proof.
  unfold ann_at, ann_set. rewrite !at_get_at_set_label.
  destruct (DF.at_get i "slot" d) as [s|] eqn:Es; [|discriminate].
  destruct (DF.at_get i "matched_item_label" d) as [l|] eqn:El; [|discriminate].
  destruct (DF.at_get i "match_method" d) as [m|] eqn:Em; [|discriminate].
  destruct (DF.at_get i "needs_review" d) as [r|] eqn:Er; [|discriminate].
  destruct (DF.at_get i "review_reason" d) as [e|] eqn:Ee; [|discriminate].
  intros [= <-]. simpl.
  destruct (String.eqb_spec c "slot") as [->|H1]; [now rewrite Es|].
  destruct (String.eqb_spec c "matched_item_label") as [->|H2]; [now rewrite El|].
  destruct (String.eqb_spec c "match_method") as [->|H3]; [now rewrite Em|].
  destruct (String.eqb_spec c "needs_review") as [->|H4]; [now rewrite Er|].
  destruct (String.eqb_spec c "review_reason") as [->|H5]; [now rewrite Ee|].
  reflexivity.
Qed.

Lemma ann_at_at_set_other i j c v d :
  i <> j -> ann_at (DF.at_set i c v d) j = ann_at d j.
Proof.
  intros Hne. unfold ann_at. rewrite !DFFacts.at_get_at_set.
  rewrite !decide_False by tauto. reflexivity.
Qed.

(** The annotation of the row an outcome is written to. *)
Lemma apply_outcome_same i o d :
  ann_at d i = Some init_ann ->
  ann_at (apply_outcome i o d) i = Some (final_ann o).
Proof.
  intros H. destruct o as [| |m n]; unfold apply_outcome.
  - now rewrite (ann_at_at_set_same _ _ _ _ _ H).
  - pose proof (ann_at_at_set_same i "match_method" (VStr "manual_review") _ _ H) as H1.
    pose proof (ann_at_at_set_same i "needs_review" (VBool true) _ _ H1) as H2.
    now rewrite (ann_at_at_set_same _ _ _ _ _ H2).
  - pose proof (ann_at_at_set_same i "slot" (VInt n) _ _ H) as H1.
    pose proof (ann_at_at_set_same i "matched_item_label" (VStr (item_label n)) _ _ H1) as H2.
    now rewrite (ann_at_at_set_same _ _ _ _ _ H2).
Qed.

Lemma apply_outcome_other i j o d :
  i <> j -> ann_at (apply_outcome i o d) j = ann_at d j.
Proof.
  intros Hne. destruct o; unfold apply_outcome;
    now rewrite ?ann_at_at_set_other by done.
Qed.

Lemma apply_outcome_frame i o d : same_frame d (apply_outcome i o d).
Proof.
  destruct o; unfold apply_outcome;
    repeat (eapply same_frame_trans; [|apply same_frame_at_set; reflexivity]);
    apply same_frame_refl.
Qed.

Lemma apply_plan_frame p d : same_frame d (apply_plan p d).
Proof.
  revert d. induction p as [|[i o] p IH]; intros d; simpl.
  - apply same_frame_refl.
  - eapply same_frame_trans; [apply apply_outcome_frame|apply IH].
Qed.

Lemma apply_plan_other p j d :
  j ∉ List.map fst p -> ann_at (apply_plan p d) j = ann_at d j.
Proof.
  revert d. induction p as [|[i o] p IH]; intros d Hj; simpl; [reflexivity|].
  simpl in Hj. apply not_elem_of_cons in Hj as [Hji Hj].
  rewrite IH by done. apply apply_outcome_other. congruence.
Qed.

(** After a loop, every row carries the annotation of its outcome. *)
Lemma apply_plan_same p d i o :
  NoDup (List.map fst p) ->
  (forall j, j ∈ List.map fst p -> ann_at d j = Some init_ann) ->
  (i, o) ∈ p ->
  ann_at (apply_plan p d) i = Some (final_ann o).
Proof.
  revert d. induction p as [|[j o'] p IH]; intros d Hnd Hinit Hin.
  - now apply elem_of_nil in Hin.
  - simpl in *. apply NoDup_cons in Hnd as [Hj Hnd].
    apply elem_of_cons in Hin as [[= -> ->]|Hin].
    + rewrite apply_plan_other by done.
      apply apply_outcome_same. apply Hinit. left.
    + apply IH; [done| |done].
      intros k Hk. rewrite apply_outcome_other.
      * apply Hinit. now right.
      * intros ->. contradiction.
Qed.

(** ** The dictionary [slot_usage] *)

(** [slot_usage.get(s, [])] *)
Fixpoint usage_get (s : Z) (u : list (Z * list nat)) : list nat :=
  match u with
  | [] => []
  | (s', indices) :: u' => if s' =? s then indices else usage_get s u'
  end.

Lemma usage_get_add s s' i u :
  usage_get s (usage_add s' i u)
  = if s =? s' then (usage_get s u ++ [i])%list else usage_get s u.
Proof.
  induction u as [|[s0 ids] u IH]; simpl.
  - rewrite (Z.eqb_sym s' s). now destruct (s =? s').
  - destruct (Z.eqb_spec s0 s') as [->|Hne]; simpl.
    + rewrite (Z.eqb_sym s' s). now destruct (s =? s').
    + destruct (Z.eqb_spec s0 s) as [->|Hne'].
      * destruct (Z.eqb_spec s s'); [congruence|reflexivity].
      * exact IH.
Qed.

Lemma usage_add_keys s i u x :
  x ∈ List.map fst (usage_add s i u) <-> x = s \/ x ∈ List.map fst u.
Proof.
  induction u as [|[s0 ids] u IH]; simpl.
  - rewrite list_elem_of_singleton, elem_of_nil. tauto.
  - destruct (Z.eqb_spec s0 s) as [->|Hne]; simpl.
    + rewrite !elem_of_cons. tauto.
    + rewrite !elem_of_cons, IH. tauto.
Qed.

Lemma usage_add_NoDup s i u :
  NoDup (List.map fst u) -> NoDup (List.map fst (usage_add s i u)).
Proof.
  induction u as [|[s0 ids] u IH]; simpl; intros Hnd.
  - apply NoDup_singleton.
  - apply NoDup_cons in Hnd as [H0 Hnd].
    destruct (Z.eqb_spec s0 s) as [->|Hne]; simpl.
    + now apply NoDup_cons.
    + apply NoDup_cons. split; [|auto].
      rewrite usage_add_keys. intros [->|H]; [congruence|contradiction].
Qed.

Lemma usage_get_elem s ids u :
  NoDup (List.map fst u) -> (s, ids) ∈ u -> usage_get s u = ids.
Proof.
  induction u as [|[s0 ids0] u IH]; simpl; intros Hnd Hin.
  - now apply elem_of_nil in Hin.
  - apply NoDup_cons in Hnd as [H0 Hnd].
    apply elem_of_cons in Hin as [[= <- <-]|Hin].
    + now rewrite Z.eqb_refl.
    + destruct (Z.eqb_spec s0 s) as [->|Hne]; [|auto].
      exfalso. apply H0. apply list_elem_of_fmap. exists (s, ids). split; [reflexivity|done].
Qed.

Lemma usage_get_nonempty s u :
  usage_get s u <> [] -> (s, usage_get s u) ∈ u.
Proof.
  induction u as [|[s0 ids0] u IH]; simpl; intros H; [congruence|].
  destruct (Z.eqb_spec s0 s) as [->|Hne].
  - left.
  - right. auto.
Qed.

(** The dictionary that a loop builds from its plan. *)
Definition usage_step (u : list (Z * list nat)) (io : nat * outcome)
  : list (Z * list nat) :=
  match snd io with
  | Assigned _ n => usage_add n (fst io) u
  | _ => u
  end.

Definition plan_usage (p : Plan) (u : list (Z * list nat)) : list (Z * list nat) :=
  fold_left usage_step p u.

Definition is_assigned (s : Z) (io : nat * outcome) : bool :=
  match snd io with
  | Assigned _ n => n =? s
  | _ => false
  end.

(** The labels of the rows that a plan assigns slot [s], in order. *)
Definition assigned_labels (s : Z) (p : Plan) : list nat :=
  List.map fst (List.filter (is_assigned s) p).

Lemma slot_usage_tally_plan p t :
  slot_usage (tally_plan p t) = plan_usage p (slot_usage t).
Proof.
  revert t. induction p as [|[i o] p IH]; intros t; simpl; [reflexivity|].
  unfold tally_plan, plan_usage in *. simpl. rewrite IH.
  now destruct o.
Qed.

Lemma plan_usage_NoDup p u :
  NoDup (List.map fst u) -> NoDup (List.map fst (plan_usage p u)).
Proof.
  revert u. induction p as [|[i o] p IH]; intros u Hnd; simpl; [done|].
  apply IH. unfold usage_step. simpl. destruct o; auto using usage_add_NoDup.
Qed.

Lemma plan_usage_get s p u :
  usage_get s (plan_usage p u) = (usage_get s u ++ assigned_labels s p)%list.
Proof.
  revert u. induction p as [|[i o] p IH]; intros u; simpl.
  - unfold assigned_labels. simpl. now rewrite app_nil_r.
  - unfold plan_usage in *. simpl. rewrite IH.
    unfold usage_step, assigned_labels, is_assigned. simpl.
    destruct o as [| |m n]; simpl; try reflexivity.
    rewrite usage_get_add. rewrite (Z.eqb_sym n s).
    destruct (s =? n); simpl; [now rewrite <- app_assoc|reflexivity].
Qed.

(** Every entry of the dictionary of a plan lists the rows the plan
    assigns its slot to, and at least one. *)
Lemma plan_usage_entry p s ids :
  (s, ids) ∈ plan_usage p [] -> ids = assigned_labels s p.
Proof.
  intros Hin.
  rewrite <- (usage_get_elem s ids (plan_usage p [])); [|by apply plan_usage_NoDup, NoDup_nil|done].
  now rewrite plan_usage_get.
Qed.

Lemma assigned_labels_elem i s p :
  i ∈ assigned_labels s p <-> exists m, (i, Assigned m s) ∈ p.
Proof.
  unfold assigned_labels. rewrite list_elem_of_fmap. split.
  - intros ([j o] & -> & Hin). apply list_elem_of_In, filter_In in Hin as [Hin Ha].
    unfold is_assigned in Ha. simpl in *. destruct o as [| |m n]; try discriminate.
    apply Z.eqb_eq in Ha. subst n. exists m. now apply list_elem_of_In.
  - intros [m Hin]. exists (i, Assigned m s). split; [reflexivity|].
    apply list_elem_of_In, filter_In. split; [now apply list_elem_of_In|].
    unfold is_assigned. simpl. apply Z.eqb_refl.
Qed.

Lemma assigned_labels_NoDup s p :
  NoDup (List.map fst p) -> NoDup (assigned_labels s p).
Proof.
  unfold assigned_labels. induction p as [|[i o] p IH]; simpl; intros Hnd.
  - apply NoDup_nil_2.
  - apply NoDup_cons in Hnd as [Hi Hnd].
    destruct (is_assigned s (i, o)); simpl; [|auto].
    apply NoDup_cons. split; [|auto].
    intros Hin. apply Hi. apply list_elem_of_fmap in Hin as (x & -> & Hx).
    apply list_elem_of_fmap. exists x. split; [reflexivity|].
    apply list_elem_of_In, filter_In in Hx as [Hx _]. now apply list_elem_of_In.
Qed.

(** ** Duplicate detection *)

Lemma ann_at_inv d i a :
  ann_at d i = Some a ->
  DF.at_get i "slot" d = Some (a_slot a)
  /\ DF.at_get i "matched_item_label" d = Some (a_label a)
  /\ DF.at_get i "match_method" d = Some (a_method a)
  /\ DF.at_get i "needs_review" d = Some (a_review a)
  /\ DF.at_get i "review_reason" d = Some (a_reason a).
Proof.
  unfold ann_at.
  destruct (DF.at_get i "slot" d); [|discriminate].
  destruct (DF.at_get i "matched_item_label" d); [|discriminate].
  destruct (DF.at_get i "match_method" d); [|discriminate].
  destruct (DF.at_get i "needs_review" d); [|discriminate].
  destruct (DF.at_get i "review_reason" d); [|discriminate].
  intros [= <-]. simpl. tauto.
Qed.

(** One turn of the inner loop: the row is flagged, its reason extended,
    and the tally advanced unless the row is in manual review. *)
Lemma flag_duplicate_run i n d a :
  NoDup (df_index d) ->
  ann_at d i = Some a ->
  exists d',
    flag_duplicate i n d
    = (d', inr (if py_ne_str (a_method a) "manual_review" then S n else n))
    /\ ann_at d' i = Some (dup_ann a)
    /\ (forall j, j <> i -> ann_at d' j = ann_at d j)
    /\ same_frame d d'.
Proof.
  intros Hnd Ha.
  assert (Hone : (1 <? DF.count_label i (df_index d))%nat = false).
  { apply Nat.ltb_ge. now apply DFFacts.count_label_NoDup. }
  pose proof (ann_at_at_set_same i "needs_review" (VBool true) _ _ Ha) as H1.
  destruct (ann_at_inv _ _ _ H1) as (_ & _ & _ & _ & Hr1).
  simpl in Hr1.
  set (d1 := DF.at_set i "needs_review" (VBool true) d) in *.
  set (reason := VStr (if py_not (a_reason a) then "duplicate_slot"
                       else py_str (a_reason a) ++ "; duplicate_slot")).
  pose proof (ann_at_at_set_same i "review_reason" reason _ _ H1) as H2.
  destruct (ann_at_inv _ _ _ H2) as (_ & _ & Hm2 & _ & _).
  simpl in Hm2.
  exists (DF.at_set i "review_reason" reason d1). split; [|split; [|split]].
  - unfold flag_duplicate, bind, modify, at_. fold d1.
    change (df_index d1) with (df_index d). rewrite Hone, Hr1.
    fold reason.
    change (df_index (DF.at_set i "review_reason" reason d1)) with (df_index d).
    now rewrite Hone, Hm2.
  - exact H2.
  - intros j Hj. unfold d1. now rewrite !ann_at_at_set_other by congruence.
  - eapply same_frame_trans; apply same_frame_at_set; reflexivity.
Qed.

Definition countable_row (d : DataFrame) (i : nat) : Prop :=
  exists a, ann_at d i = Some a /\ py_ne_str (a_method a) "manual_review" = true.

Lemma flag_loop_run indices n d :
  NoDup (df_index d) ->
  NoDup indices ->
  (forall i, i ∈ indices -> countable_row d i) ->
  exists d',
    for_each flag_duplicate indices n d = (d', inr (n + List.length indices)%nat)
    /\ (forall i a, i ∈ indices -> ann_at d i = Some a ->
                    ann_at d' i = Some (dup_ann a))
    /\ (forall j, j ∉ indices -> ann_at d' j = ann_at d j)
    /\ same_frame d d'.
Proof.
  intros Hlabels Hnd. revert n d Hlabels.
  induction Hnd as [|i indices Hi Hnd IH]; intros n d Hlabels Hrows.
  - exists d. simpl. unfold ret. rewrite Nat.add_0_r. repeat split; auto.
    + intros i a Hin. now apply elem_of_nil in Hin.
    + eauto.
  - destruct (Hrows i) as (a & Ha & Hm); [left|].
    destruct (flag_duplicate_run i n d a Hlabels Ha)
      as (d1 & Hrun & Hsame & Hother & Hframe).
    rewrite Hm in Hrun.
    destruct (IH (S n) d1) as (d' & Hrun' & Hsame' & Hother' & Hframe').
    { now rewrite (sf_index _ _ Hframe). }
    { intros j Hj. unfold countable_row. rewrite Hother.
      - apply Hrows. now right.
      - intros ->. contradiction. }
    exists d'. split; [|split; [|split]].
    + simpl. unfold bind. rewrite Hrun, Hrun'. do 2 f_equal. simpl. lia.
    + intros j b Hj Hb. apply elem_of_cons in Hj as [->|Hj].
      * rewrite Hother' by done. congruence.
      * apply Hsame'; [done|]. rewrite Hother; [done|]. intros ->. contradiction.
    + intros j Hj. apply not_elem_of_cons in Hj as [Hji Hj].
      rewrite Hother' by done. now apply Hother.
    + eapply same_frame_trans; eassumption.
Qed.

(** A group of the dictionary with more than one row. *)
Definition is_dup_group (g : Z * list nat) : bool :=
  (1 <? List.length (snd g))%nat.

(** The rows that duplicate detection flags. *)
Definition flagged (u : list (Z * list nat)) : list nat :=
  concat (List.map snd (List.filter is_dup_group u)).

Lemma flagged_subset u i : i ∈ flagged u -> i ∈ concat (List.map snd u).
Proof.
  unfold flagged. induction u as [|g u IH]; simpl; [done|].
  destruct (is_dup_group g); simpl; rewrite !elem_of_app; tauto.
Qed.

Lemma detect_group_eq s indices dc n d :
  detect_group (s, indices) (dc, n) d
  = if (1 <? List.length indices)%nat
    then match for_each flag_duplicate indices n d with
         | (d', inr n') => (d', inr (S dc, n'))
         | (d', inl e) => (d', inl e)
         end
    else (d, inr (dc, n)).
Proof.
  unfold detect_group, bind, ret. simpl.
  now destruct (1 <? List.length indices)%nat.
Qed.

Lemma detect_loop_run u dc n d :
  NoDup (df_index d) ->
  NoDup (concat (List.map snd u)) ->
  (forall i, i ∈ concat (List.map snd u) -> countable_row d i) ->
  exists d',
    for_each detect_group u (dc, n) d
    = (d', inr ((dc + List.length (List.filter is_dup_group u))%nat,
                (n + List.length (flagged u))%nat))
    /\ (forall i a, i ∈ flagged u -> ann_at d i = Some a ->
                    ann_at d' i = Some (dup_ann a))
    /\ (forall j, j ∉ flagged u -> ann_at d' j = ann_at d j)
    /\ same_frame d d'.
Proof.
  revert dc n d. induction u as [|[s ids] u IH]; intros dc n d Hlabels Hnd Hrows.
  - exists d. simpl. unfold ret, flagged. simpl. rewrite !Nat.add_0_r.
    repeat split; auto.
    + intros i a Hin. now apply elem_of_nil in Hin.
    + eauto.
  - simpl in Hnd. apply NoDup_app in Hnd as (Hids & Hdisj & Hnd).
    simpl. unfold bind. rewrite detect_group_eq.
    assert (Hg : is_dup_group (s, ids) = (1 <? List.length ids)%nat) by reflexivity.
    unfold flagged. simpl. rewrite !Hg.
    destruct (1 <? List.length ids)%nat eqn:Hbig.
    + destruct (flag_loop_run ids n d Hlabels Hids)
        as (d1 & Hrun & Hsame & Hother & Hframe).
      { intros i Hi. apply Hrows. simpl. apply elem_of_app. now left. }
      assert (Hlabels1 : NoDup (df_index d1)) by now rewrite (sf_index _ _ Hframe).
      destruct (IH (S dc) (n + List.length ids)%nat d1 Hlabels1 Hnd)
        as (d' & Hrun' & Hsame' & Hother' & Hframe').
      { intros i Hi. unfold countable_row. rewrite Hother.
        - apply Hrows. simpl. apply elem_of_app. now right.
        - intros Hin. exact (Hdisj _ Hin Hi). }
      exists d'. split; [|split; [|split]].
      * rewrite Hrun, Hrun'.
        simpl. rewrite length_app. unfold flagged. do 3 f_equal; lia.
      * intros i a Hi Ha. simpl in Hi. apply elem_of_app in Hi as [Hi|Hi].
        -- rewrite Hother'.
           ++ now apply Hsame.
           ++ intros Hin. apply (Hdisj _ Hi). now apply flagged_subset.
        -- apply Hsame'; [done|]. rewrite Hother; [done|].
           intros Hin. apply (Hdisj _ Hin). now apply flagged_subset.
      * intros j Hj. simpl in Hj. apply not_elem_of_app in Hj as [Hj1 Hj2].
        rewrite Hother' by done. now apply Hother.
      * eapply same_frame_trans; eassumption.
    + destruct (IH dc n d Hlabels Hnd) as (d' & Hrun' & Hsame' & Hother' & Hframe').
      { intros i Hi. apply Hrows. simpl. apply elem_of_app. now right. }
      exists d'. split; [|split; [|split]]; auto.
Qed.

(** ** Initialisation and sorting *)

(** The frame after [df['slot'] = None] ... [df['review_reason'] = '']. *)
Definition init_columns (d : DataFrame) : DataFrame :=
  DF.set_scalar "review_reason" (VStr "")
    (DF.set_scalar "needs_review" (VBool false)
       (DF.set_scalar "match_method" VNone
          (DF.set_scalar "matched_item_label" VNone
             (DF.set_scalar "slot" VNone d)))).

(** Every annotation cell holds its initial value. *)
Record initialised (d : DataFrame) : Prop := mk_initialised {
  in_slot : DF.get_column "slot" d = Some (repeat VNone (DF.len d));
  in_label : DF.get_column "matched_item_label" d = Some (repeat VNone (DF.len d));
  in_method : DF.get_column "match_method" d = Some (repeat VNone (DF.len d));
  in_review : DF.get_column "needs_review" d = Some (repeat (VBool false) (DF.len d));
  in_reason : DF.get_column "review_reason" d = Some (repeat (VStr "") (DF.len d))
}.

Lemma init_columns_index d : df_index (init_columns d) = df_index d.
Proof. reflexivity. Qed.

Lemma init_columns_initialised d : initialised (init_columns d).
Proof.
  split; unfold init_columns;
    repeat (rewrite DFFacts.get_column_set_scalar;
            first [ rewrite decide_True by reflexivity; reflexivity
                  | rewrite decide_False by discriminate ]).
Qed.

Lemma init_columns_other c d :
  is_annotation c = false ->
  DF.get_column c (init_columns d) = DF.get_column c d.
Proof.
  intros Hc. unfold init_columns. rewrite !DFFacts.get_column_set_scalar.
  repeat (destruct (decide (_ = c)) as [<-|_]; [discriminate Hc|]).
  reflexivity.
Qed.

Lemma lookup_repeat (v : value) n p :
  (p < n)%nat -> repeat v n !! p = Some v.
Proof.
  revert p. induction n as [|n IH]; intros p Hp; [lia|].
  destruct p as [|p]; simpl; [reflexivity|]. apply IH. lia.
Qed.

Lemma at_get_repeat d i c v :
  DF.get_column c d = Some (repeat v (DF.len d)) ->
  i ∈ df_index d -> DF.at_get i c d = Some v.
Proof.
  intros Hc Hi. unfold DF.at_get.
  destruct (DFFacts.get_loc_elem _ _ Hi) as [p Hp]. rewrite Hp, Hc.
  apply DFFacts.get_loc_lookup, lookup_lt_Some in Hp.
  apply lookup_repeat. exact Hp.
Qed.

Lemma initialised_ann_at d i :
  initialised d -> i ∈ df_index d -> ann_at d i = Some init_ann.
Proof.
  intros [H1 H2 H3 H4 H5] Hi. unfold ann_at.
  rewrite (at_get_repeat _ _ _ _ H1 Hi), (at_get_repeat _ _ _ _ H2 Hi),
    (at_get_repeat _ _ _ _ H3 Hi), (at_get_repeat _ _ _ _ H4 Hi),
    (at_get_repeat _ _ _ _ H5 Hi).
  reflexivity.
Qed.

Lemma initialised_set_series keys d :
  initialised d -> initialised (DF.set_series "_sort_key" keys d).
Proof.
  intros [H1 H2 H3 H4 H5].
  split; rewrite DFFacts.get_column_set_series, decide_False by discriminate;
    assumption.
Qed.

Lemma map_nth_repeat (v : value) n perm :
  (forall p, p ∈ perm -> (p < n)%nat) ->
  List.map (fun p => nth p (repeat v n) VNaN) perm = repeat v (List.length perm).
Proof.
  induction perm as [|p perm IH]; intros H; simpl; [reflexivity|].
  rewrite IH by (intros q Hq; apply H; now right).
  f_equal. rewrite nth_repeat_lt; [reflexivity|]. apply H. left.
Qed.

Lemma take_len perm d : DF.len (DF.take perm d) = List.length perm.
Proof. unfold DF.len, DF.take. simpl. apply length_map. Qed.

Lemma initialised_take perm d :
  (forall p, p ∈ perm -> (p < DF.len d)%nat) ->
  initialised d -> initialised (DF.take perm d).
Proof.
  intros Hp [H1 H2 H3 H4 H5].
  split; rewrite DFFacts.get_column_take, take_len;
    [rewrite H1|rewrite H2|rewrite H3|rewrite H4|rewrite H5];
    simpl; now rewrite map_nth_repeat.
Qed.

(** ** Running the engine on the heap *)

Lemma on_middle {A} (m : SE DataFrame A) (h t : heap) d :
  on (List.length h) m (h ++ d :: t)%list
  = ((h ++ fst (m d) :: t)%list, snd (m d)).
Proof.
  unfold on. rewrite list_lookup_middle by reflexivity.
  destruct (m d) as [d' r]. simpl. f_equal.
  induction h as [|x h IH]; simpl; [reflexivity|]. now rewrite IH.
Qed.

Lemma on_last {A} (m : SE DataFrame A) (h : heap) d :
  on (List.length h) m (h ++ [d])%list = ((h ++ [fst (m d)])%list, snd (m d)).
Proof. apply on_middle. Qed.

Lemma on_last2 {A} (m : SE DataFrame A) (h : heap) a d :
  on (S (List.length h)) m (h ++ [a; d])%list
  = ((h ++ [a; fst (m d)])%list, snd (m d)).
Proof.
  replace (S (List.length h)) with (List.length (h ++ [a])%list)
    by (rewrite length_app; simpl; lia).
  change (h ++ [a; d])%list with (h ++ [a] ++ [d])%list.
  rewrite app_assoc, on_last, <- app_assoc. reflexivity.
Qed.

Lemma on_gets {A} (f : DataFrame -> A) (l : loc) (h : heap) d :
  h !! l = Some d -> on l (gets f) h = (h, inr (f d)).
Proof.
  intros Hl. unfold on, gets. rewrite Hl. f_equal. now apply list_insert_id.
Qed.

Lemma on_dangling {A} (m : SE DataFrame A) (l : loc) (h : heap) :
  h !! l = None -> on l m h = (h, inl (OtherError "dangling reference")).
Proof. intros Hl. unfold on. now rewrite Hl. Qed.

Section Sorting.

Variable to_datetime : list value -> option (list value).
Variable argsort : list value -> list nat.

(** The keys of the sort, when the frame has a timestamp column and
    [to_datetime] returns. *)
Definition sort_keys (d : DataFrame) : option (list value) :=
  match DF.get_column "placed at" d with
  | Some col => to_datetime col
  | None => None
  end.

(** The column [_sort_key] as the assignment stores it. *)
Definition key_column (keys : list value) (d : DataFrame) : list value :=
  List.map (fun p => nth p keys VNaT) (seq 0 (DF.len d)).

Definition keyed_frame (keys : list value) (d : DataFrame) : DataFrame :=
  DF.set_series "_sort_key" keys d.

Definition sorted_frame (keys : list value) (d : DataFrame) : DataFrame :=
  DF.take (argsort (key_column keys d)) (keyed_frame keys d).

(** The frame that the loop of a strategy iterates, from the initialised
    copy. *)
Definition iterated_frame (mode : string) (d1 : DataFrame) : DataFrame :=
  if String.eqb mode "sku" then d1
  else match sort_keys d1 with
       | Some keys => sorted_frame keys d1
       | None => d1
       end.

Lemma sort_by_timestamp_run (h : heap) d1 :
  sort_by_timestamp to_datetime argsort (List.length h) (h ++ [d1])%list
  = match sort_keys d1 with
    | Some keys =>
        ((h ++ [keyed_frame keys d1; sorted_frame keys d1])%list,
         inr (S (List.length h)))
    | None => ((h ++ [d1])%list, inr (List.length h))
    end.
Proof.
  unfold sort_by_timestamp, sort_keys.
  unfold bind at 1. rewrite on_last. simpl.
  unfold DF.has_column.
  destruct (DF.get_column "placed at" d1) as [col|] eqn:Hcol; [|reflexivity].
  unfold try_except, bind. rewrite on_last. simpl. rewrite Hcol.
  unfold pd_to_datetime.
  destruct (to_datetime col) as [keys|] eqn:Hk; simpl; [|reflexivity].
  rewrite on_last. simpl.
  unfold df_sort_values, bind. rewrite on_last. simpl.
  fold (keyed_frame keys d1).
  unfold keyed_frame at 1. rewrite DFFacts.get_column_set_series.
  rewrite decide_True by reflexivity.
  unfold alloc. rewrite length_app. simpl. rewrite Nat.add_1_r.
  rewrite <- app_assoc. reflexivity.
Qed.

End Sorting.

(** ** The rows that the dictionary holds *)

Definition all_ids (u : list (Z * list nat)) : list nat :=
  concat (List.map snd u).

Definition is_assignment (io : nat * outcome) : bool :=
  match snd io with
  | Assigned _ _ => true
  | _ => false
  end.

(** The labels of the rows a plan assigns a slot to. *)
Definition assigned_rows (p : Plan) : list nat :=
  List.map fst (List.filter is_assignment p).

Lemma all_ids_usage_add s i u :
  Permutation (all_ids (usage_add s i u)) (i :: all_ids u).
Proof.
  unfold all_ids. induction u as [|[s0 ids] u IH]; simpl.
  - reflexivity.
  - destruct (s0 =? s); simpl.
    + rewrite <- app_assoc. simpl. symmetry. apply Permutation_middle.
    + rewrite IH. symmetry. apply Permutation_middle.
Qed.

Lemma all_ids_plan_usage p u :
  Permutation (all_ids (plan_usage p u)) (all_ids u ++ assigned_rows p).
Proof.
  revert u. induction p as [|[i o] p IH]; intros u.
  - unfold assigned_rows. simpl. now rewrite app_nil_r.
  - unfold plan_usage in *. simpl. rewrite IH.
    unfold usage_step, assigned_rows, is_assignment. simpl.
    destruct o as [| |m n]; simpl; try reflexivity.
    rewrite all_ids_usage_add. simpl. apply Permutation_middle.
Qed.

Lemma assigned_rows_NoDup p :
  NoDup (List.map fst p) -> NoDup (assigned_rows p).
Proof.
  unfold assigned_rows. induction p as [|[i o] p IH]; simpl; intros Hnd.
  - apply NoDup_nil_2.
  - apply NoDup_cons in Hnd as [Hi Hnd].
    destruct (is_assignment (i, o)); simpl; [|auto].
    apply NoDup_cons. split; [|auto].
    intros Hin. apply Hi. apply list_elem_of_fmap in Hin as (x & -> & Hx).
    apply list_elem_of_fmap. exists x. split; [reflexivity|].
    apply list_elem_of_In, filter_In in Hx as [Hx _]. now apply list_elem_of_In.
Qed.

Lemma assigned_rows_elem i p :
  i ∈ assigned_rows p <-> exists m n, (i, Assigned m n) ∈ p.
Proof.
  unfold assigned_rows. rewrite list_elem_of_fmap. split.
  - intros ([j o] & -> & Hin). apply list_elem_of_In, filter_In in Hin as [Hin Ha].
    unfold is_assignment in Ha. simpl in *. destruct o as [| |m n]; try discriminate.
    exists m, n. now apply list_elem_of_In.
  - intros (m & n & Hin). exists (i, Assigned m n). split; [reflexivity|].
    apply list_elem_of_In, filter_In. split; [now apply list_elem_of_In|reflexivity].
Qed.

Lemma plan_usage_all_ids_NoDup p :
  NoDup (List.map fst p) -> NoDup (all_ids (plan_usage p [])).
Proof.
  intros Hnd. rewrite all_ids_plan_usage. simpl.
  now apply assigned_rows_NoDup.
Qed.

Lemma elem_of_concat {A} (x : A) (ls : list (list A)) :
  x ∈ concat ls <-> exists l, x ∈ l /\ l ∈ ls.
Proof.
  induction ls as [|l ls IH]; simpl.
  - split; [intros H; now apply elem_of_nil in H|].
    intros (l & _ & H). now apply elem_of_nil in H.
  - rewrite elem_of_app, IH. split.
    + intros [H|(l' & H1 & H2)]; [exists l; split; [done|left]|].
      exists l'. split; [done|now right].
    + intros (l' & H1 & H2). apply elem_of_cons in H2 as [->|H2]; eauto.
Qed.

(** A row is flagged exactly when the plan gives its slot to more than
    one row. *)
Lemma flagged_iff p i :
  i ∈ flagged (plan_usage p [])
  <-> exists m s, (i, Assigned m s) ∈ p
                  /\ (1 < List.length (assigned_labels s p))%nat.
Proof.
  unfold flagged. rewrite elem_of_concat. split.
  - intros (ids & Hi & Hids).
    apply list_elem_of_fmap in Hids as ([s ids'] & -> & Hg). simpl in Hi.
    apply list_elem_of_In, filter_In in Hg as [Hg Hbig].
    apply list_elem_of_In in Hg. apply plan_usage_entry in Hg. subst ids'.
    apply assigned_labels_elem in Hi as [m Hi].
    exists m, s. split; [done|]. unfold is_dup_group in Hbig. simpl in Hbig.
    now apply Nat.ltb_lt in Hbig.
  - intros (m & s & Hin & Hbig).
    exists (assigned_labels s p). split.
    + apply assigned_labels_elem. eauto.
    + apply list_elem_of_fmap. exists (s, assigned_labels s p). split; [reflexivity|].
      apply list_elem_of_In, filter_In. split.
      * apply list_elem_of_In.
        assert (Hget : usage_get s (plan_usage p []) = assigned_labels s p)
          by now rewrite plan_usage_get.
        rewrite <- Hget. apply usage_get_nonempty. rewrite Hget.
        intros E. rewrite E in Hbig. simpl in Hbig. lia.
      * unfold is_dup_group. simpl. now apply Nat.ltb_lt.
Qed.

(** The methods that the loops write with a slot. *)
Definition methods_ok (p : Plan) : Prop :=
  forall i m n, (i, Assigned m n) ∈ p -> m = "sku" \/ m = "sequence".

Lemma sku_plan_methods ex inc rows : methods_ok (sku_plan ex inc rows).
Proof.
  intros i m n Hin. apply list_elem_of_fmap in Hin as (x & E & _).
  unfold sku_outcome in E. injection E as _ E.
  destruct (passes ex inc (snd x)); [|discriminate].
  destruct (slot_of _); [|discriminate].
  injection E as -> _. now left.
Qed.

Lemma sequence_plan_methods ex inc cur rows :
  methods_ok (sequence_plan ex inc cur rows).
Proof.
  revert cur. induction rows as [|x rows IH]; intros cur i m n Hin; simpl in Hin.
  - now apply elem_of_nil in Hin.
  - destruct (passes ex inc (snd x));
      apply elem_of_cons in Hin as [E|Hin].
    + injection E as _ -> _. now right.
    + exact (IH _ _ _ _ Hin).
    + discriminate.
    + exact (IH _ _ _ _ Hin).
Qed.

Lemma sku_plan_labels ex inc rows :
  List.map fst (sku_plan ex inc rows) = List.map fst rows.
Proof. unfold sku_plan. rewrite List.map_map. reflexivity. Qed.

Lemma sequence_plan_labels ex inc cur rows :
  List.map fst (sequence_plan ex inc cur rows) = List.map fst rows.
Proof.
  revert cur. induction rows as [|x rows IH]; intros cur; simpl; [reflexivity|].
  destruct (passes ex inc (snd x)); simpl; now rewrite IH.
Qed.

Lemma imap_labels {B} (f : nat -> B) (l : list nat) :
  List.map fst (imap (fun p i => (i, f p)) l) = l.
Proof.
  revert f. induction l as [|i l IH]; intros f; simpl; [reflexivity|].
  f_equal. apply (IH (fun q => f (S q))).
Qed.

Lemma iterrows_labels d : List.map fst (DF.iterrows d) = df_index d.
Proof. apply (imap_labels (fun p => DF.iloc p d)). Qed.

(** ** The run of [match] *)

Lemma iterate_run {X A} (body : X -> A -> SE DataFrame A)
  (rows : DataFrame -> list X) a d :
  (rs <- gets rows ;; for_each body rs a) d = for_each body (rows d) a d.
Proof. reflexivity. Qed.

Lemma bind_run {St A B} (m : SE St A) (k : A -> SE St B) (s : St) :
  bind m k s
  = match m s with
    | (s', inr a) => k a s'
    | (s', inl e) => (s', inl e)
    end.
Proof. reflexivity. Qed.

(** The strategy that [match] runs: the mode, or in mode [auto] what
    [detect_mode] returns; the exception of [detect_mode] where it
    raises. *)
Definition resolve_mode (mode : string) (d : DataFrame) : exn + string :=
  if String.eqb mode "auto" then detect_mode d else inr mode.

Definition valid_mode (m : string) : bool :=
  String.eqb m "sku" || String.eqb m "sequence".

(** The parser returns on every identifier of the table: no cell of the
    column [sku] holds a first run of more than 4300 digits. *)
Definition parser_returns_on (d : DataFrame) : bool :=
  match DF.get_column "sku" d with
  | Some col => forallb parser_returns col
  | None => true
  end.

(** The slots that the sequence strategy can give to the rows of [d],
    from [start_slot] to [start_slot + len(df) - 1], are integers that
    [str] converts, of 4300 digits at most: the absolute value of the
    start slot and the number of rows add up to [10 ^ 4300] at most. *)
Definition within_str_limit (start_slot : Z) (d : DataFrame) : Prop :=
  Z.abs start_slot + Z.of_nat (DF.len d) <= int_str_limit.

(** The calls that reach the end of the loop of strategy [m], for the
    trimmed keywords [ex] and [inc]: the mode resolves to [m], which is a
    strategy, and the parser returns on every identifier that the
    strategy reads. *)
Definition runs_as (mode : string) (d : DataFrame) (m : string)
  (ex inc : list string) : Prop :=
  resolve_mode mode d = inr m
  /\ valid_mode m = true
  /\ (m = "sku" -> Forall (row_parses ex inc) (DF.iterrows (init_columns d))).

Lemma on_call {A} (f : DataFrame -> exn + A) (l : loc) (h : heap) d :
  h !! l = Some d -> on l (call f) h = (h, f d).
Proof.
  intros Hl. unfold on, call. rewrite Hl. f_equal. now apply list_insert_id.
Qed.

(** The identifiers that the loop reads are cells of the column [sku] of
    the input. *)
Lemma rows_parser_returns ex inc d :
  parser_returns_on d = true ->
  Forall (row_parses ex inc) (DF.iterrows (init_columns d)).
Proof.
  intros Hret. apply Forall_lookup. intros k [i row] Hk _.
  unfold DF.iterrows in Hk. rewrite list_lookup_imap in Hk.
  destruct (df_index (init_columns d) !! k); simpl in Hk; [|discriminate].
  injection Hk as _ <-. simpl.
  unfold sku_of. rewrite DFFacts.row_get_iloc, init_columns_other by reflexivity.
  unfold parser_returns_on in Hret.
  destruct (DF.get_column "sku" d) as [col|]; [|reflexivity].
  destruct (nth_in_or_default k col VNaN) as [Hin|E]; [|now rewrite E].
  rewrite forallb_forall in Hret. now apply Hret.
Qed.

Definition plan_of (m : string) (ex inc : list string) (start_slot : Z)
  (d2 : DataFrame) : Plan :=
  if String.eqb m "sku" then sku_plan ex inc (DF.iterrows d2)
  else sequence_plan ex inc start_slot (DF.iterrows d2).

(** The summary, from the plan of the loop. *)
Definition summary_of (d : DataFrame) (m : string) (start_slot : Z)
  (ex inc : list string) (p : Plan) : Summary :=
  let t := tally_plan p initial_tally in
  mkSummary (DF.len d) (matched_count t) (excluded_count t)
    (needs_review_count t + List.length (flagged (slot_usage t)))%nat
    (List.length (List.filter is_dup_group (slot_usage t)))
    m start_slot ex inc.

(** The loop and the duplicate detection, on the frame they work on. *)
Lemma annotate_run (d2 : DataFrame) (p : Plan) :
  List.map fst p = df_index d2 ->
  NoDup (df_index d2) ->
  initialised d2 ->
  methods_ok p ->
  let t := tally_plan p initial_tally in
  exists d_out,
    for_each detect_group (slot_usage t) (0%nat, needs_review_count t)
      (apply_plan p d2)
    = (d_out, inr (List.length (List.filter is_dup_group (slot_usage t)),
                   (needs_review_count t + List.length (flagged (slot_usage t)))%nat))
    /\ same_frame d2 d_out
    /\ (forall i o, (i, o) ∈ p ->
          ann_at d_out i
          = Some (if decide (i ∈ flagged (plan_usage p []))
                  then dup_ann (final_ann o) else final_ann o)).
Proof.
  intros Hlabels Hnd Hinit Hmeth t.
  assert (Hndp : NoDup (List.map fst p)) by now rewrite Hlabels.
  assert (Hann : forall i o, (i, o) ∈ p ->
                   ann_at (apply_plan p d2) i = Some (final_ann o)).
  { intros i o Hin. apply apply_plan_same; [done| |done].
    intros j Hj. apply initialised_ann_at; [done|]. now rewrite <- Hlabels. }
  assert (Hu : slot_usage t = plan_usage p []).
  { unfold t. now rewrite slot_usage_tally_plan. }
  destruct (detect_loop_run (slot_usage t) 0 (needs_review_count t) (apply_plan p d2))
    as (d_out & Hrun & Hsame & Hother & Hframe).
  - now rewrite (sf_index _ _ (apply_plan_frame p d2)).
  - rewrite Hu. now apply plan_usage_all_ids_NoDup.
  - intros i Hi. rewrite Hu in Hi. fold (all_ids (plan_usage p [])) in Hi.
    rewrite all_ids_plan_usage in Hi. simpl in Hi.
    apply assigned_rows_elem in Hi as (m & n & Hin).
    exists (final_ann (Assigned m n)). split; [now apply Hann|].
    simpl. destruct (Hmeth _ _ _ Hin) as [-> | ->]; reflexivity.
  - exists d_out. split; [exact Hrun|]. split.
    + eapply same_frame_trans; [apply apply_plan_frame|exact Hframe].
    + intros i o Hin. rewrite <- Hu. destruct (decide (i ∈ flagged (slot_usage t))) as [Hf|Hf].
      * apply Hsame; [done|]. now apply Hann.
      * rewrite Hother by done. now apply Hann.
Qed.

Section Run.

Variable to_datetime : list value -> option (list value).
Variable argsort : list value -> list nat.

(** The objects that a run allocates before the annotated table. *)
Definition scratch (m : string) (d1 : DataFrame) : list DataFrame :=
  if String.eqb m "sku" then []
  else match sort_keys to_datetime d1 with
       | Some keys => [keyed_frame keys d1]
       | None => []
       end.

Lemma match_run (h : heap) df d mode m start_slot ex inc :
  h !! df = Some d ->
  DF.empty d = false ->
  runs_as mode d m (normalize_keywords ex) (normalize_keywords inc) ->
  plan_converts
    (plan_of m (normalize_keywords ex) (normalize_keywords inc) start_slot
       (iterated_frame to_datetime argsort m (init_columns d))) ->
  NoDup (df_index (iterated_frame to_datetime argsort m (init_columns d))) ->
  initialised (iterated_frame to_datetime argsort m (init_columns d)) ->
  let d2 := iterated_frame to_datetime argsort m (init_columns d) in
  let exk := normalize_keywords ex in
  let ink := normalize_keywords inc in
  let p := plan_of m exk ink start_slot d2 in
  exists d_out,
    match_ to_datetime argsort df mode start_slot ex inc h
    = ((h ++ scratch m (init_columns d) ++ [d_out])%list,
       inr ((List.length h + List.length (scratch m (init_columns d)))%nat,
            summary_of d m start_slot exk ink p))
    /\ same_frame d2 d_out
    /\ (forall i o, (i, o) ∈ p ->
          ann_at d_out i
          = Some (if decide (i ∈ flagged (plan_usage p []))
                  then dup_ann (final_ann o) else final_ann o)).
Proof.
  intros Hl Hempty (Hres & Hvalid & Hret) Hconv Hnd Hinit d2 exk ink p.
  unfold match_. rewrite bind_run, (on_gets _ _ _ _ Hl), Hempty.
  rewrite bind_run.
  assert (Hm : (if String.eqb mode "auto" then on df (call detect_mode)
                else ret mode) h = (h, inr m)).
  { unfold resolve_mode in Hres. destruct (String.eqb mode "auto").
    - now rewrite (on_call _ _ _ _ Hl), Hres.
    - now injection Hres as ->. }
  rewrite Hm. fold (valid_mode m). rewrite Hvalid.
  change (negb true) with false. cbv iota.
  rewrite bind_run. unfold df_copy. rewrite bind_run, (on_gets _ _ _ _ Hl).
  unfold alloc.
  do 5 (rewrite bind_run, on_last; unfold modify; cbn [fst snd]).
  fold (init_columns d). set (d1 := init_columns d) in *.
  rewrite bind_run, on_last.
  change (gets DF.len d1) with (d1, @inr exn nat (DF.len d1)). cbn [fst snd].
  assert (Hlabels : List.map fst p = df_index d2).
  { unfold p, plan_of. destruct (String.eqb m "sku").
    - rewrite sku_plan_labels. apply iterrows_labels.
    - rewrite sequence_plan_labels. apply iterrows_labels. }
  assert (Hmeth : methods_ok p).
  { unfold p, plan_of. destruct (String.eqb m "sku").
    - apply sku_plan_methods.
    - apply sequence_plan_methods. }
  destruct (annotate_run d2 p Hlabels Hnd Hinit Hmeth)
    as (d_out & Hrun & Hframe & Hann).
  exists d_out. split; [|split; [exact Hframe|exact Hann]].
  rewrite bind_run.
  assert (Hloop :
    (if String.eqb m "sku"
     then t <- on (List.length h)
                 (rows <- gets DF.iterrows ;;
                  for_each (sku_row exk ink) rows initial_tally) ;;
          ret (List.length h, t)
     else df0 <- sort_by_timestamp to_datetime argsort (List.length h) ;;
          st <- on df0
                  (rows <- gets DF.iterrows ;;
                   for_each (sequence_row exk ink) rows
                     (initial_tally, start_slot)) ;;
          ret (df0, fst st)) (h ++ [d1])%list
    = ((h ++ scratch m d1 ++ [apply_plan p d2])%list,
       inr ((List.length h + List.length (scratch m d1))%nat,
            tally_plan p initial_tally))).
  { fold exk ink in Hconv. unfold plan_of, iterated_frame in Hconv.
    unfold p, plan_of, d2, iterated_frame, scratch.
    destruct (String.eqb m "sku") eqn:Hsku.
    - rewrite bind_run, on_last, iterate_run, sku_loop_run.
      + cbn [fst snd]. unfold ret. now rewrite Nat.add_0_r.
      + apply Hret. now apply String.eqb_eq.
      + exact Hconv.
    - rewrite bind_run, sort_by_timestamp_run.
      destruct (sort_keys to_datetime d1) as [keys|].
      + rewrite bind_run, on_last2, iterate_run, sequence_loop_run by exact Hconv.
        cbn [fst snd]. unfold ret. simpl. now rewrite Nat.add_1_r.
      + rewrite bind_run, on_last, iterate_run, sequence_loop_run by exact Hconv.
        cbn [fst snd]. unfold ret. simpl. now rewrite Nat.add_0_r. }
  fold exk ink. rewrite Hloop. cbn [fst snd].
  rewrite bind_run.
  replace (h ++ scratch m d1 ++ [apply_plan p d2])%list
    with ((h ++ scratch m d1) ++ [apply_plan p d2])%list
    by now rewrite <- app_assoc.
  rewrite <- length_app, on_last, Hrun. cbn [fst snd]. unfold ret.
  rewrite <- app_assoc. reflexivity.
Qed.

End Run.

(** ** The iterated frame and the input table *)

(** The row of the table with label [i], as [iterrows] would yield it. *)
Definition row_of (d : DataFrame) (i : nat) : Row :=
  match DF.get_loc i (df_index d) with
  | Some p => DF.iloc p d
  | None => []
  end.

(** Two rows that the engine cannot tell apart: it reads the fields
    [product name] and [sku] only. *)
Definition same_inputs (r r' : Row) : Prop :=
  DF.row_get r "product name" (VStr "") = DF.row_get r' "product name" (VStr "")
  /\ DF.row_get r "sku" VNone = DF.row_get r' "sku" VNone.

Lemma same_inputs_exclude r r' ex :
  same_inputs r r' -> should_exclude_row r ex = should_exclude_row r' ex.
Proof.
  intros [H _]. unfold should_exclude_row, product_name_of. now rewrite H.
Qed.

Lemma same_inputs_include r r' inc :
  same_inputs r r' -> should_include_row r inc = should_include_row r' inc.
Proof.
  intros [H _]. unfold should_include_row, product_name_of. now rewrite H.
Qed.

Lemma same_inputs_passes r r' ex inc :
  same_inputs r r' -> passes ex inc r = passes ex inc r'.
Proof.
  intros H. unfold passes.
  now rewrite (same_inputs_exclude _ _ ex H), (same_inputs_include _ _ inc H).
Qed.

Lemma same_inputs_sku_outcome r r' ex inc :
  same_inputs r r' -> sku_outcome ex inc r = sku_outcome ex inc r'.
Proof.
  intros H. unfold sku_outcome, sku_of. rewrite (same_inputs_passes _ _ ex inc H).
  destruct H as [_ H]. now rewrite H.
Qed.

Lemma map_nth_seq {A} (l : list A) (dflt : A) :
  List.map (fun p => nth p l dflt) (seq 0 (List.length l)) = l.
Proof.
  induction l as [|x l IH]; simpl; [reflexivity|].
  f_equal. rewrite <- seq_shift, List.map_map. exact IH.
Qed.

Lemma iterrows_lookup d k i row :
  DF.iterrows d !! k = Some (i, row) ->
  df_index d !! k = Some i /\ row = DF.iloc k d.
Proof.
  unfold DF.iterrows. rewrite list_lookup_imap.
  destruct (df_index d !! k) as [j|]; simpl; [|discriminate].
  intros [= <- <-]. auto.
Qed.

Lemma lookup_nth {A} (l : list A) k x dflt :
  l !! k = Some x -> nth k l dflt = x.
Proof.
  revert k. induction l as [|y l IH]; intros [|k]; simpl; try discriminate.
  - now intros [= ->].
  - apply IH.
Qed.

Section Frames.

Variable to_datetime : list value -> option (list value).
Variable argsort : list value -> list nat.
Hypothesis argsort_perm :
  forall keys, Permutation (argsort keys) (seq 0 (List.length keys)).

Lemma key_column_length keys d :
  List.length (key_column keys d) = DF.len d.
Proof. unfold key_column. now rewrite length_map, length_seq. Qed.

Lemma argsort_bound keys d q :
  q ∈ argsort (key_column keys d) -> (q < DF.len d)%nat.
Proof.
  intros Hq. rewrite argsort_perm, key_column_length in Hq.
  apply list_elem_of_In, in_seq in Hq. lia.
Qed.

Lemma sorted_frame_index keys d :
  Permutation (df_index (sorted_frame argsort keys d)) (df_index d).
Proof.
  unfold sorted_frame, DF.take. simpl.
  rewrite (Permutation_map _ (argsort_perm _)), key_column_length.
  unfold DF.len. now rewrite map_nth_seq.
Qed.

Lemma iterated_frame_index m d1 :
  Permutation (df_index (iterated_frame to_datetime argsort m d1)) (df_index d1).
Proof.
  unfold iterated_frame. destruct (String.eqb m "sku"); [reflexivity|].
  destruct (sort_keys to_datetime d1); [apply sorted_frame_index|reflexivity].
Qed.

Lemma iterated_frame_initialised m d1 :
  initialised d1 -> initialised (iterated_frame to_datetime argsort m d1).
Proof.
  intros H. unfold iterated_frame. destruct (String.eqb m "sku"); [done|].
  destruct (sort_keys to_datetime d1) as [keys|]; [|done].
  unfold sorted_frame. apply initialised_take.
  - intros q Hq. apply (argsort_bound _ _ _ Hq).
  - now apply initialised_set_series.
Qed.

(** The rows that the loop iterates are the rows of the input table,
    as far as the engine reads them. *)
Lemma iterated_rows m d k i row :
  NoDup (df_index d) ->
  DF.iterrows (iterated_frame to_datetime argsort m (init_columns d)) !! k
  = Some (i, row) ->
  i ∈ df_index d /\ same_inputs row (row_of d i).
Proof.
  intros Hnd Hk. apply iterrows_lookup in Hk as [Hi ->].
  assert (Hin : i ∈ df_index d).
  { rewrite <- (init_columns_index d), <- (iterated_frame_index m).
    apply list_elem_of_lookup. eauto. }
  split; [exact Hin|].
  assert (Hcell : forall c dflt,
             is_annotation c = false -> c <> "_sort_key" ->
             DF.row_get (DF.iloc k (iterated_frame to_datetime argsort m (init_columns d))) c dflt
             = DF.row_get (row_of d i) c dflt).
  { intros c dflt Hc Hs. unfold row_of.
    destruct (DFFacts.get_loc_elem _ _ Hin) as [q Hq]. rewrite Hq.
    rewrite !DFFacts.row_get_iloc.
    revert Hi. unfold iterated_frame.
    destruct (String.eqb m "sku").
    - rewrite init_columns_index, init_columns_other by done. intros Hi.
      rewrite (DFFacts.get_loc_NoDup _ _ _ Hnd Hi) in Hq. now injection Hq as ->.
    - destruct (sort_keys to_datetime (init_columns d)) as [keys|].
      + unfold sorted_frame. rewrite DFFacts.get_column_take.
        unfold keyed_frame. rewrite DFFacts.get_column_set_series.
        rewrite decide_False by congruence.
        rewrite init_columns_other by done.
        unfold DF.take. simpl. rewrite list_lookup_fmap.
        destruct (argsort _ !! k) as [q'|] eqn:Hq'; simpl; [|discriminate].
        intros [= Hi].
        assert (Hb : (q' < DF.len (init_columns d))%nat).
        { apply (argsort_bound keys). apply list_elem_of_lookup. eauto. }
        assert (Hiq : df_index d !! q' = Some i).
        { destruct (lookup_lt_is_Some_2 (df_index d) q' Hb) as [j Hj].
          rewrite Hj. f_equal. rewrite <- Hi. symmetry. now apply lookup_nth. }
        rewrite (DFFacts.get_loc_NoDup _ _ _ Hnd Hiq) in Hq. injection Hq as ->.
        destruct (DF.get_column c d) as [data|]; simpl; [|reflexivity].
        apply lookup_nth. rewrite list_lookup_fmap, Hq'. reflexivity.
      + rewrite init_columns_index, init_columns_other by done. intros Hi.
        rewrite (DFFacts.get_loc_NoDup _ _ _ Hnd Hi) in Hq. now injection Hq as ->. }
  split; apply Hcell; (reflexivity || discriminate).
Qed.

End Frames.

(** ** Reading the annotated table *)

Lemma at_get_index i c d v : DF.at_get i c d = Some v -> i ∈ df_index d.
Proof.
  unfold DF.at_get. destruct (DF.get_loc i (df_index d)) as [p|] eqn:Hp; [|discriminate].
  intros _. apply list_elem_of_lookup. exists p. now apply DFFacts.get_loc_lookup.
Qed.

(** With distinct labels, the cell of a label is the cell of its position. *)
Lemma at_get_position d c data k i :
  NoDup (df_index d) -> DF.get_column c d = Some data ->
  df_index d !! k = Some i -> DF.at_get i c d = data !! k.
Proof.
  intros Hnd Hc Hk. unfold DF.at_get.
  now rewrite (DFFacts.get_loc_NoDup _ _ _ Hnd Hk), Hc.
Qed.

Lemma plan_lookup_label (p : Plan) (index : list nat) k i o :
  List.map fst p = index -> p !! k = Some (i, o) -> index !! k = Some i.
Proof. intros <- Hk. now rewrite list_lookup_fmap, Hk. Qed.

(** The values that [f] selects from a list, in order. *)
Fixpoint choose {A B : Type} (f : A -> option B) (l : list A) : list B :=
  match l with
  | [] => []
  | x :: l' =>
      match f x with
      | Some y => y :: choose f l'
      | None => choose f l'
      end
  end.

(** The slots that a table carries, in row order: the cells of [slot]
    that hold a number. *)
Definition slot_of_cell (v : value) : option Z :=
  match v with
  | VInt z => Some z
  | _ => None
  end.

Definition assigned_slots (d : DataFrame) : list Z :=
  match DF.get_column "slot" d with
  | Some cells => choose slot_of_cell cells
  | None => []
  end.

Definition plan_slots (p : Plan) : list Z :=
  choose (fun io => slot_of_cell (a_slot (final_ann (snd io)))) p.

(** The annotations that a run leaves, row by row. *)
Definition annotated (p : Plan) (d_out : DataFrame) : Prop :=
  forall i o, (i, o) ∈ p ->
    ann_at d_out i
    = Some (if decide (i ∈ flagged (plan_usage p []))
            then dup_ann (final_ann o) else final_ann o).

Lemma annotated_slot_column p d2 d_out :
  List.map fst p = df_index d2 -> NoDup (df_index d2) -> initialised d2 ->
  same_frame d2 d_out -> annotated p d_out ->
  DF.get_column "slot" d_out
  = Some (List.map (fun io => a_slot (final_ann (snd io))) p).
Proof.
  intros Hlabels Hnd Hinit Hframe Hann.
  destruct (sf_length _ _ Hframe _ _ (in_slot _ Hinit)) as (data & Hdata & Hlen).
  rewrite Hdata. f_equal. apply list_eq. intros k.
  rewrite list_lookup_fmap.
  destruct (p !! k) as [[i o]|] eqn:Hk; simpl.
  - pose proof (plan_lookup_label _ _ _ _ _ Hlabels Hk) as Hi.
    rewrite <- (sf_index _ _ Hframe) in Hi, Hnd.
    rewrite <- (at_get_position _ _ _ _ _ Hnd Hdata Hi).
    assert (Hin : (i, o) ∈ p) by (apply list_elem_of_lookup; eauto).
    destruct (ann_at_inv _ _ _ (Hann _ _ Hin)) as (Hs & _). rewrite Hs.
    now destruct (decide _).
  - apply lookup_ge_None. apply lookup_ge_None in Hk.
    rewrite Hlen, repeat_length. unfold DF.len.
    rewrite <- Hlabels, length_map. exact Hk.
Qed.

Lemma choose_map {A B C} (f : B -> option C) (g : A -> B) (l : list A) :
  choose f (List.map g l) = choose (fun x => f (g x)) l.
Proof.
  induction l as [|x l IH]; simpl; [reflexivity|].
  destruct (f (g x)); simpl; now rewrite IH.
Qed.

Lemma annotated_assigned_slots p d2 d_out :
  List.map fst p = df_index d2 -> NoDup (df_index d2) -> initialised d2 ->
  same_frame d2 d_out -> annotated p d_out ->
  assigned_slots d_out = plan_slots p.
Proof.
  intros Hlabels Hnd Hinit Hframe Hann. unfold assigned_slots, plan_slots.
  rewrite (annotated_slot_column p d2 d_out) by assumption.
  apply choose_map.
Qed.

(** ** Counting the outcomes of a plan *)

Definition is_excluded (io : nat * outcome) : bool :=
  match snd io with Excluded => true | _ => false end.

Definition is_manual (io : nat * outcome) : bool :=
  match snd io with Manual => true | _ => false end.

Lemma tally_plan_counts p t :
  matched_count (tally_plan p t)
  = (matched_count t + List.length (List.filter is_assignment p))%nat
  /\ excluded_count (tally_plan p t)
     = (excluded_count t + List.length (List.filter is_excluded p))%nat
  /\ needs_review_count (tally_plan p t)
     = (needs_review_count t + List.length (List.filter is_manual p))%nat.
Proof.
  revert t. induction p as [|[i o] p IH]; intros t; simpl.
  - now rewrite !Nat.add_0_r.
  - unfold tally_plan in *. simpl.
    destruct (IH (tally_step i o t)) as (H1 & H2 & H3).
    rewrite H1, H2, H3.
    destruct o; unfold is_assignment, is_excluded, is_manual; simpl; lia.
Qed.

(** The rows of a list that pass the filter. *)
Definition passing (ex inc : list string) (rows : list (nat * Row))
  : list (nat * Row) :=
  List.filter (fun x => passes ex inc (snd x)) rows.


(** The slots of the sequence strategy, in processing order, count up
    from the start value. *)
Lemma sequence_plan_slots ex inc cur rows :
  plan_slots (sequence_plan ex inc cur rows)
  = List.map (fun k => cur + Z.of_nat k)
      (seq 0 (List.length (passing ex inc rows))).
Proof.
  unfold plan_slots. revert cur.
  induction rows as [|x rows IH]; intros cur; simpl; [reflexivity|].
  destruct (passes ex inc (snd x)); simpl.
  - rewrite IH. f_equal; [lia|].
    rewrite <- seq_shift, List.map_map. apply List.map_ext. intros k. lia.
  - apply IH.
Qed.

Lemma filter_length_ext {A} (f g : A -> bool) (l : list A) :
  (forall x, x ∈ l -> f x = g x) ->
  List.length (List.filter f l) = List.length (List.filter g l).
Proof.
  induction l as [|x l IH]; intros H; simpl; [reflexivity|].
  rewrite (H x) by left.
  assert (E : List.length (List.filter f l) = List.length (List.filter g l))
    by (apply IH; intros y Hy; apply H; now right).
  destruct (g x); simpl; now rewrite E.
Qed.

Lemma filter_length_map {A B} (f : B -> bool) (g : A -> B) (l : list A) :
  List.length (List.filter f (List.map g l))
  = List.length (List.filter (fun x => f (g x)) l).
Proof.
  induction l as [|x l IH]; simpl; [reflexivity|].
  destruct (f (g x)); simpl; now rewrite IH.
Qed.


(** ** An instance of the pandas routines *)

Module Sample.

(** The timestamps of the strings that the tests of the repository
    parse, as nanoseconds since the epoch with their rendering. *)
Definition known_timestamps : list (string * value) :=
  [("2024-01-01 10:00", VTime 1704103200000000000 "2024-01-01 10:00:00");
   ("2024-01-02 10:00", VTime 1704189600000000000 "2024-01-02 10:00:00");
   ("2024-01-03 10:00", VTime 1704276000000000000 "2024-01-03 10:00:00")].

(** [pd.to_datetime(column, errors='coerce')] on those strings; a cell
    it does not know is coerced to NaT. *)
Definition to_datetime (col : list value) : option (list value) :=
  Some (List.map (fun v =>
                    match v with
                    | VTime _ _ => v
                    | VStr s => match DF.assoc s known_timestamps with
                                | Some t => t
                                | None => VNaT
                                end
                    | _ => VNaT
                    end) col).

(** The order of [sort_values]: ascending timestamps, NaT last. *)
Definition key_le (a b : value) : bool :=
  match a, b with
  | VTime x _, VTime y _ => x <=? y
  | VTime _ _, _ => true
  | _, VTime _ _ => false
  | _, _ => true
  end.

Fixpoint insert_position (keys : list value) (p : nat) (l : list nat)
  : list nat :=
  match l with
  | [] => [p]
  | q :: l' =>
      if key_le (nth q keys VNaT) (nth p keys VNaT)
      then q :: insert_position keys p l'
      else p :: q :: l'
  end.

(** A stable sort of the positions by their keys. *)
Definition argsort (keys : list value) : list nat :=
  fold_left (fun acc p => insert_position keys p acc)
    (seq 0 (List.length keys)) [].

Lemma insert_position_perm keys p l :
  Permutation (insert_position keys p l) (p :: l).
Proof.
  induction l as [|q l IH]; simpl; [reflexivity|].
  destruct (key_le _ _); [|reflexivity].
  rewrite IH. apply perm_swap.
Qed.

Lemma argsort_perm keys :
  Permutation (argsort keys) (seq 0 (List.length keys)).
Proof.
  unfold argsort.
  assert (H : forall l acc,
             Permutation (fold_left (fun acc p => insert_position keys p acc) l acc)
               (acc ++ l)).
  { induction l as [|p l IH]; intros acc; simpl.
    - now rewrite app_nil_r.
    - rewrite IH, insert_position_perm. simpl. apply Permutation_middle. }
  apply (H _ []).
Qed.

End Sample.

(** ** Outcomes, row by row *)

(** What the loop of mode [m] decides for a row. *)
Definition outcome_for (m : string) (ex inc : list string) (row : Row)
  (o : outcome) : Prop :=
  if passes ex inc row then
    if String.eqb m "sku" then o = sku_outcome ex inc row
    else exists n, o = Assigned "sequence" n
  else o = Excluded.

Lemma sku_plan_outcome ex inc rows i o :
  (i, o) ∈ sku_plan ex inc rows ->
  exists row, (i, row) ∈ rows /\ o = sku_outcome ex inc row.
Proof.
  intros Hin. apply list_elem_of_fmap in Hin as ([j row] & [= -> ->] & Hin).
  eauto.
Qed.

Lemma sequence_plan_outcome ex inc cur rows i o :
  (i, o) ∈ sequence_plan ex inc cur rows ->
  exists row, (i, row) ∈ rows
              /\ if passes ex inc row then exists n, o = Assigned "sequence" n
                 else o = Excluded.
Proof.
  revert cur. induction rows as [|[j row] rows IH]; intros cur Hin; simpl in Hin.
  - now apply elem_of_nil in Hin.
  - destruct (passes ex inc row) eqn:Hp; simpl in Hin;
      apply elem_of_cons in Hin as [[= -> ->]|Hin].
    + exists row. split; [left|]. rewrite Hp. eauto.
    + destruct (IH _ Hin) as (row' & H1 & H2). exists row'. split; [now right|done].
    + exists row. split; [left|]. now rewrite Hp.
    + destruct (IH _ Hin) as (row' & H1 & H2). exists row'. split; [now right|done].
Qed.

Lemma plan_of_outcome m ex inc start_slot d2 i o :
  (i, o) ∈ plan_of m ex inc start_slot d2 ->
  exists row, (i, row) ∈ DF.iterrows d2 /\ outcome_for m ex inc row o.
Proof.
  unfold plan_of, outcome_for. destruct (String.eqb m "sku"); intros Hin.
  - destruct (sku_plan_outcome _ _ _ _ _ Hin) as (row & H1 & ->).
    exists row. split; [done|]. unfold sku_outcome.
    now destruct (passes ex inc row).
  - destruct (sequence_plan_outcome _ _ _ _ _ _ Hin) as (row & H1 & H2). eauto.
Qed.

Lemma outcome_for_same_inputs m ex inc r r' o :
  same_inputs r r' -> outcome_for m ex inc r o -> outcome_for m ex inc r' o.
Proof.
  intros H. unfold outcome_for.
  rewrite (same_inputs_passes _ _ ex inc H), (same_inputs_sku_outcome _ _ ex inc H).
  auto.
Qed.


(** ** Counting the slots given to more than one row *)

(** The distinct slot numbers that occur more than once in a list. *)
Definition over_assigned (slots : list Z) : list Z :=
  List.filter (fun s => (1 <? count_occ Z.eq_dec slots s)%nat)
    (nodup Z.eq_dec slots).

Lemma count_occ_plan_slots p s :
  count_occ Z.eq_dec (plan_slots p) s = List.length (assigned_labels s p).
Proof.
  unfold plan_slots, assigned_labels, is_assigned.
  induction p as [|[i o] p IH]; simpl; [reflexivity|].
  destruct o as [| |m n]; simpl; try exact IH.
  destruct (Z.eq_dec n s) as [->|Hne].
  - rewrite Z.eqb_refl. simpl. now rewrite IH.
  - destruct (Z.eqb_spec n s); [congruence|exact IH].
Qed.

Lemma NoDup_keys_filter {A} (f : Z * A -> bool) (u : list (Z * A)) :
  NoDup (List.map fst u) -> NoDup (List.map fst (List.filter f u)).
Proof.
  induction u as [|g u IH]; simpl; intros Hnd; [done|].
  apply NoDup_cons in Hnd as [Hg Hnd].
  destruct (f g); simpl; [|auto].
  apply NoDup_cons. split; [|auto].
  intros Hin. apply Hg. apply list_elem_of_fmap in Hin as (x & -> & Hx).
  apply list_elem_of_fmap. exists x. split; [reflexivity|].
  apply list_elem_of_In, filter_In in Hx as [Hx _]. now apply list_elem_of_In.
Qed.

(** The groups that duplicate detection counts are the distinct slot
    numbers that the plan gives to more than one row. *)
Lemma dup_groups_count p :
  List.length (List.filter is_dup_group (plan_usage p []))
  = List.length (over_assigned (plan_slots p)).
Proof.
  rewrite <- (length_map fst (List.filter is_dup_group (plan_usage p []))).
  apply Permutation_length. apply NoDup_Permutation.
  - apply NoDup_keys_filter. apply plan_usage_NoDup. apply NoDup_nil_2.
  - unfold over_assigned. apply NoDup_ListNoDup. apply List.NoDup_filter.
    apply List.NoDup_nodup.
  - intros s. unfold over_assigned.
    rewrite list_elem_of_fmap, (list_elem_of_In _ s), filter_In, nodup_In.
    rewrite count_occ_plan_slots. split.
    + intros ([s' ids] & -> & Hin). simpl.
      apply list_elem_of_In, filter_In in Hin as [Hin Hbig].
      apply list_elem_of_In in Hin. apply plan_usage_entry in Hin. subst ids.
      unfold is_dup_group in Hbig. simpl in Hbig.
      split; [|exact Hbig].
      apply (count_occ_In Z.eq_dec). rewrite count_occ_plan_slots.
      apply Nat.ltb_lt in Hbig. lia.
    + intros [_ Hbig]. exists (s, assigned_labels s p). split; [reflexivity|].
      apply list_elem_of_In, filter_In. split; [|exact Hbig].
      apply list_elem_of_In.
      assert (Hget : usage_get s (plan_usage p []) = assigned_labels s p)
        by now rewrite plan_usage_get.
      rewrite <- Hget. apply usage_get_nonempty. rewrite Hget.
      intros E. rewrite E in Hbig. discriminate.
Qed.

(** ** Substrings, case and trimming *)

Module StrFacts.
Import Str.

Lemma prefix_spec k s :
  String.prefix k s = true <-> exists post, s = k ++ post.
Proof.
  revert s. induction k as [|c k IH]; intros s; simpl.
  - split; [eauto|]. intros _. now destruct s.
  - destruct s as [|c' s]; simpl.
    + split; [discriminate|]. intros [post H]. discriminate.
    + destruct (Ascii.ascii_dec c c') as [->|Hne].
      * rewrite IH. split; intros [post H]; exists post; simpl in *; congruence.
      * split; [discriminate|]. intros [post H]. simpl in H. congruence.
Qed.

(** [contains k s] holds exactly when [k] is a contiguous part of [s]. *)
Lemma contains_spec k s :
  contains k s = true <-> exists pre post, s = pre ++ k ++ post.
Proof.
  induction s as [|c s IH].
  - change (contains k "") with (String.prefix k "" || false).
    rewrite orb_false_r, prefix_spec. split.
    + intros [post H]. exists "", post. exact H.
    + intros (pre & post & H). destruct pre; simpl in H; [eauto|discriminate].
  - change (contains k (String c s))
      with (String.prefix k (String c s) || contains k s).
    rewrite orb_true_iff, prefix_spec, IH. split.
    + intros [[post H]|(pre & post & H)].
      * exists "", post. exact H.
      * exists (String c pre), post. simpl. now rewrite H.
    + intros (pre & post & H). destruct pre as [|c' pre]; simpl in H.
      * left. eauto.
      * right. injection H as -> H. eauto.
Qed.

Lemma append_assoc (a b c : string) : (a ++ b) ++ c = a ++ b ++ c.
Proof. induction a as [|x a IH]; simpl; [reflexivity|now rewrite IH]. Qed.


Lemma lstrip_suffix s : exists a, s = a ++ lstrip s.
Proof.
  induction s as [|c s [a IH]]; simpl; [now exists ""|].
  destruct (is_space c); [|now exists ""].
  exists (String c a). simpl. now rewrite <- IH.
Qed.

Lemma rstrip_prefix s : exists b, s = rstrip s ++ b.
Proof.
  induction s as [|c s [b IH]]; simpl; [now exists ""|].
  destruct (rstrip s) as [|c' r] eqn:E.
  - simpl in IH. destruct (is_space c).
    + exists (String c s). reflexivity.
    + exists b. simpl. now rewrite <- IH.
  - exists b. simpl. simpl in IH. now rewrite <- IH.
Qed.

(** The trimmed string is a contiguous part of the string. *)
Lemma strip_part s : exists a b, s = a ++ strip s ++ b.
Proof.
  destruct (lstrip_suffix s) as [a Ha].
  destruct (rstrip_prefix (lstrip s)) as [b Hb].
  exists a, b. unfold strip. now rewrite <- Hb.
Qed.


End StrFacts.

Lemma any_keyword_in_spec keywords name :
  any_keyword_in keywords name = true
  <-> exists k, k ∈ keywords /\ Str.contains (Str.lower k) name = true.
Proof.
  induction keywords as [|k0 keywords IH]; simpl.
  - split; [discriminate|]. intros (k & Hk & _). now apply elem_of_nil in Hk.
  - destruct (Str.contains (Str.lower k0) name) eqn:E.
    + split; [|reflexivity]. intros _. exists k0. split; [left|done].
    + rewrite IH. split.
      * intros (k & Hk & Hc). exists k. split; [now right|done].
      * intros (k & Hk & Hc). apply elem_of_cons in Hk as [->|Hk]; [congruence|eauto].
Qed.

(** The text field of a row, as the filter reads it. *)
Definition text_of (row : Row) : string :=
  py_str (DF.row_get row "product name" (VStr "")).

(** [k] is part of [t] when case is ignored. *)
Definition part_ignoring_case (k t : string) : Prop :=
  exists pre post, Str.lower t = pre ++ Str.lower k ++ post.

Lemma should_exclude_row_spec row keywords :
  should_exclude_row row keywords = true
  <-> exists k, k ∈ keywords /\ part_ignoring_case k (text_of row).
Proof.
  unfold should_exclude_row, product_name_of, part_ignoring_case.
  fold (text_of row).
  assert (H : any_keyword_in keywords (Str.lower (text_of row)) = true
              <-> exists k, k ∈ keywords
                            /\ exists pre post, Str.lower (text_of row)
                                                = pre ++ Str.lower k ++ post).
  { rewrite any_keyword_in_spec. split; intros (k & Hk & Hc); exists k;
      (split; [done|]); now apply StrFacts.contains_spec. }
  destruct keywords as [|k0 keywords]; [|exact H].
  split; [discriminate|]. intros (k & Hk & _). now apply elem_of_nil in Hk.
Qed.

Lemma should_include_row_spec row keywords :
  should_include_row row keywords = true
  <-> keywords = [] \/ exists k, k ∈ keywords /\ part_ignoring_case k (text_of row).
Proof.
  unfold should_include_row, product_name_of, part_ignoring_case.
  fold (text_of row).
  destruct keywords as [|k0 keywords]; [tauto|].
  rewrite any_keyword_in_spec. split.
  - intros (k & Hk & Hc). right. exists k. split; [done|].
    now apply StrFacts.contains_spec.
  - intros [H|(k & Hk & Hc)]; [discriminate|]. exists k. split; [done|].
    now apply StrFacts.contains_spec.
Qed.

Lemma NoDup_fst_unique {A B} (l : list (A * B)) x y y' :
  NoDup (List.map fst l) -> (x, y) ∈ l -> (x, y') ∈ l -> y = y'.
Proof.
  induction l as [|[a b] l IH]; simpl; intros Hnd H1 H2.
  - now apply elem_of_nil in H1.
  - apply NoDup_cons in Hnd as [Ha Hnd].
    apply elem_of_cons in H1 as [E1|H1]; apply elem_of_cons in H2 as [E2|H2].
    + congruence.
    + injection E1 as -> ->. exfalso. apply Ha.
      apply list_elem_of_fmap. now exists (a, y').
    + injection E2 as -> ->. exfalso. apply Ha.
      apply list_elem_of_fmap. now exists (a, y).
    + auto.
Qed.

(** ** The columns of the annotated table *)

Lemma columns_set_scalar c v d :
  DF.columns (DF.set_scalar c v d)
  = if DF.has_column c d then DF.columns d else (DF.columns d ++ [c])%list.
Proof.
  unfold DF.columns, DF.set_scalar, DF.has_column, DF.get_column. simpl.
  rewrite DFFacts.assoc_set_names. now destruct (DF.assoc c (df_columns d)).
Qed.

Lemma columns_set_series c data d :
  DF.columns (DF.set_series c data d)
  = if DF.has_column c d then DF.columns d else (DF.columns d ++ [c])%list.
Proof.
  unfold DF.columns, DF.set_series, DF.has_column, DF.get_column. simpl.
  rewrite DFFacts.assoc_set_names. now destruct (DF.assoc c (df_columns d)).
Qed.

Lemma columns_take perm d : DF.columns (DF.take perm d) = DF.columns d.
Proof. unfold DF.columns, DF.take. simpl. now rewrite List.map_map. Qed.

Lemma has_column_set_scalar c v c' d :
  c <> c' -> DF.has_column c' (DF.set_scalar c v d) = DF.has_column c' d.
Proof.
  intros Hne. unfold DF.has_column.
  now rewrite DFFacts.get_column_set_scalar, decide_False.
Qed.

(** No column of the table bears the name of an annotation. *)
Definition no_annotation_column (d : DataFrame) : Prop :=
  forall c, is_annotation c = true -> DF.has_column c d = false.

(** On such a table the initialisation appends the five annotation
    columns, in order. *)
Lemma columns_init_columns d :
  no_annotation_column d ->
  DF.columns (init_columns d) = (DF.columns d ++ annotation_columns)%list.
Proof.
  intros H. unfold init_columns.
  rewrite columns_set_scalar, !has_column_set_scalar by discriminate.
  rewrite (H "review_reason" eq_refl).
  rewrite columns_set_scalar, !has_column_set_scalar by discriminate.
  rewrite (H "needs_review" eq_refl).
  rewrite columns_set_scalar, !has_column_set_scalar by discriminate.
  rewrite (H "match_method" eq_refl).
  rewrite columns_set_scalar, !has_column_set_scalar by discriminate.
  rewrite (H "matched_item_label" eq_refl).
  rewrite columns_set_scalar, (H "slot" eq_refl).
  rewrite <- !app_assoc. reflexivity.
Qed.

(** ** The first run of digits *)

(** Modelled from the words of the specification: [r] is the first
    maximal run of decimal digits of [s].  No digit stands before it, it
    is not empty, it holds digits only, and what follows it does not
    start with a digit. *)
Definition first_digit_run (s r : string) : Prop :=
  exists pre post,
    s = pre ++ r ++ post
    /\ Str.no_digit pre = true
    /\ r <> ""
    /\ Str.all_chars Str.is_digit r = true
    /\ match post with
       | EmptyString => True
       | String c _ => Str.is_digit c = false
       end.

Module DigitFacts.
Import Str.

Lemma digit_not_space c : is_digit c = true -> is_space c = false.
Proof.
  destruct c as [[] [] [] [] [] [] [] []]; vm_compute; congruence.
Qed.

(** A string splits into its leading digits and a rest that does not
    start with a digit. *)
Lemma take_digits_split s :
  exists post,
    s = take_digits s ++ post
    /\ all_chars is_digit (take_digits s) = true
    /\ match post with
       | EmptyString => True
       | String c _ => is_digit c = false
       end.
Proof.
  induction s as [|c s (post & H1 & H2 & H3)]; simpl.
  - exists "". auto.
  - destruct (is_digit c) eqn:E.
    + exists post. simpl. rewrite E, H2. split; [now rewrite <- H1|auto].
    + exists (String c s). simpl. auto.
Qed.

Lemma take_digits_run r post :
  all_chars is_digit r = true ->
  match post with
  | EmptyString => True
  | String c _ => is_digit c = false
  end ->
  take_digits (r ++ post) = r.
Proof.
  intros Hr Hpost. induction r as [|c r IH]; simpl in *.
  - destruct post as [|c post]; simpl; [reflexivity|now rewrite Hpost].
  - apply andb_true_iff in Hr as [Hc Hr]. now rewrite Hc, IH.
Qed.

(** The search of the regular expression finds the first maximal run. *)
Lemma re_search_digits_run s r :
  re_search_digits s = Some r <-> first_digit_run s r.
Proof.
  split.
  - revert r. induction s as [|c s IH]; intros r; simpl; [discriminate|].
    destruct (is_digit c) eqn:E.
    + intros [= <-].
      destruct (take_digits_split s) as (post & H1 & H2 & H3).
      exists "", post. simpl. rewrite E, H2.
      split; [now rewrite <- H1|]. split; [reflexivity|].
      split; [discriminate|]. split; [reflexivity|exact H3].
    + intros H. destruct (IH _ H) as (pre & post & H1 & H2 & H3 & H4 & H5).
      exists (String c pre), post. unfold no_digit in *. simpl. rewrite E, H2.
      split; [now rewrite H1|]. split; [reflexivity|].
      split; [exact H3|]. split; [exact H4|exact H5].
  - intros (pre & post & -> & Hpre & Hr & Hd & Hpost).
    unfold no_digit in Hpre.
    induction pre as [|c pre IH]; simpl in *.
    + destruct r as [|c r]; [congruence|]. simpl in *.
      apply andb_true_iff in Hd as [Hc Hd]. rewrite Hc.
      now rewrite take_digits_run.
    + apply andb_true_iff in Hpre as [Hc Hpre].
      apply negb_true_iff in Hc. rewrite Hc. now apply IH.
Qed.

(** The search fails exactly on the strings without a digit. *)
Lemma re_search_digits_none s :
  re_search_digits s = None <-> no_digit s = true.
Proof.
  unfold no_digit. induction s as [|c s IH]; simpl; [tauto|].
  destruct (is_digit c); simpl; [split; discriminate|exact IH].
Qed.

Lemma re_search_lstrip s : re_search_digits (lstrip s) = re_search_digits s.
Proof.
  induction s as [|c s IH]; simpl; [reflexivity|].
  destruct (is_space c) eqn:E; [|reflexivity].
  rewrite IH. destruct (is_digit c) eqn:D; [|reflexivity].
  apply digit_not_space in D. congruence.
Qed.

Lemma take_digits_rstrip s : take_digits (rstrip s) = take_digits s.
Proof.
  induction s as [|c s IH]; simpl; [reflexivity|].
  destruct (is_digit c) eqn:D.
  - rewrite (digit_not_space _ D).
    destruct (rstrip s) as [|c' r]; simpl in *; rewrite D; now rewrite <- IH.
  - destruct (rstrip s) as [|c' r]; simpl; [|now rewrite D].
    destruct (is_space c); simpl; [reflexivity|now rewrite D].
Qed.

Lemma re_search_rstrip s : re_search_digits (rstrip s) = re_search_digits s.
Proof.
  induction s as [|c s IH]; simpl; [reflexivity|].
  destruct (is_digit c) eqn:D.
  - rewrite (digit_not_space _ D).
    pose proof (take_digits_rstrip s) as T.
    destruct (rstrip s) as [|c' r]; simpl in *; rewrite D; now rewrite <- T.
  - destruct (rstrip s) as [|c' r]; simpl in *; [|now rewrite D].
    destruct (is_space c); simpl; [exact IH|now rewrite D].
Qed.

(** Trimming changes nothing for the search: white space is no digit. *)
Lemma re_search_strip s : re_search_digits (strip s) = re_search_digits s.
Proof. unfold strip. now rewrite re_search_rstrip, re_search_lstrip. Qed.

End DigitFacts.

(** [int(match.group())], as the parser returns or raises it. *)
Definition int_of_group (group : string) : exn + option Z :=
  match Str.int_of_digits group with
  | Some n => inr (Some n)
  | None => inl (ValueError (int_limit_message group))
  end.

(** On every value that is true as a condition, the parser converts the
    first run of digits of the string form, and returns nothing when the
    string form has no digit. *)
Lemma parse_sku_to_slot_truthy v :
  py_not v = false ->
  parse_sku_to_slot v
  = match Str.re_search_digits (py_str v) with
    | Some group => int_of_group group
    | None => inr None
    end.
Proof.
  intros Hv. unfold parse_sku_to_slot, int_of_group. rewrite Hv. simpl.
  destruct (isna v) eqn:Hna.
  - destruct v; try discriminate; reflexivity.
  - rewrite DigitFacts.re_search_strip.
    destruct (Str.is_empty (Str.strip (py_str v))) eqn:E; [|reflexivity].
    rewrite <- DigitFacts.re_search_strip.
    destruct (Str.strip (py_str v)); [reflexivity|discriminate].
Qed.

Lemma parse_sku_to_slot_spec v :
  py_not v = false ->
  (forall r, first_digit_run (py_str v) r ->
             parse_sku_to_slot v = int_of_group r)
  /\ (Str.no_digit (py_str v) = true -> parse_sku_to_slot v = inr None).
Proof.
  intros Hv. rewrite (parse_sku_to_slot_truthy v Hv). split.
  - intros r Hr. apply DigitFacts.re_search_digits_run in Hr. now rewrite Hr.
  - intros Hn. apply DigitFacts.re_search_digits_none in Hn. now rewrite Hn.
Qed.

(** A value that is false as a condition is not parsed at all. *)
Lemma parse_sku_to_slot_falsy v :
  py_not v = true -> parse_sku_to_slot v = inr None.
Proof. intros Hv. unfold parse_sku_to_slot. now rewrite Hv. Qed.

(** C3. The parser returns nothing for the integer 0, although its
    string form is the digit run [0], which it parses from a string. *)
Theorem numeric_zero_not_parsed :
  parse_sku_to_slot (VInt 0) = inr None
  /\ first_digit_run (py_str (VInt 0)) "0"
  /\ Str.int_of_digits "0" = Some 0
  /\ parse_sku_to_slot (VStr "0") = inr (Some 0).
Proof.
  split; [reflexivity|]. split; [|split; reflexivity].
  apply DigitFacts.re_search_digits_run. reflexivity.
Qed.

(** * The ratio test in binary64 arithmetic *)

(** [detect_mode] divides two counts as binary64 numbers and compares the
    quotient with the literal [0.8].  This module shows that the test agrees
    with the comparison of the exact fraction with four fifths, for every
    table of fewer than [2 ^ 53] rows. *)
Module FloatFacts.

(** The number of binary digits of a positive number. *)
Definition digits (p : positive) : Z := Zpos (digits2_pos p).

Lemma pow2_step d : 0 < d -> 2 ^ d = 2 * 2 ^ (d - 1).
Proof. intros H. rewrite <- Z.pow_succ_r by lia. f_equal. lia. Qed.

Lemma digits_succ_bounds d (x y : Z) :
  0 < d -> 2 ^ (d - 1) <= x < 2 ^ d -> (y = 2 * x \/ y = 2 * x + 1) ->
  2 ^ (Z.succ d - 1) <= y < 2 ^ Z.succ d.
Proof.
  intros Hd [H1 H2] Hy.
  replace (Z.succ d - 1) with d by lia.
  rewrite Z.pow_succ_r by lia.
  rewrite (pow2_step d Hd) in *.
  generalize dependent (2 ^ (d - 1)). intros P H1 H2. lia.
Qed.

(** A number of [d] digits lies between [2 ^ (d - 1)] and [2 ^ d]. *)
Lemma digits_bounds p : 2 ^ (digits p - 1) <= Zpos p < 2 ^ digits p.
Proof.
  unfold digits. induction p as [p IH|p IH|].
  - change (digits2_pos p~1) with (Pos.succ (digits2_pos p)).
    rewrite Pos2Z.inj_succ. apply (digits_succ_bounds _ (Zpos p)); [lia|exact IH|lia].
  - change (digits2_pos p~0) with (Pos.succ (digits2_pos p)).
    rewrite Pos2Z.inj_succ. apply (digits_succ_bounds _ (Zpos p)); [lia|exact IH|lia].
  - simpl. lia.
Qed.

(** The bounds determine the number of digits. *)
Lemma digits_unique p k : 2 ^ (k - 1) <= Zpos p < 2 ^ k -> digits p = k.
Proof.
  intros [H1 H2]. pose proof (digits_bounds p) as [B1 B2].
  assert (Hd : 0 < digits p) by (unfold digits; lia).
  assert (Hk : 0 < k).
  { destruct (Z_lt_le_dec 0 k) as [|Hk]; [assumption|].
    exfalso. destruct (Z.eq_dec k 0) as [->|]; [simpl in H2; lia|].
    rewrite (Z.pow_neg_r 2 k) in H2 by lia. lia. }
  destruct (Z.lt_trichotomy (digits p) k) as [Hlt|[Heq|Hgt]]; [|assumption|].
  - exfalso. assert (2 ^ digits p <= 2 ^ (k - 1)) by (apply Z.pow_le_mono_r; lia). lia.
  - exfalso. assert (2 ^ k <= 2 ^ (digits p - 1)) by (apply Z.pow_le_mono_r; lia). lia.
Qed.

(** Shifting a mantissa to the left. *)
Lemma iter_xO p q : Zpos (Pos.iter xO p q) = Zpos p * 2 ^ Zpos q.
Proof.
  revert p. induction q using Pos.peano_ind; intros p.
  - simpl. lia.
  - rewrite Pos.iter_succ. rewrite Pos2Z.inj_xO, IHq, Pos2Z.inj_succ, Z.pow_succ_r by lia. lia.
Qed.

(** The exponent function of binary64. *)
Lemma fexp_eq e : fexp prec emax e = Z.max (e - 53) (-1074).
Proof. reflexivity. Qed.

Lemma loc_of_record_of_loc m l :
  loc_of_shr_record (shr_record_of_loc m l) = l.
Proof. destruct l as [|[]]; reflexivity. Qed.

Lemma shr_m_record_of_loc m l : shr_m (shr_record_of_loc m l) = m.
Proof. destruct l as [|[]]; reflexivity. Qed.

Lemma record_of_loc_of_record r :
  shr_record_of_loc (shr_m r) (loc_of_shr_record r) = r.
Proof. destruct r as [m [] []]; reflexivity. Qed.

(** A mantissa of 53 digits is kept as it is. *)
Lemma shr_fexp_53 p e l :
  digits p = 53 -> -1074 <= e ->
  shr_fexp prec emax (Zpos p) e l = (shr_record_of_loc (Zpos p) l, e).
Proof.
  intros Hd He. unfold shr_fexp. simpl Zdigits2. fold (digits p). rewrite Hd, fexp_eq.
  replace (Z.max (53 + e - 53) (-1074) - e) with 0 by lia. reflexivity.
Qed.

(** A mantissa of 54 digits loses its last digit. *)
Lemma shr_fexp_54 p e l :
  digits p = 54 -> -1075 <= e ->
  shr_fexp prec emax (Zpos p) e l = (shr_1 (shr_record_of_loc (Zpos p) l), e + 1).
Proof.
  intros Hd He. unfold shr_fexp. simpl Zdigits2. fold (digits p). rewrite Hd, fexp_eq.
  replace (Z.max (54 + e - 53) (-1074) - e) with 1 by lia. reflexivity.
Qed.

(** What rounding returns once the mantissa [m1] is chosen: the
    mantissa itself, or the next power of two when it overflowed. *)
Definition finish (s : bool) (m1 : Z) (e : Z) : spec_float :=
  match m1 with
  | Zpos p1 => if m1 <? 2 ^ 53 then S754_finite s p1 e
               else S754_finite s 4503599627370496%positive (e + 1)
  | _ => S754_nan
  end.

Lemma round_cases m l :
  round_nearest_even m l = m \/ round_nearest_even m l = m + 1.
Proof. destruct l as [|[]]; simpl; auto. destruct (Z.even m); auto. Qed.

(** Rounding a mantissa of 53 digits. *)
Lemma round_aux_53 s p e l :
  digits p = 53 -> -1074 <= e <= 970 ->
  binary_round_aux prec emax s (Zpos p) e l
  = finish s (round_nearest_even (Zpos p) l) e.
Proof.
  intros Hd He. unfold binary_round_aux.
  rewrite shr_fexp_53 by lia.
  rewrite shr_m_record_of_loc, loc_of_record_of_loc.
  pose proof (digits_bounds p) as Hb. rewrite Hd in Hb.
  change (2 ^ (53 - 1)) with 4503599627370496 in Hb.
  change (2 ^ 53) with 9007199254740992 in Hb.
  unfold finish. change (2 ^ 53) with 9007199254740992.
  destruct (round_cases (Zpos p) l) as [-> | ->].
  - destruct (Z.ltb_spec (Zpos p) 9007199254740992); [|lia].
    rewrite shr_fexp_53 by lia. simpl.
    change (emax - prec) with 971; destruct (Z.leb_spec e 971); [reflexivity|lia].
  - replace (Zpos p + 1) with (Zpos (p + 1)) by lia.
    destruct (Z.ltb_spec (Zpos (p + 1)) 9007199254740992).
    + rewrite shr_fexp_53; [|apply digits_unique;
        change (2 ^ (53 - 1)) with 4503599627370496;
        change (2 ^ 53) with 9007199254740992; lia|lia].
      simpl.
      change (emax - prec) with 971; destruct (Z.leb_spec e 971); [reflexivity|lia].
    + assert (E : (p + 1)%positive = 9007199254740992%positive) by lia.
      rewrite E. rewrite shr_fexp_54; [|reflexivity|lia]. simpl.
      change (emax - prec) with 971; destruct (Z.leb_spec (e + 1) 971); [reflexivity|lia].
Qed.

(** Rounding a mantissa of 54 digits. *)
Lemma round_aux_54 s p e l :
  digits p = 54 -> -1075 <= e <= 969 ->
  binary_round_aux prec emax s (Zpos p) e l
  = finish s (round_nearest_even (Zpos p / 2)
               (loc_of_shr_record (shr_1 (shr_record_of_loc (Zpos p) l))))
      (e + 1).
Proof.
  intros Hd He.
  pose proof (digits_bounds p) as Hb. rewrite Hd in Hb.
  change (2 ^ (54 - 1)) with 9007199254740992 in Hb.
  change (2 ^ 54) with 18014398509481984 in Hb.
  assert (Hhalf : exists p', Zpos p / 2 = Zpos p'
                            /\ digits p' = 53
                            /\ shr_m (shr_1 (shr_record_of_loc (Zpos p) l)) = Zpos p').
  { destruct p as [p'|p'|]; [| |lia]; exists p'.
    - split; [symmetry; apply (Z.div_unique_pos _ 2 _ 1); lia|].
      split; [|destruct l as [|[]]; reflexivity].
      apply digits_unique. change (2 ^ (53 - 1)) with 4503599627370496.
      change (2 ^ 53) with 9007199254740992. lia.
    - split; [symmetry; apply (Z.div_unique_pos _ 2 _ 0); lia|].
      split; [|destruct l as [|[]]; reflexivity].
      apply digits_unique. change (2 ^ (53 - 1)) with 4503599627370496.
      change (2 ^ 53) with 9007199254740992. lia. }
  destruct Hhalf as (p' & E1 & E2 & E3).
  rewrite E1. rewrite <- (round_aux_53 s p' (e + 1)) by lia.
  unfold binary_round_aux.
  rewrite shr_fexp_54, shr_fexp_53 by lia.
  rewrite E3, shr_m_record_of_loc, loc_of_record_of_loc. reflexivity.
Qed.

(** The position of the remainder of a division. *)
Lemma new_location_eq my r :
  0 <= r ->
  new_location (Zpos my) r
  = if r =? 0 then loc_Exact else loc_Inexact (Z.compare (2 * r) (Zpos my)).
Proof.
  intros Hr. unfold new_location, new_location_even, new_location_odd.
  destruct (Z.even (Zpos my)) eqn:Ev; [reflexivity|].
  destruct (r =? 0); [reflexivity|]. f_equal.
  assert (Hodd : Z.odd (Zpos my) = true) by (rewrite <- Z.negb_even, Ev; reflexivity).
  apply Z.odd_spec in Hodd as [k Hk].
  destruct (Z.compare_spec (2 * r + 1) (Zpos my));
    destruct (Z.compare_spec (2 * r) (Zpos my)); try reflexivity; lia.
Qed.

(** The quotient of two normal numbers, before rounding. *)
Lemma div_normal mx ex my ey :
  digits mx = 53 -> digits my = 53 ->
  -52 <= ex <= 0 -> -52 <= ey <= 0 ->
  SFdiv prec emax (S754_finite false mx ex) (S754_finite false my ey)
  = let (q, r) := Z.div_eucl (Zpos mx * 2 ^ 53) (Zpos my) in
    binary_round_aux prec emax false q (ex - ey - 53) (new_location (Zpos my) r).
Proof.
  intros Hx Hy Hex Hey. unfold SFdiv, SFdiv_core_binary.
  simpl Zdigits2. fold (digits mx) (digits my). rewrite Hx, Hy, fexp_eq.
  replace (Z.min (Z.max (53 + ex - (53 + ey) - 53) (-1074)) (ex - ey))
    with (ex - ey - 53) by lia.
  replace (ex - ey - (ex - ey - 53)) with 53 by lia.
  rewrite Z.shiftl_mul_pow2 by lia.
  destruct (Z.div_eucl (Zpos mx * 2 ^ 53) (Zpos my)) as [q r]. reflexivity.
Qed.

(** An integer as a binary64 number. *)
Definition sf_of_count (z : Z) : spec_float := binary_normalize prec emax z 0 false.

(** Below [2 ^ 53] every positive integer is represented exactly, with
    a mantissa of 53 digits. *)
Lemma sf_of_count_pos p :
  Zpos p < 2 ^ 53 ->
  exists mz,
    sf_of_count (Zpos p) = S754_finite false mz (digits p - 53)
    /\ Zpos mz = Zpos p * 2 ^ (53 - digits p)
    /\ digits mz = 53.
Proof.
  intros Hp. pose proof (digits_bounds p) as Hb.
  assert (Hd1 : 1 <= digits p) by (unfold digits; lia).
  assert (Hd : digits p <= 53).
  { destruct (Z_le_gt_dec (digits p) 53) as [|Hgt]; [assumption|exfalso].
    assert (2 ^ 53 <= 2 ^ (digits p - 1)) by (apply Z.pow_le_mono_r; lia). lia. }
  unfold sf_of_count, binary_normalize, binary_round, shl_align.
  fold (digits p). rewrite fexp_eq.
  replace (Z.max (digits p + 0 - 53) (-1074) - 0) with (digits p - 53) by lia.
  replace (Z.max (digits p + 0 - 53) (-1074)) with (digits p - 53) by lia.
  destruct (digits p - 53) as [|k|k] eqn:Ek; [| lia |].
  - exists p. assert (E : digits p = 53) by lia.
    rewrite round_aux_53 by lia. simpl round_nearest_even. unfold finish.
    rewrite E in Hb. change (2 ^ 53) with 9007199254740992 in *.
    destruct (Z.ltb_spec (Zpos p) 9007199254740992); [|lia].
    rewrite E. simpl. split; [reflexivity|]. split; [lia|reflexivity].
  - assert (Ek' : Zpos k = 53 - digits p) by lia.
    assert (Hm : Zpos (Pos.iter xO p k) = Zpos p * 2 ^ (53 - digits p))
      by (rewrite iter_xO, Ek'; reflexivity).
    assert (Hdm : digits (Pos.iter xO p k) = 53).
    { apply digits_unique. rewrite Hm.
      assert (P1 : 2 ^ (53 - 1) = 2 ^ (digits p - 1) * 2 ^ (53 - digits p))
        by (rewrite <- Z.pow_add_r by lia; f_equal; lia).
      assert (P2 : 2 ^ 53 = 2 ^ digits p * 2 ^ (53 - digits p))
        by (rewrite <- Z.pow_add_r by lia; f_equal; lia).
      rewrite P1, P2.
      assert (0 < 2 ^ (53 - digits p)) by (apply Z.pow_pos_nonneg; lia).
      nia. }
    exists (Pos.iter xO p k).
    rewrite round_aux_53 by lia. simpl round_nearest_even. unfold finish.
    pose proof (digits_bounds (Pos.iter xO p k)) as Hb'. rewrite Hdm in Hb'.
    destruct (Z.ltb_spec (Zpos (Pos.iter xO p k)) (2 ^ 53)); [|lia].
    split; [reflexivity|]. split; assumption.
Qed.

(** The mantissa of the binary64 number nearest to 0.8. *)
Definition Mc : positive := 7205759403792794.

(** The literal [0.8] of the source is [Mc * 2 ^ -53]. *)
Lemma threshold_spec : Prim2SF 0.8 = S754_finite false Mc (-53).
Proof. vm_compute. reflexivity. Qed.

Lemma leb_finite m e :
  SFleb (S754_finite false Mc (-53)) (S754_finite false m e)
  = (-53 <? e) || ((e =? -53) && (Zpos Mc <=? Zpos m)).
Proof.
  unfold SFleb, SFcompare.
  destruct (Z.compare_spec (-53) e) as [E|L|G].
  - subst e. change (-53 <? -53) with false. change (-53 =? -53) with true.
    rewrite Pos.compare_cont_spec. simpl Pos.switch_Eq.
    unfold Z.leb. simpl Z.compare.
    destruct (Pos.compare Mc m); reflexivity.
  - apply Z.ltb_lt in L. rewrite L. reflexivity.
  - assert (H1 : (-53 <? e) = false) by (apply Z.ltb_ge; lia).
    assert (H2 : (e =? -53) = false) by (apply Z.eqb_neq; lia).
    rewrite H1, H2. reflexivity.
Qed.

(** Comparing the threshold with a rounded quotient. *)
Lemma leb_finish m1 e :
  2 ^ 52 <= m1 <= 2 ^ 53 ->
  SFleb (S754_finite false Mc (-53)) (finish false m1 e)
  = (-53 <? e) || ((e =? -53) && (Zpos Mc <=? m1)).
Proof.
  change (2 ^ 52) with 4503599627370496. change (2 ^ 53) with 9007199254740992.
  intros Hm. unfold finish. destruct m1 as [|p1|p1]; [lia| |lia].
  change (2 ^ 53) with 9007199254740992.
  destruct (Z.ltb_spec (Zpos p1) 9007199254740992).
  - apply leb_finite.
  - assert (Zpos p1 = 9007199254740992) as -> by lia.
    rewrite leb_finite.
    destruct (Z.ltb_spec (-53) (e + 1)); destruct (Z.ltb_spec (-53) e);
      destruct (Z.eqb_spec (e + 1) (-53)); destruct (Z.eqb_spec e (-53));
      try lia; reflexivity.
Qed.

(** [Tc = 2 * Mc - 1]: twice the least real number that rounds to the
    threshold or above; [5 * Tc = 4 * 2 ^ 54 - 1]. *)
Definition Tc : Z := 14411518807585587.

(** A rounded quotient of 53 digits reaches the threshold mantissa iff
    the exact quotient reaches [Tc / 2]. *)
Lemma round_53_threshold q my r :
  2 ^ 52 <= q < 2 ^ 53 -> 0 <= r < Zpos my ->
  (Zpos Mc <=? round_nearest_even q (new_location (Zpos my) r))
  = (Tc * Zpos my <=? 2 * (Zpos my * q + r)).
Proof.
  change (2 ^ 52) with 4503599627370496. change (2 ^ 53) with 9007199254740992.
  unfold Mc, Tc. intros Hq Hr.
  rewrite new_location_eq by lia.
  destruct (Z_le_gt_dec 7205759403792794 q) as [Hge|Hlt].
  - assert (H1 : 7205759403792794 <= round_nearest_even q
                    (if r =? 0 then loc_Exact else loc_Inexact (2 * r ?= Zpos my)))
      by (destruct (round_cases q (if r =? 0 then loc_Exact
                                   else loc_Inexact (2 * r ?= Zpos my))) as [-> | ->]; lia).
    apply Z.leb_le in H1. rewrite H1. symmetry. apply Z.leb_le. nia.
  - destruct (Z.eq_dec q 7205759403792793) as [->|Hne].
    + destruct (Z.eqb_spec r 0) as [->|Hr0].
      * simpl round_nearest_even. symmetry.
        transitivity false; [apply Z.leb_gt; lia|reflexivity].
      * destruct (Z.compare_spec (2 * r) (Zpos my)); simpl round_nearest_even.
        -- symmetry. apply Z.leb_le. lia.
        -- symmetry. transitivity false; [apply Z.leb_gt; lia|reflexivity].
        -- symmetry. apply Z.leb_le. lia.
    + assert (H1 : round_nearest_even q
                     (if r =? 0 then loc_Exact else loc_Inexact (2 * r ?= Zpos my))
                   < 7205759403792794)
        by (destruct (round_cases q (if r =? 0 then loc_Exact
                                     else loc_Inexact (2 * r ?= Zpos my))) as [-> | ->]; lia).
      apply Z.leb_gt in H1. rewrite H1. symmetry. apply Z.leb_gt. nia.
Qed.

(** The same for a quotient of 54 digits. *)
Lemma round_54_threshold q l :
  2 ^ 53 <= q < 2 ^ 54 ->
  (Zpos Mc <=? round_nearest_even (q / 2)
                 (loc_of_shr_record (shr_1 (shr_record_of_loc q l))))
  = (Tc <=? q).
Proof.
  change (2 ^ 53) with 9007199254740992. change (2 ^ 54) with 18014398509481984.
  unfold Mc, Tc. intros Hq.
  set (l' := loc_of_shr_record (shr_1 (shr_record_of_loc q l))).
  assert (Hdiv : q = 2 * (q / 2) + q mod 2) by (apply Z.div_mod; lia).
  assert (Hmod : 0 <= q mod 2 < 2) by (apply Z.mod_pos_bound; lia).
  destruct (Z_le_gt_dec 7205759403792794 (q / 2)) as [Hge|Hlt].
  - assert (H1 : 7205759403792794 <= round_nearest_even (q / 2) l')
      by (destruct (round_cases (q / 2) l') as [-> | ->]; lia).
    apply Z.leb_le in H1. rewrite H1. symmetry. apply Z.leb_le. lia.
  - destruct (Z.eq_dec (q / 2) 7205759403792793) as [E|Hne].
    + assert (Hq' : q = 14411518807585586 \/ q = 14411518807585587) by lia.
      unfold l'. rewrite E.
      destruct Hq' as [-> | ->]; destruct l as [|[]]; reflexivity.
    + assert (H1 : round_nearest_even (q / 2) l' < 7205759403792794)
        by (destruct (round_cases (q / 2) l') as [-> | ->]; lia).
      apply Z.leb_gt in H1. rewrite H1. symmetry. apply Z.leb_gt. lia.
Qed.

(** For a denominator below [2 ^ 53], reaching [Tc / 2 ^ 54] is
    reaching four fifths. *)
Lemma threshold_arith v n :
  0 <= v -> 0 < n < 2 ^ 53 ->
  (Tc * n <=? 2 ^ 54 * v) = (4 * n <=? 5 * v).
Proof.
  change (2 ^ 53) with 9007199254740992. change (2 ^ 54) with 18014398509481984.
  unfold Tc. intros Hv Hn.
  destruct (Z.leb_spec (4 * n) (5 * v)).
  - apply Z.leb_le. lia.
  - apply Z.leb_gt. lia.
Qed.

(** The number of digits is monotone. *)
Lemma digits_mono p q : Zpos p <= Zpos q -> digits p <= digits q.
Proof.
  intros H. pose proof (digits_bounds p) as [B1 _]. pose proof (digits_bounds q) as [_ B2].
  destruct (Z_le_gt_dec (digits p) (digits q)) as [|Hgt]; [assumption|exfalso].
  assert (0 < digits q) by (unfold digits; lia).
  assert (2 ^ digits q <= 2 ^ (digits p - 1)) by (apply Z.pow_le_mono_r; lia). lia.
Qed.

(** The binary64 quotient of two counts reaches the binary64 number
    0.8 iff the exact quotient reaches four fifths. *)
Theorem sf_threshold v n :
  0 <= v <= n -> 0 < n < 2 ^ 53 ->
  SFleb (S754_finite false Mc (-53))
    (SFdiv prec emax (sf_of_count v) (sf_of_count n))
  = (4 * n <=? 5 * v).
Proof.
  intros Hv Hn.
  destruct n as [|pn|pn]; try lia.
  destruct (sf_of_count_pos pn) as (my & En & Hmy & Hdy); [lia|].
  destruct v as [|pv|pv]; try lia.
  - rewrite En. reflexivity.
  - destruct (sf_of_count_pos pv) as (mx & Ev & Hmx & Hdx); [lia|].
    assert (Hdv1 : 1 <= digits pv) by (unfold digits; lia).
    assert (Hdn1 : 1 <= digits pn) by (unfold digits; lia).
    assert (Hdvn : digits pv <= digits pn) by (apply digits_mono; lia).
    assert (Hdn53 : digits pn <= 53).
    { pose proof (digits_bounds pn) as [B1 _].
      destruct (Z_le_gt_dec (digits pn) 53) as [|Hgt]; [assumption|exfalso].
      assert (2 ^ 53 <= 2 ^ (digits pn - 1)) by (apply Z.pow_le_mono_r; lia). lia. }
    rewrite Ev, En, div_normal by lia.
    pose proof (Z_div_mod (Zpos mx * 2 ^ 53) (Zpos my) ltac:(lia)) as Hdiv.
    destruct (Z.div_eucl (Zpos mx * 2 ^ 53) (Zpos my)) as [q r].
    destruct Hdiv as [Hqr Hr].
    pose proof (digits_bounds mx) as Hbx. rewrite Hdx in Hbx.
    pose proof (digits_bounds my) as Hby. rewrite Hdy in Hby.
    change (2 ^ (53 - 1)) with 4503599627370496 in *.
    change (2 ^ 53) with 9007199254740992 in *.
    (* the powers *)
    set (k := digits pn - digits pv) in *.
    set (B := 2 ^ (53 - digits pn)) in *.
    assert (HB : 0 < B) by (apply Z.pow_pos_nonneg; lia).
    assert (HA : 2 ^ (53 - digits pv) = 2 ^ k * B).
    { unfold B, k. rewrite <- Z.pow_add_r by lia. f_equal. lia. }
    rewrite HA in Hmx.
    assert (Hk : 0 <= k) by (unfold k; lia).
    replace (digits pv - 53 - (digits pn - 53) - 53) with (- k - 53) by (unfold k; lia).
    (* the size of the quotient *)
    assert (Hq : 4503599627370496 <= q < 18014398509481984) by nia.
    destruct q as [|pq|pq]; try lia.
    destruct (Z_lt_le_dec (Zpos pq) 9007199254740992) as [Hlo|Hhi].
    + (* a quotient of 53 bits *)
      assert (Hdq : digits pq = 53).
      { apply digits_unique. change (2 ^ (53 - 1)) with 4503599627370496.
        change (2 ^ 53) with 9007199254740992. lia. }
      rewrite round_aux_53 by lia.
      rewrite leb_finish.
      2:{ change (2 ^ 52) with 4503599627370496. change (2 ^ 53) with 9007199254740992.
          destruct (round_cases (Zpos pq) (new_location (Zpos my) r)) as [-> | ->]; lia. }
      assert (E1 : (-53 <? - k - 53) = false) by (apply Z.ltb_ge; lia).
      rewrite E1. simpl orb.
      destruct (Z.eq_dec k 0) as [K0|K0].
      * rewrite K0 in *. change (- 0 - 53 =? -53) with true. simpl andb.
        rewrite round_53_threshold.
        2:{ change (2 ^ 52) with 4503599627370496.
            change (2 ^ 53) with 9007199254740992. lia. }
        2:{ lia. }
        rewrite <- Hqr. change (2 ^ 0) with 1 in Hmx.
        rewrite <- (threshold_arith (Zpos pv) (Zpos pn)) by lia.
        change (2 ^ 54) with 18014398509481984. unfold Tc.
        destruct (Z.leb_spec (14411518807585587 * Zpos my)
                    (2 * (Zpos mx * 9007199254740992)));
          destruct (Z.leb_spec (14411518807585587 * Zpos pn)
                      (18014398509481984 * Zpos pv)); try reflexivity; nia.
      * assert (E2 : (- k - 53 =? -53) = false) by (apply Z.eqb_neq; lia).
        rewrite E2. simpl andb. symmetry. apply Z.leb_gt.
        assert (HP : 2 <= 2 ^ k).
        { change 2 with (2 ^ 1) at 1. apply Z.pow_le_mono_r; lia. }
        assert (Hxy : Zpos mx < Zpos my) by nia.
        nia.
    + (* a quotient of 54 bits *)
      assert (Hdq : digits pq = 54).
      { apply digits_unique. change (2 ^ (54 - 1)) with 9007199254740992.
        change (2 ^ 54) with 18014398509481984. lia. }
      rewrite round_aux_54 by lia.
      rewrite leb_finish.
      2:{ change (2 ^ 52) with 4503599627370496. change (2 ^ 53) with 9007199254740992.
          assert (Hh : 4503599627370496 <= Zpos pq / 2 < 9007199254740992).
          { split; [apply Z.div_le_lower_bound; lia|apply Z.div_lt_upper_bound; lia]. }
          destruct (round_cases (Zpos pq / 2)
                      (loc_of_shr_record
                         (shr_1 (shr_record_of_loc (Zpos pq) (new_location (Zpos my) r)))))
            as [-> | ->]; lia. }
      destruct (Z.eq_dec k 0) as [K0|K0].
      * rewrite K0 in *. change (-53 <? - 0 - 53 + 1) with true. simpl orb.
        symmetry. apply Z.leb_le. change (2 ^ 0) with 1 in Hmx.
        assert (Hxy : Zpos my <= Zpos mx) by nia.
        nia.
      * destruct (Z.eq_dec k 1) as [K1|K1].
        -- rewrite K1 in *. change (-53 <? - 1 - 53 + 1) with false.
           change (- 1 - 53 + 1 =? -53) with true. simpl orb. simpl andb.
           rewrite round_54_threshold.
           2:{ change (2 ^ 53) with 9007199254740992.
               change (2 ^ 54) with 18014398509481984. lia. }
           change (2 ^ 1) with 2 in Hmx.
           rewrite <- (threshold_arith (Zpos pv) (Zpos pn)) by lia.
           change (2 ^ 54) with 18014398509481984. unfold Tc.
           destruct (Z.leb_spec 14411518807585587 (Zpos pq));
             destruct (Z.leb_spec (14411518807585587 * Zpos pn)
                         (18014398509481984 * Zpos pv)); try reflexivity; nia.
        -- assert (E1 : (-53 <? - k - 53 + 1) = false) by (apply Z.ltb_ge; lia).
           assert (E2 : (- k - 53 + 1 =? -53) = false) by (apply Z.eqb_neq; lia).
           rewrite E1, E2. simpl. symmetry. apply Z.leb_gt.
           assert (HP : 4 <= 2 ^ k).
           { change 4 with (2 ^ 2). apply Z.pow_le_mono_r; lia. }
           assert (Hxy : Zpos mx < 2 * Zpos my) by nia.
           nia.
Qed.

(** [float_of_count] is exact below [2 ^ 53]. *)
Lemma float_of_count_spec n :
  Z.of_nat n < 2 ^ 53 -> Prim2SF (float_of_count n) = sf_of_count (Z.of_nat n).
Proof.
  intros H. unfold float_of_count, sf_of_count.
  rewrite of_uint63_spec, Uint63.of_Z_spec.
  rewrite Z.mod_small; [reflexivity|].
  change (2 ^ 53) with 9007199254740992 in H.
  change wB with 9223372036854775808. lia.
Qed.

(** The test of [detect_mode], on primitive floats. *)
Lemma ratio_threshold v n :
  (v <= n)%nat -> (0 < n)%nat -> Z.of_nat n < 2 ^ 53 ->
  (0.8 <=? float_of_count v / float_of_count n)%float
  = (4 * Z.of_nat n <=? 5 * Z.of_nat v).
Proof.
  intros Hv Hn Hb.
  rewrite FloatAxioms.leb_spec, FloatAxioms.div_spec, threshold_spec, !float_of_count_spec by lia.
  apply sf_threshold; lia.
Qed.

End FloatFacts.

(** * Strategy selection against the exact fraction *)

(** Modelled from the words of the specification (section 4.1): the
    parser gives a slot number for an identifier unless the value is
    absent or null, empty or blank after trimming, or without a digit. *)
Definition spec_parses (v : value) : bool :=
  negb (isna v)
  && negb (Str.is_empty (Str.strip (py_str v)))
  && negb (Str.no_digit (py_str v)).

(** Modelled from the words of the specification (section 4.3): the
    fraction of the [total_rows] rows whose identifier parses to a slot
    number, as a rational number.  (In [Q] a fraction over zero is
    zero.) *)
Definition spec_fraction (col : list value) (total_rows : nat) : Q :=
  (inject_Z (Z.of_nat (List.length (List.filter spec_parses col)))
   / inject_Z (Z.of_nat total_rows))%Q.

(** The identifiers for which the parser returns a number. *)
Definition has_slot (v : value) : bool :=
  match slot_of v with
  | Some _ => true
  | None => false
  end.

(** The count of [detect_mode], when the parser returns on every cell. *)
Definition count_parsed (col : list value) : nat :=
  List.length (List.filter has_slot col).

Lemma count_parsed_le col : (count_parsed col <= List.length col)%nat.
Proof. unfold count_parsed. apply List.filter_length_le. Qed.

Lemma series_apply_parses col :
  forallb parser_returns col = true ->
  series_apply parses col = inr (List.map has_slot col).
Proof.
  induction col as [|v col IH]; simpl; [reflexivity|].
  intros H. apply andb_true_iff in H as [Hv H]. rewrite (IH H).
  unfold parses, has_slot. rewrite (parse_sku_to_slot_returns _ Hv).
  now destruct (slot_of v).
Qed.

(** Where the parser raises on a cell, [apply] raises. *)
Lemma series_apply_raises col :
  forallb parser_returns col = false ->
  exists e, series_apply parses col = inl e.
Proof.
  induction col as [|v col IH]; simpl; [discriminate|].
  intros H. unfold parses at 1.
  destruct (parse_sku_to_slot v) as [e|r] eqn:E; [eauto|].
  assert (Hv : parser_returns v = true) by (unfold parser_returns; now rewrite E).
  rewrite Hv in H. destruct (IH H) as [e ->].
  exists e. now destruct r.
Qed.

Lemma count_true_map {A} (f : A -> bool) (l : list A) :
  count_true (List.map f l) = List.length (List.filter f l).
Proof.
  unfold count_true. induction l as [|x l IH]; simpl; [reflexivity|].
  destruct (f x); simpl; now rewrite IH.
Qed.

(** Reaching eight tenths, without the division. *)
Lemma fraction_threshold (v n : nat) :
  (0 < n)%nat ->
  (8 # 10 <= inject_Z (Z.of_nat v) / inject_Z (Z.of_nat n))%Q
  <-> 4 * Z.of_nat n <= 5 * Z.of_nat v.
Proof.
  intros Hn. destruct n as [|n]; [lia|].
  unfold Qle, Qdiv, Qmult, Qinv, inject_Z.
  rewrite Nat2Z.inj_succ, <- Zpos_P_of_succ_nat. simpl Qnum. simpl Qden.
  rewrite Pos2Z.inj_mul. lia.
Qed.

Lemma fraction_empty (v : nat) :
  ~ (8 # 10 <= inject_Z (Z.of_nat v) / inject_Z (Z.of_nat 0))%Q.
Proof.
  unfold Qle, Qdiv, Qmult, Qinv, inject_Z. simpl.
  lia.
Qed.

(** The strategy that [detect_mode] selects when the column exists and
    the parser returns on its cells. *)
Lemma detect_mode_sku_column d col :
  DF.get_column "sku" d = Some col ->
  List.length col = DF.len d ->
  Z.of_nat (DF.len d) < 2 ^ 53 ->
  forallb parser_returns col = true ->
  detect_mode d
  = inr (if (DF.len d =? 0)%nat then "sequence"
         else if 4 * Z.of_nat (DF.len d) <=? 5 * Z.of_nat (count_parsed col)
              then "sku" else "sequence").
Proof.
  intros Hc Hl Hb Hret. unfold detect_mode.
  rewrite Hc, (series_apply_parses _ Hret), count_true_map.
  fold (count_parsed col).
  destruct (Nat.eqb_spec (DF.len d) 0) as [|Hn]; [reflexivity|].
  rewrite FloatFacts.ratio_threshold; [reflexivity| |lia|assumption].
  rewrite <- Hl. apply count_parsed_le.
Qed.

(** [detect_mode] returns exactly when the parser returns on every
    identifier, and it returns a strategy. *)
Lemma detect_mode_returns d :
  parser_returns_on d = true ->
  exists m, detect_mode d = inr m /\ valid_mode m = true.
Proof.
  unfold parser_returns_on, detect_mode.
  destruct (DF.get_column "sku" d) as [col|]; [|now exists "sequence"].
  intros Hret. rewrite (series_apply_parses _ Hret).
  cbv zeta. destruct (DF.len d =? 0)%nat; [now exists "sequence"|].
  destruct (PrimFloat.leb _ _); eexists; split; reflexivity.
Qed.

Lemma detect_mode_inv d m :
  detect_mode d = inr m -> parser_returns_on d = true /\ valid_mode m = true.
Proof.
  intros Hm. destruct (parser_returns_on d) eqn:Hret.
  - destruct (detect_mode_returns d Hret) as (m' & Hm' & Hv). split; [reflexivity|].
    congruence.
  - exfalso. unfold parser_returns_on in Hret. unfold detect_mode in Hm.
    destruct (DF.get_column "sku" d) as [col|]; [|discriminate].
    destruct (series_apply_raises _ Hret) as [e He]. now rewrite He in Hm.
Qed.

(** On a value on which it returns, the parser gives a number exactly
    when the value is true as a condition and the parser of the
    specification gives one. *)
Lemma has_slot_spec v :
  parser_returns v = true -> has_slot v = negb (py_not v) && spec_parses v.
Proof.
  intros Hret. unfold has_slot, slot_of.
  destruct (py_not v) eqn:Hv.
  - now rewrite (parse_sku_to_slot_falsy _ Hv).
  - unfold parser_returns in Hret.
    rewrite (parse_sku_to_slot_truthy _ Hv) in *. simpl.
    unfold spec_parses.
    destruct (Str.re_search_digits (py_str v)) as [group|] eqn:Hs.
    + assert (Hd : Str.no_digit (py_str v) = false).
      { destruct (Str.no_digit (py_str v)) eqn:Hd; [|reflexivity].
        apply DigitFacts.re_search_digits_none in Hd. congruence. }
      assert (He : Str.is_empty (Str.strip (py_str v)) = false).
      { rewrite <- DigitFacts.re_search_strip in Hs.
        now destruct (Str.strip (py_str v)). }
      rewrite Hd, He.
      assert (Hna : isna v = false).
      { destruct v; try reflexivity; discriminate. }
      rewrite Hna. unfold int_of_group in *.
      now destruct (Str.int_of_digits group).
    + apply DigitFacts.re_search_digits_none in Hs. rewrite Hs.
      now rewrite andb_false_r.
Qed.

(** The count of the code is the count of the specification on a column
    without an identifier that is false as a condition although the
    specification parses it: a number 0. *)
Lemma count_parsed_spec col :
  (forall v, v ∈ col -> parser_returns v = true) ->
  (forall v, v ∈ col -> spec_parses v = true -> py_not v = false) ->
  count_parsed col = List.length (List.filter spec_parses col).
Proof.
  intros Hret Hzero. unfold count_parsed. apply filter_length_ext.
  intros v Hv. rewrite (has_slot_spec v (Hret v Hv)).
  destruct (spec_parses v) eqn:Hs; [|apply andb_false_r].
  now rewrite (Hzero v Hv Hs).
Qed.

(** * The claims of the specification *)

Lemma lookup_result (h mid : list DataFrame) d_out :
  (h ++ mid ++ [d_out])%list !! (List.length h + List.length mid)%nat = Some d_out.
Proof.
  rewrite app_assoc. apply list_lookup_middle. now rewrite length_app.
Qed.

(** ** Labels that can be written *)

(** The value of a run of digits, below the power of ten of its length. *)
Lemma int_of_digits_from_bounds acc s :
  Str.all_chars Str.is_digit s = true -> 0 <= acc ->
  0 <= Str.int_of_digits_from acc s
  < (acc + 1) * 10 ^ Z.of_nat (String.length s).
Proof.
  revert acc. induction s as [|c s IH]; intros acc Hs Hacc.
  - simpl. lia.
  - cbn [Str.all_chars] in Hs. apply andb_true_iff in Hs as [Hc Hs].
    assert (Hd : 0 <= Str.digit_val c <= 9).
    { unfold Str.is_digit, Str.digit_val in *.
      apply andb_true_iff in Hc as [H1 H2]. apply N.leb_le in H1, H2. lia. }
    cbn [Str.int_of_digits_from String.length].
    destruct (IH (10 * acc + Str.digit_val c) Hs) as [H1 H2]; [lia|].
    split; [exact H1|].
    rewrite Nat2Z.inj_succ, Z.pow_succ_r by lia.
    assert (0 < 10 ^ Z.of_nat (String.length s)) by (apply Z.pow_pos_nonneg; lia).
    nia.
Qed.

(** The parser returns integers that [str] converts: such an integer is
    the value of a run of 4300 digits at most. *)
Lemma slot_of_converts v n : slot_of v = Some n -> Z.abs n < int_str_limit.
Proof.
  unfold slot_of. intros H.
  destruct (parse_sku_to_slot v) as [e|r] eqn:Hp; [discriminate|]. subst r.
  destruct (py_not v) eqn:Hv.
  - rewrite (parse_sku_to_slot_falsy v Hv) in Hp. discriminate.
  - rewrite (parse_sku_to_slot_truthy v Hv) in Hp.
    destruct (Str.re_search_digits (py_str v)) as [r|] eqn:Hr; [|discriminate].
    unfold int_of_group, Str.int_of_digits in Hp.
    destruct (Str.max_str_digits <? String.length r)%nat eqn:Hlen; [discriminate|].
    injection Hp as <-.
    apply DigitFacts.re_search_digits_run in Hr
      as (pre & post & _ & _ & _ & Hd & _).
    apply Nat.ltb_ge in Hlen.
    destruct (int_of_digits_from_bounds 0 r Hd) as [H0 H1]; [lia|].
    rewrite Z.abs_eq by exact H0.
    eapply Z.lt_le_trans; [exact H1|].
    change (0 + 1) with 1. rewrite Z.mul_1_l, int_str_limit_eq.
    apply Z.pow_le_mono_r; [lia|]. now apply Nat2Z.inj_le.
Qed.

Lemma sku_plan_converts ex inc rows : plan_converts (sku_plan ex inc rows).
Proof.
  apply Forall_forall. intros [i o] Hin. unfold sku_plan in Hin.
  apply list_elem_of_fmap in Hin as (x & E & _). injection E as -> ->.
  simpl. unfold sku_outcome. destruct (passes _ _ _); [|exact I].
  destruct (slot_of _) as [n|] eqn:Hs; [|exact I].
  simpl. now apply (slot_of_converts _ _ Hs).
Qed.

Lemma sequence_plan_converts ex inc cur rows :
  Z.abs cur + Z.of_nat (List.length rows) <= int_str_limit ->
  plan_converts (sequence_plan ex inc cur rows).
Proof.
  unfold plan_converts. revert cur.
  induction rows as [|x rows IH]; intros cur H; cbn [sequence_plan];
    [constructor|].
  cbn [List.length] in H. rewrite Nat2Z.inj_succ in H.
  destruct (passes ex inc (snd x)).
  - constructor; [simpl; lia|]. apply IH. lia.
  - constructor; [exact I|]. apply IH. lia.
Qed.

Section Conversions.

Variable to_datetime : list value -> option (list value).
Variable argsort : list value -> list nat.
Hypothesis argsort_perm :
  forall keys, Permutation (argsort keys) (seq 0 (List.length keys)).

Lemma plan_converts_sequence start_slot ex inc d :
  within_str_limit start_slot d ->
  plan_converts
    (plan_of "sequence" ex inc start_slot
       (iterated_frame to_datetime argsort "sequence" (init_columns d))).
Proof.
  intros H. unfold plan_of. simpl. apply sequence_plan_converts.
  rewrite <- (length_map fst), iterrows_labels.
  rewrite (Permutation_length
             (iterated_frame_index to_datetime argsort argsort_perm _ _)).
  exact H.
Qed.

Lemma plan_converts_sku start_slot ex inc d2 :
  plan_converts (plan_of "sku" ex inc start_slot d2).
Proof. unfold plan_of. simpl. apply sku_plan_converts. Qed.

Lemma plan_converts_intro m start_slot ex inc d :
  valid_mode m = true ->
  (m = "sequence" -> within_str_limit start_slot d) ->
  plan_converts
    (plan_of m ex inc start_slot
       (iterated_frame to_datetime argsort m (init_columns d))).
Proof.
  intros Hv H. unfold valid_mode in Hv.
  apply orb_true_iff in Hv as [E|E]; apply String.eqb_eq in E; subst m.
  - apply plan_converts_sku.
  - apply plan_converts_sequence. now apply H.
Qed.

End Conversions.

(** The slots convert for the strategy that a mode resolves to. *)
Lemma resolved_within_str_limit mode d m start_slot :
  resolve_mode mode d = inr m ->
  mode = "sku" \/ within_str_limit start_slot d ->
  m = "sequence" -> within_str_limit start_slot d.
Proof.
  intros Hres [->|H] ->; [discriminate Hres|exact H].
Qed.

Lemma runs_as_intro mode d m ex inc :
  resolve_mode mode d = inr m ->
  valid_mode m = true ->
  (m = "sku" -> parser_returns_on d = true) ->
  runs_as mode d m ex inc.
Proof.
  intros H Hv Hret. split; [exact H|]. split; [exact Hv|].
  intros Hm. apply rows_parser_returns. auto.
Qed.

Lemma runs_as_sequence mode d ex inc :
  resolve_mode mode d = inr "sequence" -> runs_as mode d "sequence" ex inc.
Proof. intros H. split; [exact H|]. split; [reflexivity|discriminate]. Qed.

Lemma runs_as_sku mode d ex inc :
  resolve_mode mode d = inr "sku" -> parser_returns_on d = true ->
  runs_as mode d "sku" ex inc.
Proof. intros H Hret. apply runs_as_intro; auto. Qed.

Section Claims.

Variable to_datetime : list value -> option (list value).
Variable argsort : list value -> list nat.
Hypothesis argsort_perm :
  forall keys, Permutation (argsort keys) (seq 0 (List.length keys)).

(** A call on a non-empty table with distinct labels, in a mode that
    resolves to a strategy, returns; the table it returns carries the
    annotations of the plan of its loop. *)
Lemma match_ok (h : heap) df d mode m start_slot ex inc :
  h !! df = Some d ->
  DF.empty d = false ->
  runs_as mode d m (normalize_keywords ex) (normalize_keywords inc) ->
  plan_converts
    (plan_of m (normalize_keywords ex) (normalize_keywords inc) start_slot
       (iterated_frame to_datetime argsort m (init_columns d))) ->
  NoDup (df_index d) ->
  let d2 := iterated_frame to_datetime argsort m (init_columns d) in
  let p := plan_of m (normalize_keywords ex) (normalize_keywords inc) start_slot d2 in
  exists h' out d_out,
    match_ to_datetime argsort df mode start_slot ex inc h
    = (h', inr (out, summary_of d m start_slot (normalize_keywords ex)
                       (normalize_keywords inc) p))
    /\ h' !! out = Some d_out
    /\ same_frame d2 d_out
    /\ annotated p d_out
    /\ NoDup (df_index d2)
    /\ initialised d2
    /\ List.map fst p = df_index d2.
Proof.
  intros Hl Hempty Hruns Hconv Hnd d2 p.
  assert (Hnd2 : NoDup (df_index d2)).
  { unfold d2. rewrite (iterated_frame_index to_datetime argsort argsort_perm).
    now rewrite init_columns_index. }
  assert (Hinit : initialised d2).
  { apply (iterated_frame_initialised to_datetime argsort argsort_perm).
    apply init_columns_initialised. }
  destruct (match_run to_datetime argsort h df d mode m start_slot ex inc
              Hl Hempty Hruns Hconv Hnd2 Hinit) as (d_out & Hrun & Hframe & Hann).
  eexists _, _, d_out. split; [exact Hrun|].
  split; [apply lookup_result|].
  split; [exact Hframe|]. split; [exact Hann|].
  split; [exact Hnd2|]. split; [exact Hinit|].
  unfold p, plan_of. destruct (String.eqb m "sku").
  - rewrite sku_plan_labels. apply iterrows_labels.
  - rewrite sequence_plan_labels. apply iterrows_labels.
Qed.



(** The run, row by row: every row of the input table is a row of the
    annotated table, with the outcome that the loop decides for it. *)
Lemma match_rows (h : heap) df d mode m start_slot ex inc :
  h !! df = Some d ->
  DF.empty d = false ->
  runs_as mode d m (normalize_keywords ex) (normalize_keywords inc) ->
  plan_converts
    (plan_of m (normalize_keywords ex) (normalize_keywords inc) start_slot
       (iterated_frame to_datetime argsort m (init_columns d))) ->
  NoDup (df_index d) ->
  let exk := normalize_keywords ex in
  let ink := normalize_keywords inc in
  exists h' out d_out p,
    match_ to_datetime argsort df mode start_slot ex inc h
    = (h', inr (out, summary_of d m start_slot exk ink p))
    /\ h' !! out = Some d_out
    /\ Permutation (df_index d_out) (df_index d)
    /\ NoDup (df_index d_out)
    /\ List.map fst p = df_index d_out
    /\ annotated p d_out
    /\ assigned_slots d_out = plan_slots p
    /\ (forall i o, (i, o) ∈ p -> outcome_for m exk ink (row_of d i) o).
Proof.
  intros Hl Hempty Hruns Hconv Hnd exk ink.
  destruct (match_ok h df d mode m start_slot ex inc Hl Hempty Hruns Hconv Hnd) as
    (h' & out & d_out & Hrun & Hout & Hframe & Hann & Hnd2 & Hinit & Hlabels).
  eexists h', out, d_out, _. split; [exact Hrun|]. split; [exact Hout|].
  rewrite (sf_index _ _ Hframe).
  split.
  { rewrite (iterated_frame_index to_datetime argsort argsort_perm).
    now rewrite init_columns_index. }
  split; [exact Hnd2|]. split; [exact Hlabels|]. split; [exact Hann|].
  split.
  { now apply (annotated_assigned_slots _ _ _ Hlabels Hnd2 Hinit Hframe Hann). }
  intros i o Hin. apply plan_of_outcome in Hin as (row & Hrow & Ho).
  apply list_elem_of_lookup in Hrow as [k Hk].
  destruct (iterated_rows to_datetime argsort argsort_perm _ d k i row Hnd Hk)
    as [_ Hsame].
  exact (outcome_for_same_inputs _ _ _ _ _ _ Hsame Ho).
Qed.

Lemma annotated_slot_inv (p : Plan) d_out i s :
  List.map fst p = df_index d_out -> annotated p d_out ->
  DF.at_get i "slot" d_out = Some (VInt s) ->
  exists m, (i, Assigned m s) ∈ p.
Proof.
  intros Hlabels Hann Hs.
  pose proof (at_get_index _ _ _ _ Hs) as Hi. rewrite <- Hlabels in Hi.
  apply list_elem_of_fmap in Hi as ([j o] & -> & Hin). simpl in *.
  destruct (ann_at_inv _ _ _ (Hann _ _ Hin)) as (Hs' & _).
  rewrite Hs in Hs'. injection Hs' as Hs'.
  destruct o as [| |m n].
  - now destruct (decide _).
  - now destruct (decide _).
  - exists m. assert (n = s) as ->; [|done].
    destruct (decide _); simpl in Hs'; congruence.
Qed.



Lemma index_in_plan (p : Plan) d d_out i :
  Permutation (df_index d_out) (df_index d) ->
  List.map fst p = df_index d_out ->
  i ∈ df_index d -> exists o, (i, o) ∈ p.
Proof.
  intros Hperm Hlabels Hi. rewrite <- Hperm, <- Hlabels in Hi.
  apply list_elem_of_fmap in Hi as ([j o] & -> & Hin). eauto.
Qed.


(** The claim on rows that pass the filter and whose identifier does not
    parse, for a reason code [reason], on the tables with distinct row
    labels on whose identifiers the parser returns. *)
Definition manual_review_claim (reason : string) : Prop :=
  forall (h : heap) df d mode start_slot ex inc i,
    h !! df = Some d ->
    DF.empty d = false ->
    NoDup (df_index d) ->
    resolve_mode mode d = inr "sku" ->
    parser_returns_on d = true ->
    i ∈ df_index d ->
    passes (normalize_keywords ex) (normalize_keywords inc) (row_of d i) = true ->
    parse_sku_to_slot (DF.row_get (row_of d i) "sku" VNone) = inr None ->
    exists h' out summary d_out,
      match_ to_datetime argsort df mode start_slot ex inc h
      = (h', inr (out, summary))
      /\ h' !! out = Some d_out
      /\ DF.at_get i "match_method" d_out = Some (VStr "manual_review")
      /\ DF.at_get i "needs_review" d_out = Some (VBool true)
      /\ DF.at_get i "review_reason" d_out = Some (VStr reason)
      /\ DF.at_get i "slot" d_out = Some VNone.

(** C7, amended. In the identifier strategy, on a table with distinct
    row labels on whose identifiers the parser returns, a row that passes
    the filter and whose identifier does not parse ends with [match_method] [manual_review], [needs_review]
    true, the review reason [sku_missing_or_invalid] and no slot. *)
Theorem manual_review_sku_reason :
  manual_review_claim "sku_missing_or_invalid".
Proof.
  intros h df d mode start_slot ex inc i Hl Hempty Hnd Hmode Hret Hi Hpass Hparse.
  destruct (match_rows h df d mode "sku" start_slot ex inc Hl Hempty
              (runs_as_sku _ _ _ _ Hmode Hret) (plan_converts_sku _ _ _ _) Hnd) as
    (h' & out & d_out & p & Hrun & Hout & Hperm & Hnd' & Hlabels & Hann & _ & Hrows).
  eexists h', out, _, d_out. split; [exact Hrun|]. split; [exact Hout|].
  destruct (index_in_plan p d d_out i Hperm Hlabels Hi) as [o Hin].
  pose proof (Hrows _ _ Hin) as Ho. unfold outcome_for in Ho.
  rewrite Hpass in Ho. simpl in Ho.
  unfold sku_outcome, sku_of, slot_of in Ho. rewrite Hpass, Hparse in Ho. subst o.
  pose proof (Hann _ _ Hin) as Ha.
  rewrite decide_False in Ha.
  - destruct (ann_at_inv _ _ _ Ha) as (Hs & _ & Hm & Hr & He). auto.
  - intros Hf. apply flagged_iff in Hf as (m & s & Hin' & _).
    rewrite <- Hlabels in Hnd'.
    discriminate (NoDup_fst_unique _ _ _ _ Hnd' Hin Hin').
Qed.

(** Without the timestamp step, the annotated table has the columns of
    the input, untouched and in order, followed by the five annotation
    columns. *)
Lemma columns_without_timestamps (h : heap) df d mode m start_slot ex inc :
  h !! df = Some d ->
  DF.empty d = false ->
  runs_as mode d m (normalize_keywords ex) (normalize_keywords inc) ->
  plan_converts
    (plan_of m (normalize_keywords ex) (normalize_keywords inc) start_slot
       (iterated_frame to_datetime argsort m (init_columns d))) ->
  NoDup (df_index d) ->
  no_annotation_column d ->
  m = "sku" \/ sort_keys to_datetime (init_columns d) = None ->
  exists h' out summary d_out,
    match_ to_datetime argsort df mode start_slot ex inc h
    = (h', inr (out, summary))
    /\ h' !! out = Some d_out
    /\ df_index d_out = df_index d
    /\ DF.columns d_out = (DF.columns d ++ annotation_columns)%list
    /\ (forall c, is_annotation c = false ->
                  DF.get_column c d_out = DF.get_column c d).
Proof.
  intros Hl Hempty Hruns Hconv Hnd Hcols Hcase.
  destruct (match_ok h df d mode m start_slot ex inc Hl Hempty Hruns Hconv Hnd) as
    (h' & out & d_out & Hrun & Hout & Hframe & _).
  eexists h', out, _, d_out. split; [exact Hrun|]. split; [exact Hout|].
  assert (E : iterated_frame to_datetime argsort m (init_columns d)
              = init_columns d).
  { unfold iterated_frame. destruct Hcase as [-> | ->]; [reflexivity|].
    now destruct (String.eqb _ "sku"). }
  rewrite E in Hframe. split; [|split].
  - now rewrite (sf_index _ _ Hframe).
  - rewrite (sf_columns _ _ Hframe). now apply columns_init_columns.
  - intros c Hc. rewrite (sf_other _ _ Hframe) by done.
    now apply init_columns_other.
Qed.

(** With the timestamp step, the annotated table has one column more:
    the sort key, after the annotations. *)
Lemma columns_with_timestamps (h : heap) df d mode start_slot ex inc keys :
  h !! df = Some d ->
  DF.empty d = false ->
  NoDup (df_index d) ->
  no_annotation_column d ->
  DF.has_column "_sort_key" d = false ->
  resolve_mode mode d = inr "sequence" ->
  within_str_limit start_slot d ->
  sort_keys to_datetime (init_columns d) = Some keys ->
  exists h' out summary d_out,
    match_ to_datetime argsort df mode start_slot ex inc h
    = (h', inr (out, summary))
    /\ h' !! out = Some d_out
    /\ DF.columns d_out
       = (DF.columns d ++ annotation_columns ++ ["_sort_key"])%list.
Proof.
  intros Hl Hempty Hnd Hcols Hkey Hmode Hwithin Hkeys.
  destruct (match_ok h df d mode "sequence" start_slot ex inc Hl Hempty
              (runs_as_sequence _ _ _ _ Hmode) (plan_converts_sequence to_datetime argsort argsort_perm _ _ _ _ Hwithin) Hnd) as
    (h' & out & d_out & Hrun & Hout & Hframe & _).
  eexists h', out, _, d_out. split; [exact Hrun|]. split; [exact Hout|].
  rewrite (sf_columns _ _ Hframe). unfold iterated_frame. simpl.
  rewrite Hkeys. unfold sorted_frame, keyed_frame.
  rewrite columns_take, columns_set_series.
  assert (E : DF.has_column "_sort_key" (init_columns d) = false).
  { unfold DF.has_column. rewrite init_columns_other by reflexivity.
    exact Hkey. }
  rewrite E, columns_init_columns by done. now rewrite <- app_assoc.
Qed.

End Claims.

(** ** The objects of the caller *)

(** A computation keeps the first [n] objects of the heap as they are,
    and its results satisfy [Q]. *)
Definition keeps (n : nat) {A : Type} (c : SE (list DataFrame) A)
  (Q : A -> Prop) : Prop :=
  forall h : list DataFrame,
    (n <= List.length h)%nat ->
    firstn n (fst (c h)) = firstn n h
    /\ (n <= List.length (fst (c h)))%nat
    /\ (forall a, snd (c h) = inr a -> Q a).

Lemma keeps_ret n {A} (a : A) (Q : A -> Prop) : Q a -> keeps n (ret a) Q.
Proof. intros Ha h Hn. simpl. repeat split; auto. now intros ? [= <-]. Qed.

Lemma keeps_raise n {A} e (Q : A -> Prop) : keeps n (raise e) Q.
Proof. intros h Hn. simpl. repeat split; auto. discriminate. Qed.

Lemma keeps_bind n {A B} (c : SE (list DataFrame) A) (k : A -> SE (list DataFrame) B)
  (Q : A -> Prop) (R : B -> Prop) :
  keeps n c Q -> (forall a, Q a -> keeps n (k a) R) -> keeps n (bind c k) R.
Proof.
  intros Hc Hk h Hn. destruct (Hc h Hn) as (H1 & H2 & H3).
  unfold bind. destruct (c h) as [h1 [e|a]]; simpl in *.
  - repeat split; auto. discriminate.
  - destruct (Hk a (H3 a eq_refl) h1 H2) as (K1 & K2 & K3).
    split; [congruence|]. split; assumption.
Qed.

Lemma keeps_try_except n {A} (c : SE (list DataFrame) A) handler (Q : A -> Prop) :
  keeps n c Q -> (forall e, keeps n (handler e) Q) ->
  keeps n (try_except c handler) Q.
Proof.
  intros Hc Hh h Hn. destruct (Hc h Hn) as (H1 & H2 & H3).
  unfold try_except. destruct (c h) as [h1 [e|a]]; simpl in *.
  - destruct (Hh e h1 H2) as (K1 & K2 & K3).
    split; [congruence|]. split; assumption.
  - repeat split; auto.
Qed.

(** Reading an object changes nothing. *)
Lemma keeps_on_gets n {A} (f : DataFrame -> A) l :
  keeps n (on l (gets f)) (fun _ => True).
Proof.
  intros h Hn. unfold on, gets.
  destruct (h !! l) as [d|] eqn:Hl; simpl.
  - rewrite list_insert_id by done. auto.
  - auto.
Qed.

Lemma keeps_on_call n {A} (f : DataFrame -> exn + A) l :
  keeps n (on l (call f)) (fun _ => True).
Proof.
  intros h Hn. unfold on, call.
  destruct (h !! l) as [d|] eqn:Hl; simpl.
  - rewrite list_insert_id by done. auto.
  - auto.
Qed.

(** Working on an object beyond the first [n] keeps the first [n]. *)
Lemma keeps_on_fresh n {A} (m : SE DataFrame A) l :
  (n <= l)%nat -> keeps n (on l m) (fun _ => True).
Proof.
  intros Hl h Hn. unfold on.
  destruct (h !! l) as [d|] eqn:Hd; simpl; [|auto].
  destruct (m d) as [d' r]. simpl.
  split; [now apply take_insert_ge|]. split; [now rewrite length_insert|auto].
Qed.

Lemma keeps_alloc n d : keeps n (alloc d) (fun l => (n <= l)%nat).
Proof.
  intros h Hn. unfold alloc. simpl.
  split; [now apply take_app_le|].
  split; [rewrite length_app; lia|]. now intros a [= <-].
Qed.

Lemma keeps_df_copy n l : keeps n (df_copy l) (fun l' => (n <= l')%nat).
Proof.
  unfold df_copy. eapply keeps_bind; [apply keeps_on_gets|].
  intros d _. apply keeps_alloc.
Qed.

Section Caller.

Variable to_datetime : list value -> option (list value).
Variable argsort : list value -> list nat.

Lemma keeps_sort_by_timestamp n l :
  (n <= l)%nat ->
  keeps n (sort_by_timestamp to_datetime argsort l) (fun l' => (n <= l')%nat).
Proof.
  intros Hl. unfold sort_by_timestamp.
  eapply keeps_bind; [apply keeps_on_gets|]. intros b _.
  destruct b; [|now apply keeps_ret].
  apply keeps_try_except; [|intros e; now apply keeps_ret].
  eapply keeps_bind; [apply keeps_on_gets|]. intros col _.
  eapply keeps_bind with (Q := fun _ => True).
  { unfold pd_to_datetime. destruct col as [cells|]; [|apply keeps_raise].
    destruct (to_datetime cells); [now apply keeps_ret|apply keeps_raise]. }
  intros keys _.
  eapply keeps_bind; [now apply keeps_on_fresh|]. intros _ _.
  unfold df_sort_values.
  eapply keeps_bind; [apply keeps_on_gets|]. intros d _.
  destruct (DF.get_column "_sort_key" d); [apply keeps_alloc|apply keeps_raise].
Qed.

Lemma keeps_match n df mode start_slot ex inc :
  keeps n (match_ to_datetime argsort df mode start_slot ex inc) (fun _ => True).
Proof.
  unfold match_.
  eapply keeps_bind; [apply keeps_on_gets|]. intros is_empty _.
  destruct is_empty; [apply keeps_raise|].
  eapply keeps_bind with (Q := fun _ => True).
  { destruct (String.eqb mode "auto"); [apply keeps_on_call|now apply keeps_ret]. }
  intros m _. destruct (negb _); [apply keeps_raise|].
  eapply keeps_bind; [apply keeps_df_copy|]. intros l Hl.
  do 5 (eapply keeps_bind; [now apply keeps_on_fresh|]; intros _ _).
  eapply keeps_bind; [apply keeps_on_gets|]. intros total _.
  eapply keeps_bind with (Q := fun r => (n <= fst r)%nat).
  { destruct (String.eqb m "sku").
    - eapply keeps_bind; [now apply keeps_on_fresh|]. intros t _.
      now apply keeps_ret.
    - eapply keeps_bind; [now apply keeps_sort_by_timestamp|]. intros l' Hl'.
      eapply keeps_bind; [now apply keeps_on_fresh|]. intros st _.
      now apply keeps_ret. }
  intros r Hr.
  eapply keeps_bind; [now apply keeps_on_fresh|]. intros dup _.
  now apply keeps_ret.
Qed.

(** C10. A call of the engine, whether it returns or raises, leaves
    every object that the heap held before the call as it was: the input
    table keeps its rows, columns and values, and the annotations are
    made on objects that the call allocates. *)
Theorem input_table_unchanged (h : heap) df mode start_slot ex inc :
  forall l d,
    h !! l = Some d ->
    fst (match_ to_datetime argsort df mode start_slot ex inc h) !! l = Some d.
Proof.
  intros l d Hl.
  destruct (keeps_match (List.length h) df mode start_slot ex inc h (le_n _))
    as (Htake & _ & _).
  rewrite firstn_all in Htake.
  rewrite <- (firstn_skipn (List.length h)
                (fst (match_ to_datetime argsort df mode start_slot ex inc h))).
  rewrite Htake. now apply lookup_app_l_Some.
Qed.

End Caller.

(** ** Rejected calls *)

(** The claim that the engine rejects a start slot that is not positive. *)
Definition rejects_nonpositive_start
  (to_datetime : list value -> option (list value))
  (argsort : list value -> list nat) : Prop :=
  forall (h : heap) df d mode start_slot ex inc,
    h !! df = Some d ->
    start_slot <= 0 ->
    exists e,
      match_ to_datetime argsort df mode start_slot ex inc h = (h, inl e).

Section Rejection.

Variable read_csv : string -> string + DataFrame.
Variable to_datetime : list value -> option (list value).
Variable argsort : list value -> list nat.

(** C8, amended. The engine rejects an empty table and a mode that it
    does not know with a [ValueError], before it copies the table or looks
    at a row: the heap is as before and nothing is returned.  A start slot
    below 1 is rejected by the HTTP endpoint, before it loads the table
    and calls the engine; the engine itself accepts every start slot. *)
Theorem invalid_input_rejected :
  (forall (h : heap) df d mode start_slot ex inc,
      h !! df = Some d ->
      DF.empty d = true ->
      match_ to_datetime argsort df mode start_slot ex inc h
      = (h, inl (ValueError "DataFrame is empty")))
  /\ (forall (h : heap) df d mode start_slot ex inc,
        h !! df = Some d ->
        DF.empty d = false ->
        mode <> "auto" -> mode <> "sku" -> mode <> "sequence" ->
        match_ to_datetime argsort df mode start_slot ex inc h
        = (h, inl (ValueError (invalid_mode_message mode))))
  /\ (forall (h : heap) file_bytes mode start_slot exclude_keywords include_keywords,
        start_slot < 1 ->
        exists status_code,
          match_endpoint read_csv to_datetime argsort file_bytes mode start_slot
            exclude_keywords include_keywords h
          = (h, inl (HTTPException status_code))).
Proof.
  split; [|split].
  - intros h df d mode start_slot ex inc Hl Hempty.
    unfold match_. now rewrite bind_run, (on_gets _ _ _ _ Hl), Hempty.
  - intros h df d mode start_slot ex inc Hl Hempty Ha Hs Hq.
    unfold match_. rewrite bind_run, (on_gets _ _ _ _ Hl), Hempty.
    rewrite bind_run.
    apply String.eqb_neq in Ha, Hs, Hq. rewrite Ha. unfold ret at 1.
    now rewrite Hs, Hq.
  - intros h file_bytes mode start_slot exclude_keywords include_keywords Hstart.
    exists 500%nat. unfold match_endpoint, try_except. rewrite bind_run.
    destruct (negb _); [reflexivity|].
    apply Z.ltb_lt in Hstart. now rewrite Hstart.
Qed.

End Rejection.

(** * Scenarios *)

(** The tables of the scenarios of the specification and of the tests of
    the repository, with the index of [pd.DataFrame] and [read_csv]. *)
Module Scenario.

Definition names (l : list string) : list value := List.map VStr l.

(** Scenario A: identifiers that parse. *)
Definition table_a : DataFrame :=
  mkDF [0; 1; 2]%nat
    [("product name", names ["Item A"; "Item B"; "Item C"]);
     ("sku", names ["ITEM-5"; "ITEM-12"; "ITEM-3"])].

(** Scenario B: a row to exclude, no identifier column. *)
Definition table_b : DataFrame :=
  mkDF [0; 1; 2; 3]%nat
    [("product name", names ["Item A"; "Givy Item"; "Item B"; "Item C"])].

(** Scenario C: the same identifier twice. *)
Definition table_c : DataFrame :=
  mkDF [0; 1]%nat
    [("product name", names ["Item A"; "Item B"]);
     ("sku", names ["ITEM-5"; "ITEM-5"])].

(** Scenario D: four identifiers that parse out of five. *)
Definition table_d : DataFrame :=
  mkDF [0; 1; 2; 3; 4]%nat
    [("sku", names ["ITEM-1"; "ITEM-2"; "ITEM-3"; "ITEM-4"; ""])].

(** [test_sku_missing]: an empty identifier between two that parse. *)
Definition table_missing : DataFrame :=
  mkDF [0; 1; 2]%nat
    [("product name", names ["Item A"; "Item B"; "Item C"]);
     ("sku", names ["ITEM-5"; ""; "ITEM-3"])].

(** [test_sequence_with_timestamp_sorting]: rows out of order. *)
Definition table_times : DataFrame :=
  mkDF [0; 1; 2]%nat
    [("product name", names ["Item C"; "Item A"; "Item B"]);
     ("placed at", names ["2024-01-03 10:00"; "2024-01-01 10:00"; "2024-01-02 10:00"])].

(** A numeric identifier column, as [read_csv] types it. *)
Definition table_numeric : DataFrame :=
  mkDF [0; 1; 2]%nat
    [("product name", names ["Item A"; "Item B"; "Item C"]);
     ("sku", [VInt 0; VInt 1; VInt 2])].

(** A numeric identifier column with two zeros among five identifiers. *)
Definition table_zeros : DataFrame :=
  mkDF [0; 1; 2; 3; 4]%nat
    [("sku", [VInt 0; VInt 0; VInt 1; VInt 2; VInt 3])].

(** Two rows that bear the same label, as the concatenation of two
    tables of one row gives them. *)
Definition table_repeated : DataFrame :=
  mkDF [0; 0]%nat
    [("product name", names ["Item A"; "Givy B"]);
     ("sku", names ["ITEM-5"; "ITEM-9"])].


(** Two rows with the same label, the first without an identifier. *)
Definition table_repeated_missing : DataFrame :=
  mkDF [0; 0]%nat
    [("product name", names ["Item A"; "Item B"]);
     ("sku", names [""; "ITEM-5"])].

(** The rows of [table_times], the first two with the same label. *)
Definition table_repeated_times : DataFrame :=
  mkDF [0; 0; 1]%nat
    [("product name", names ["Item C"; "Item A"; "Item B"]);
     ("placed at", names ["2024-01-03 10:00"; "2024-01-01 10:00"; "2024-01-02 10:00"])].

(** A run of the engine on a heap that holds the table alone. *)
Definition run (d : DataFrame) (mode : string) (start_slot : Z)
  (ex inc : option (list string)) : list DataFrame * (exn + nat * Summary) :=
  match_ Sample.to_datetime Sample.argsort 0%nat mode start_slot ex inc [d].

(** The column of the table that a run returns. *)
Definition result_column (c : string)
  (r : list DataFrame * (exn + nat * Summary)) : option (list value) :=
  match snd r with
  | inr (out, _) =>
      match fst r !! out with
      | Some d => DF.get_column c d
      | None => None
      end
  | inl _ => None
  end.

Definition result_columns (r : list DataFrame * (exn + nat * Summary))
  : option (list string) :=
  match snd r with
  | inr (out, _) =>
      match fst r !! out with
      | Some d => Some (DF.columns d)
      | None => None
      end
  | inl _ => None
  end.

Definition result_summary (r : list DataFrame * (exn + nat * Summary))
  : option Summary :=
  match snd r with
  | inr (_, s) => Some s
  | inl _ => None
  end.

Example scenario_a_slots :
  result_column "slot" (run table_a "sku" 1 None None)
  = Some [VInt 5; VInt 12; VInt 3].
Proof. vm_compute. reflexivity. Qed.

Example scenario_a_summary :
  option_map (fun s => (matched s, needs_review s))
    (result_summary (run table_a "sku" 1 None None))
  = Some (3%nat, 0%nat).
Proof. vm_compute. reflexivity. Qed.

Example scenario_b_slots :
  result_column "slot" (run table_b "sequence" 1 (Some ["givy"]) None)
  = Some [VInt 1; VNone; VInt 2; VInt 3].
Proof. vm_compute. reflexivity. Qed.

Example scenario_b_summary :
  option_map (fun s => (matched s, excluded s))
    (result_summary (run table_b "sequence" 1 (Some ["givy"]) None))
  = Some (3%nat, 1%nat).
Proof. vm_compute. reflexivity. Qed.

Example scenario_c_flags :
  result_column "needs_review" (run table_c "sku" 1 None None)
  = Some [VBool true; VBool true]
  /\ result_column "review_reason" (run table_c "sku" 1 None None)
     = Some [VStr "duplicate_slot"; VStr "duplicate_slot"]
  /\ option_map duplicate_slots (result_summary (run table_c "sku" 1 None None))
     = Some 1%nat.
Proof. vm_compute. auto. Qed.

Example scenario_d_mode : detect_mode table_d = inr "sku".
Proof. vm_compute. reflexivity. Qed.

(** Every write to a label reaches both rows that bear it: after the
    sequence strategy both rows carry the slot of the second. *)
Example repeated_label_slots :
  result_column "slot" (run table_repeated "sequence" 1 None None)
  = Some [VInt 2; VInt 2]
  /\ option_map (fun s => (matched s, duplicate_slots s))
       (result_summary (run table_repeated "sequence" 1 None None))
     = Some (2%nat, 0%nat).
Proof. vm_compute. auto. Qed.

(** In the identifier strategy with the keyword [givy] excluded, the
    first row receives slot 5 and the second is excluded: both rows end
    with slot 5 and the method [excluded], and the summary counts one
    matched row where two carry a slot. *)
Example repeated_label_excluded :
  result_column "slot" (run table_repeated "sku" 1 (Some ["givy"]) None)
  = Some [VInt 5; VInt 5]
  /\ result_column "match_method" (run table_repeated "sku" 1 (Some ["givy"]) None)
     = Some [VStr "excluded"; VStr "excluded"]
  /\ option_map (fun s => (matched s, excluded s))
       (result_summary (run table_repeated "sku" 1 (Some ["givy"]) None))
     = Some (1%nat, 1%nat).
Proof. vm_compute. auto. Qed.

(** The row without an identifier ends with the slot and the method of
    the row that shares its label, which keeps the flag and the reason of
    the first: the summary counts one row to review where two are
    flagged. *)
Example repeated_label_manual_review :
  result_column "slot" (run table_repeated_missing "sku" 1 None None)
  = Some [VInt 5; VInt 5]
  /\ result_column "match_method" (run table_repeated_missing "sku" 1 None None)
     = Some [VStr "sku"; VStr "sku"]
  /\ result_column "needs_review" (run table_repeated_missing "sku" 1 None None)
     = Some [VBool true; VBool true]
  /\ result_column "review_reason" (run table_repeated_missing "sku" 1 None None)
     = Some [VStr "sku_missing_or_invalid"; VStr "sku_missing_or_invalid"]
  /\ option_map needs_review
       (result_summary (run table_repeated_missing "sku" 1 None None))
     = Some 1%nat.
Proof. vm_compute. repeat split. Qed.

(** Sorted by timestamp, the rows labelled 0, 1 and 0 receive the slots
    1, 2 and 3; the third write reaches the first row too, which ends
    with slot 3, before the row of the later timestamp with slot 2. *)
Example repeated_label_timestamps :
  result_column "product name" (run table_repeated_times "sequence" 1 None None)
  = Some (names ["Item A"; "Item B"; "Item C"])
  /\ result_column "slot" (run table_repeated_times "sequence" 1 None None)
     = Some [VInt 3; VInt 2; VInt 3].
Proof. vm_compute. auto. Qed.

(** The digit 1, [n] times. *)
Fixpoint ones (n : nat) : string :=
  match n with
  | O => EmptyString
  | S n' => String "1" (ones n')
  end.

(** The parser converts an identifier of 4300 digits; on one of 4301
    digits [int] raises, and so does a run that parses it. *)
Example long_identifier_raises :
  parser_returns (VStr (ones 4300)) = true
  /\ parse_sku_to_slot (VStr (ones 4301))
     = inl (ValueError (int_limit_message (ones 4301)))
  /\ snd (run (mkDF [0]%nat [("sku", [VStr (ones 4301)])]) "auto" 1 None None)
     = inl (ValueError (int_limit_message (ones 4301))).
Proof. vm_compute. auto. Qed.

(** From the start slot [10 ^ 4300 - 1] the first row receives its slot
    and its label; the slot of the next row that is not excluded has
    4301 digits, and the run ends with the [ValueError] of its
    conversion into the label. *)
Example long_slot_raises :
  result_column "slot"
    (run (mkDF [0]%nat [("product name", names ["Item A"])]) "sequence"
       (int_str_limit - 1) None None)
  = Some [VInt (int_str_limit - 1)]
  /\ snd (run table_b "sequence" (int_str_limit - 1) (Some ["givy"]) None)
     = inl (ValueError str_limit_message).
Proof. vm_compute. auto. Qed.

(** When two rows with the same label receive the same slot, the read
    of [review_reason] in duplicate detection gives a Series, and the
    run ends with the [ValueError] of its truth value. *)
Example repeated_label_duplicate_raises :
  snd (run (mkDF [0; 0]%nat [("sku", names ["ITEM-5"; "ITEM-5"])]) "sku" 1 None None)
  = inl (ValueError ambiguous_truth_message).
Proof. vm_compute. reflexivity. Qed.

Example missing_sku_review :
  result_column "slot" (run table_missing "sku" 1 None None)
  = Some [VInt 5; VNone; VInt 3]
  /\ result_column "review_reason" (run table_missing "sku" 1 None None)
     = Some [VStr ""; VStr "sku_missing_or_invalid"; VStr ""]
  /\ option_map (fun s => (matched s, needs_review s))
       (result_summary (run table_missing "sku" 1 None None))
     = Some (2%nat, 1%nat).
Proof. vm_compute. auto. Qed.

Example timestamps_sorted :
  result_column "product name" (run table_times "sequence" 1 None None)
  = Some (names ["Item A"; "Item B"; "Item C"])
  /\ result_column "slot" (run table_times "sequence" 1 None None)
     = Some [VInt 1; VInt 2; VInt 3].
Proof. vm_compute. auto. Qed.

End Scenario.

(** * The claims on the scenarios *)

Ltac distinct_labels :=
  repeat (apply NoDup_cons_2; [rewrite ?elem_of_cons, elem_of_nil; lia|]);
  apply NoDup_nil_2.

Ltac within_limit := intros; vm_compute; discriminate.









Lemma manual_review_sku_reason_witness :
  exists h' out summary d_out,
    match_ Sample.to_datetime Sample.argsort 0%nat "sku" 1 None None
      [Scenario.table_missing]
    = (h', inr (out, summary))
    /\ h' !! out = Some d_out
    /\ DF.at_get 1%nat "match_method" d_out = Some (VStr "manual_review")
    /\ DF.at_get 1%nat "needs_review" d_out = Some (VBool true)
    /\ DF.at_get 1%nat "review_reason" d_out = Some (VStr "sku_missing_or_invalid")
    /\ DF.at_get 1%nat "slot" d_out = Some VNone.
Proof.
  apply (manual_review_sku_reason Sample.to_datetime Sample.argsort
           Sample.argsort_perm [Scenario.table_missing] 0%nat
           Scenario.table_missing "sku" 1 None None 1%nat).
  - reflexivity.
  - reflexivity.
  - simpl. distinct_labels.
  - reflexivity.
  - reflexivity.
  - simpl. rewrite !elem_of_cons. tauto.
  - reflexivity.
  - reflexivity.
Defined.

(** The claim of C7 with the reason code of the specification fails on
    the table of [test_sku_missing], whose labels are distinct: the row
    with the empty identifier gets the reason [sku_missing_or_invalid]. *)
Lemma manual_review_reason_counterexample :
  ~ manual_review_claim Sample.to_datetime Sample.argsort
      "identifier_missing_or_invalid".
Proof.
  intros H.
  destruct (H [Scenario.table_missing] 0%nat Scenario.table_missing "sku" 1
              None None 1%nat) as (h' & out & summary & d_out & Hrun & Hout & _ & _ & Hreason & _).
  - reflexivity.
  - reflexivity.
  - simpl. distinct_labels.
  - reflexivity.
  - reflexivity.
  - simpl. rewrite !elem_of_cons. tauto.
  - reflexivity.
  - reflexivity.
  - vm_compute in Hrun. injection Hrun as <- <- _.
    vm_compute in Hout. injection Hout as <-.
    vm_compute in Hreason. discriminate Hreason.
Qed.

Lemma invalid_input_rejected_witness :
  match_ Sample.to_datetime Sample.argsort 0%nat "sku" 1 None None
    [mkDF [] [("sku", [])]]
  = ([mkDF [] [("sku", [])]], inl (ValueError "DataFrame is empty"))
  /\ match_ Sample.to_datetime Sample.argsort 0%nat "fifo" 1 None None
       [Scenario.table_a]
     = ([Scenario.table_a], inl (ValueError (invalid_mode_message "fifo")))
  /\ exists status_code,
       match_endpoint (fun _ => inr Scenario.table_a) Sample.to_datetime
         Sample.argsort "" "sequence" 0 "" "" []
       = ([], inl (HTTPException status_code)).
Proof.
  destruct (invalid_input_rejected (fun _ => inr Scenario.table_a)
              Sample.to_datetime Sample.argsort) as (H1 & H2 & H3).
  split; [|split].
  - apply (H1 [mkDF [] [("sku", [])]] 0%nat (mkDF [] [("sku", [])])); reflexivity.
  - apply (H2 [Scenario.table_a] 0%nat Scenario.table_a); [reflexivity|reflexivity| | |];
      discriminate.
  - apply H3. lia.
Defined.

(** The engine accepts the start slot 0: on the table of scenario B it
    returns the slots 0, 1, 2. *)
Lemma nonpositive_start_counterexample :
  ~ rejects_nonpositive_start Sample.to_datetime Sample.argsort.
Proof.
  intros H.
  destruct (H [Scenario.table_b] 0%nat Scenario.table_b "sequence" 0
              (Some ["givy"]) None eq_refl) as [e He]; [lia|].
  vm_compute in He. discriminate He.
Qed.

Example nonpositive_start_accepted :
  Scenario.result_column "slot"
    (Scenario.run Scenario.table_b "sequence" 0 (Some ["givy"]) None)
  = Some [VInt 0; VNone; VInt 1; VInt 2].
Proof. vm_compute. reflexivity. Qed.

Lemma input_table_unchanged_witness :
  fst (match_ Sample.to_datetime Sample.argsort 0%nat "sequence" 1 None None
         [Scenario.table_times]) !! 0%nat
  = Some Scenario.table_times.
Proof.
  apply (input_table_unchanged Sample.to_datetime Sample.argsort
           [Scenario.table_times] 0%nat "sequence" 1 None None 0%nat
           Scenario.table_times).
  reflexivity.
Defined.

(** C4. In auto mode a table with no [sku] column resolves to the
    sequence strategy.  On a table with a [sku] column (and fewer than
    [2 ^ 53] rows, the range in which a count is a binary64 number) on
    whose identifiers the parser returns, and none of whose identifiers
    is a number 0, the code follows the specification: the mode resolves
    to the identifier strategy exactly when the fraction of the rows whose
    identifier parses, in the words of the specification, is at least
    eight tenths, and to the sequence strategy otherwise; the table of
    scenario D, four identifiers that parse out of five, resolves to
    [sku].  On the integer identifiers 0, 0, 1, 2, 3 the code departs
    from the specification: the fraction is five fifths, and the mode
    resolves to the sequence strategy, because the parser returns nothing
    for the number 0. *)
Theorem auto_mode_threshold (d : DataFrame) :
  (DF.get_column "sku" d = None -> resolve_mode "auto" d = inr "sequence")
  /\ (forall col,
        DF.get_column "sku" d = Some col ->
        List.length col = DF.len d ->
        Z.of_nat (DF.len d) < 2 ^ 53 ->
        (forall v, v ∈ col -> parser_returns v = true) ->
        (forall v, v ∈ col -> spec_parses v = true -> py_not v = false) ->
        (resolve_mode "auto" d = inr "sku"
         <-> (8 # 10 <= spec_fraction col (DF.len d))%Q)
        /\ (resolve_mode "auto" d = inr "sequence"
            <-> ~ (8 # 10 <= spec_fraction col (DF.len d))%Q))
  /\ resolve_mode "auto" Scenario.table_d = inr "sku"
  /\ (8 # 10 <= spec_fraction [VInt 0; VInt 0; VInt 1; VInt 2; VInt 3] 5)%Q
  /\ resolve_mode "auto" Scenario.table_zeros = inr "sequence".
Proof.
  split; [|split; [|split; [|split]]].
  - intros Hc. unfold resolve_mode, detect_mode. simpl. rewrite Hc. reflexivity.
  - intros col Hc Hl Hb Hret Hzero.
    change (resolve_mode "auto" d) with (detect_mode d).
    assert (Hall : forallb parser_returns col = true).
    { apply forallb_forall. intros v Hv. apply Hret. now apply list_elem_of_In. }
    rewrite (detect_mode_sku_column d col Hc Hl Hb Hall).
    rewrite (count_parsed_spec col Hret Hzero).
    unfold spec_fraction.
    destruct (Nat.eqb_spec (DF.len d) 0) as [E|Hn].
    + rewrite E.
      pose proof (fraction_empty (List.length (List.filter spec_parses col))) as Hq.
      split; split; intros H; try discriminate; try reflexivity; tauto.
    + rewrite fraction_threshold by lia.
      destruct (Z.leb_spec (4 * Z.of_nat (DF.len d))
                  (5 * Z.of_nat (List.length (List.filter spec_parses col))));
        split; split; intros H'; try discriminate; try reflexivity; lia.
  - vm_compute. reflexivity.
  - vm_compute. discriminate.
  - vm_compute. reflexivity.
Qed.

Lemma auto_mode_threshold_witness :
  DF.get_column "sku" Scenario.table_d
  = Some (Scenario.names ["ITEM-1"; "ITEM-2"; "ITEM-3"; "ITEM-4"; ""])
  /\ (resolve_mode "auto" Scenario.table_d = inr "sku"
      <-> (8 # 10 <= spec_fraction
                       (Scenario.names ["ITEM-1"; "ITEM-2"; "ITEM-3"; "ITEM-4"; ""])
                       5)%Q).
Proof.
  split; [reflexivity|].
  apply (proj1 (proj2 (auto_mode_threshold Scenario.table_d))
           (Scenario.names ["ITEM-1"; "ITEM-2"; "ITEM-3"; "ITEM-4"; ""])).
  - reflexivity.
  - reflexivity.
  - vm_compute. reflexivity.
  - intros v Hv. simpl in Hv. rewrite !elem_of_cons, elem_of_nil in Hv.
    destruct Hv as [->|[->|[->|[->|[->|[]]]]]]; reflexivity.
  - intros v Hv. simpl in Hv. rewrite !elem_of_cons, elem_of_nil in Hv.
    destruct Hv as [->|[->|[->|[->|[->|[]]]]]]; intros Hs;
      first [reflexivity|discriminate Hs].
Defined.

(** The table that a run returns. *)
Definition result_frame (r : list DataFrame * (exn + nat * Summary))
  : option DataFrame :=
  match snd r with
  | inr (out, _) => fst r !! out
  | inl _ => None
  end.

(** C9. On the table of [test_sequence_with_timestamp_sorting] the
    sequence strategy returns eight columns: the two of the input, the
    five annotations and the sort key [_sort_key], which the serialised
    header carries too; the identifier strategy returns the seven columns
    that the claim describes. *)
Theorem sort_key_column_leaks :
  option_map DF.columns
    (result_frame (Scenario.run Scenario.table_times "sequence" 1 None None))
  = Some ["product name"; "placed at"; "slot"; "matched_item_label";
          "match_method"; "needs_review"; "review_reason"; "_sort_key"]
  /\ option_map (fun d => List.hd [] (export_csv d))
       (result_frame (Scenario.run Scenario.table_times "sequence" 1 None None))
     = Some ["product name"; "placed at"; "slot"; "matched_item_label";
             "match_method"; "needs_review"; "review_reason"; "_sort_key"]
  /\ option_map DF.columns
       (result_frame (Scenario.run Scenario.table_times "sku" 1 None None))
     = Some (DF.columns Scenario.table_times ++ annotation_columns)%list.
Proof. vm_compute. auto. Qed.

(** * Further properties of the code *)

(** ** Decimal numerals *)

Module DecimalFacts.
Import Str.

Lemma digit_val_bounds c : is_digit c = true -> 0 <= digit_val c <= 9.
Proof.
  unfold is_digit, digit_val. intros H.
  apply andb_true_iff in H as [H1 H2].
  apply N.leb_le in H1, H2. lia.
Qed.

(** A run of digits denotes a number that is not negative. *)
Lemma int_of_digits_from_nonneg acc s :
  all_chars is_digit s = true -> 0 <= acc -> 0 <= int_of_digits_from acc s.
Proof.
  revert acc. induction s as [|c s IH]; intros acc Hs Hacc; simpl in *; [exact Hacc|].
  apply andb_true_iff in Hs as [Hc Hs]. apply IH; [exact Hs|].
  pose proof (digit_val_bounds c Hc). lia.
Qed.

(** The digits of a numeral of the standard library. *)
Lemma uint_digits d : all_chars is_digit (NilEmpty.string_of_uint d) = true.
Proof. induction d; simpl; auto. Qed.

Lemma int_of_uint_acc d acc :
  int_of_digits_from (Zpos acc) (NilEmpty.string_of_uint d)
  = Zpos (Pos.of_uint_acc d acc).
Proof.
  revert acc. induction d; intros acc; simpl; [reflexivity|..];
    rewrite <- IHd; f_equal; unfold digit_val; simpl; lia.
Qed.

Lemma int_of_uint d :
  int_of_digits_from 0 (NilEmpty.string_of_uint d) = Z.of_N (Pos.of_uint d).
Proof.
  induction d; simpl; [reflexivity|exact IHd|..];
    rewrite <- int_of_uint_acc; reflexivity.
Qed.

(** [str(n)] for a positive integer: a run of digits that denotes it. *)
Lemma of_int_pos p :
  of_int (Zpos p) = NilEmpty.string_of_uint (Pos.to_uint p)
  /\ of_int (Zpos p) <> ""
  /\ int_of_digits_from 0 (of_int (Zpos p)) = Zpos p.
Proof.
  unfold of_int. simpl.
  pose proof (DecimalPos.Unsigned.to_uint_nonnil p) as Hn.
  pose proof (DecimalPos.Unsigned.of_to p) as Hof.
  destruct (Pos.to_uint p) as [|u|u|u|u|u|u|u|u|u|u] eqn:E; [congruence|..];
    (split; [reflexivity|]; split; [discriminate|]);
    change (NilZero.string_of_uint ?d) with (NilEmpty.string_of_uint d);
    rewrite int_of_uint, Hof; reflexivity.
Qed.

(** [str(n)] for an integer that is not negative. *)
Lemma of_int_nonneg n :
  0 <= n ->
  all_chars is_digit (of_int n) = true
  /\ of_int n <> ""
  /\ int_of_digits_from 0 (of_int n) = n.
Proof.
  intros Hn. destruct n as [|p|p]; [| |lia].
  - split; [reflexivity|]. split; [discriminate|reflexivity].
  - destruct (of_int_pos p) as (E & H1 & H2).
    split; [rewrite E; apply uint_digits|]. split; assumption.
Qed.

(** [str(n)] for a negative integer: the sign, then the digits of [-n]. *)
Lemma of_int_neg p : of_int (Zneg p) = String "-" (of_int (Zpos p)).
Proof.
  unfold of_int. simpl. reflexivity.
Qed.

(** The search finds a run of digits that ends the string and that no
    digit precedes. *)
Lemma re_search_digits_suffix pre r :
  no_digit pre = true -> all_chars is_digit r = true -> r <> "" ->
  re_search_digits (pre ++ r) = Some r.
Proof.
  intros Hpre Hr Hne. apply DigitFacts.re_search_digits_run.
  exists pre, "". split.
  - f_equal. clear. induction r as [|c r IH]; simpl; [reflexivity|now rewrite <- IH].
  - auto.
Qed.

End DecimalFacts.

(** [int] on a run of digits that it accepts. *)
Lemma int_of_group_short r :
  (String.length r <= Str.max_str_digits)%nat ->
  int_of_group r = inr (Some (Str.int_of_digits_from 0 r)).
Proof.
  intros Hlen. unfold int_of_group, Str.int_of_digits.
  apply Nat.ltb_ge in Hlen. now rewrite Hlen.
Qed.

(** X1. The parser never returns a negative slot number. *)
Theorem parse_sku_to_slot_nonneg v n :
  parse_sku_to_slot v = inr (Some n) -> 0 <= n.
Proof.
  intros H. destruct (py_not v) eqn:Hv.
  - rewrite (parse_sku_to_slot_falsy v Hv) in H. discriminate.
  - rewrite (parse_sku_to_slot_truthy v Hv) in H.
    destruct (Str.re_search_digits (py_str v)) as [r|] eqn:Hr; [|discriminate].
    unfold int_of_group, Str.int_of_digits in H.
    destruct (Str.max_str_digits <? String.length r)%nat; [discriminate|].
    injection H as <-.
    apply DigitFacts.re_search_digits_run in Hr
      as (pre & post & _ & _ & _ & Hd & _).
    apply DecimalFacts.int_of_digits_from_nonneg; [exact Hd|lia].
Qed.

Lemma parse_sku_to_slot_nonneg_witness :
  parse_sku_to_slot (VStr "ITEM-001") = inr (Some 1) /\ 0 <= 1.
Proof.
  split; [reflexivity|].
  apply (parse_sku_to_slot_nonneg (VStr "ITEM-001") 1). reflexivity.
Defined.

(** X2. The label that the engine writes for a slot parses back to the
    slot: [parse_sku_to_slot(f"Item #{n}")] is [n] for every [n] that is
    not negative and has at most 4300 digits; on the label of a longer
    number the parser raises the [ValueError] of [int]. *)
Theorem item_label_parses_back n :
  0 <= n ->
  parse_sku_to_slot (VStr (item_label n))
  = if (Str.max_str_digits <? String.length (Str.of_int n))%nat
    then inl (ValueError (int_limit_message (Str.of_int n)))
    else inr (Some n).
Proof.
  intros Hn. destruct (DecimalFacts.of_int_nonneg n Hn) as (Hd & Hne & Hv).
  rewrite parse_sku_to_slot_truthy by reflexivity.
  change (py_str (VStr (item_label n))) with ("Item #" ++ Str.of_int n).
  rewrite (DecimalFacts.re_search_digits_suffix "Item #" _ eq_refl Hd Hne).
  unfold int_of_group, Str.int_of_digits.
  destruct (Str.max_str_digits <? String.length (Str.of_int n))%nat;
    [reflexivity|now rewrite Hv].
Qed.

Lemma item_label_parses_back_witness :
  parse_sku_to_slot (VStr (item_label 12)) = inr (Some 12).
Proof. apply (item_label_parses_back 12). lia. Defined.

(** X3. An integer cell other than 0, of at most 4300 digits, parses to
    its absolute value: the sign of a negative identifier is dropped. *)
Theorem integer_identifier_parses_to_abs n :
  n <> 0 ->
  (String.length (Str.of_int (Z.abs n)) <= Str.max_str_digits)%nat ->
  parse_sku_to_slot (VInt n) = inr (Some (Z.abs n)).
Proof.
  intros Hn Hlen.
  rewrite parse_sku_to_slot_truthy by (simpl; now apply Z.eqb_neq).
  change (py_str (VInt n)) with (Str.of_int n).
  destruct n as [|p|p]; [congruence| |].
  - change (Z.abs (Z.pos p)) with (Z.pos p) in *.
    destruct (DecimalFacts.of_int_nonneg (Zpos p)) as (Hd & Hne & Hv); [lia|].
    pose proof (DecimalFacts.re_search_digits_suffix "" _ eq_refl Hd Hne) as E.
    change ("" ++ Str.of_int (Z.pos p)) with (Str.of_int (Z.pos p)) in E.
    rewrite E, (int_of_group_short _ Hlen). simpl. now rewrite Hv.
  - change (Z.abs (Z.neg p)) with (Z.pos p) in *.
    destruct (DecimalFacts.of_int_nonneg (Zpos p)) as (Hd & Hne & Hv); [lia|].
    rewrite DecimalFacts.of_int_neg.
    change (String "-" (Str.of_int (Zpos p))) with ("-" ++ Str.of_int (Zpos p)).
    rewrite (DecimalFacts.re_search_digits_suffix "-" _ eq_refl Hd Hne).
    rewrite (int_of_group_short _ Hlen). simpl. now rewrite Hv.
Qed.

Lemma integer_identifier_parses_to_abs_witness :
  parse_sku_to_slot (VInt (-7)) = inr (Some 7).
Proof.
  apply (integer_identifier_parses_to_abs (-7)).
  - discriminate.
  - unfold Str.max_str_digits. simpl. lia.
Defined.

(** ** Trimming and splitting *)

Module TrimFacts.
Import Str.

Lemma lstrip_head c s : is_space c = false -> lstrip (String c s) = String c s.
Proof. intros H. simpl. now rewrite H. Qed.

(** What [lstrip] returns does not start with white space. *)
Lemma lstrip_starts s :
  match lstrip s with
  | EmptyString => True
  | String c _ => is_space c = false
  end.
Proof.
  induction s as [|c s IH]; simpl; [exact I|].
  destruct (is_space c) eqn:E; [exact IH|exact E].
Qed.

Lemma rstrip_idem s : rstrip (rstrip s) = rstrip s.
Proof.
  induction s as [|c s IH]; simpl; [reflexivity|].
  destruct (rstrip s) as [|c' r] eqn:E.
  - destruct (is_space c) eqn:Ec; simpl; [reflexivity|now rewrite Ec].
  - simpl in IH. simpl. rewrite IH. reflexivity.
Qed.

(** [rstrip] keeps the first character of a string that does not start
    with white space. *)
Lemma rstrip_starts s :
  match s with
  | EmptyString => True
  | String c _ => is_space c = false
  end ->
  match rstrip s with
  | EmptyString => s = EmptyString
  | String c _ => is_space c = false
  end.
Proof.
  destruct s as [|c s]; simpl; [reflexivity|]. intros Hc.
  destruct (rstrip s); [now rewrite Hc|exact Hc].
Qed.

Lemma lstrip_id s :
  match s with
  | EmptyString => True
  | String c _ => is_space c = false
  end -> lstrip s = s.
Proof. destruct s as [|c s]; simpl; [reflexivity|]. now intros ->. Qed.

(** [strip] is idempotent. *)
Lemma strip_idem s : strip (strip s) = strip s.
Proof.
  unfold strip.
  pose proof (rstrip_starts (lstrip s) (lstrip_starts s)) as H.
  rewrite (lstrip_id (rstrip (lstrip s))).
  - apply rstrip_idem.
  - destruct (rstrip (lstrip s)); [exact I|exact H].
Qed.

Lemma lower_empty s : lower s = "" -> s = "".
Proof. destruct s; [reflexivity|discriminate]. Qed.

Lemma app_empty (a b : string) : a ++ b = "" -> a = "" /\ b = "".
Proof. destruct a; simpl; [auto|discriminate]. Qed.

Lemma contains_empty s : contains "" s = true.
Proof. destruct s; reflexivity. Qed.

End TrimFacts.

(** ** The row filter on lists of keywords *)

Lemma should_exclude_row_any row keywords :
  should_exclude_row row keywords = any_keyword_in keywords (product_name_of row).
Proof. now destruct keywords. Qed.

Lemma any_keyword_in_app k1 k2 name :
  any_keyword_in (k1 ++ k2)%list name
  = any_keyword_in k1 name || any_keyword_in k2 name.
Proof.
  induction k1 as [|k k1 IH]; simpl; [reflexivity|].
  now destruct (Str.contains (Str.lower k) name).
Qed.

(** X4. Keyword lists accumulate: a row is excluded by the concatenation of
    two lists exactly when one of them excludes it, and two non-empty
    include lists together include the rows that one of them includes. *)
Theorem keyword_lists_accumulate row k1 k2 :
  should_exclude_row row (k1 ++ k2)%list
  = should_exclude_row row k1 || should_exclude_row row k2
  /\ (k1 <> [] -> k2 <> [] ->
      should_include_row row (k1 ++ k2)%list
      = should_include_row row k1 || should_include_row row k2).
Proof.
  split.
  - rewrite !should_exclude_row_any. apply any_keyword_in_app.
  - intros H1 H2. destruct k1 as [|a k1]; [congruence|].
    destruct k2 as [|b k2]; [congruence|].
    unfold should_include_row.
    change ((a :: k1) ++ b :: k2)%list with (a :: (k1 ++ b :: k2))%list.
    change (any_keyword_in (a :: (k1 ++ b :: k2))%list (product_name_of row))
      with (any_keyword_in ((a :: k1) ++ (b :: k2))%list (product_name_of row)).
    apply any_keyword_in_app.
Qed.

Lemma keyword_lists_accumulate_witness :
  should_include_row [("product name", VStr "Blue Shirt")] (["red"] ++ ["shirt"])%list
  = should_include_row [("product name", VStr "Blue Shirt")] ["red"]
    || should_include_row [("product name", VStr "Blue Shirt")] ["shirt"].
Proof.
  apply (proj2 (keyword_lists_accumulate [("product name", VStr "Blue Shirt")]
                  ["red"] ["shirt"])); discriminate.
Defined.

(** X5. A row without the field [product name] has the empty text: no
    keyword other than the empty one excludes it, and a list of such
    keywords that is not empty does not include it. *)
Theorem missing_product_name_field row keywords :
  DF.assoc "product name" row = None ->
  (forall k, k ∈ keywords -> k <> "") ->
  should_exclude_row row keywords = false
  /\ (keywords <> [] -> should_include_row row keywords = false).
Proof.
  intros Hrow Hk.
  assert (Hno : forall k, k ∈ keywords -> ~ part_ignoring_case k (text_of row)).
  { intros k Hin (pre & post & H). unfold text_of, DF.row_get in H.
    rewrite Hrow in H. simpl in H. symmetry in H.
    apply TrimFacts.app_empty in H as [_ H].
    apply TrimFacts.app_empty in H as [H _].
    apply TrimFacts.lower_empty in H. exact (Hk k Hin H). }
  split.
  - apply not_true_is_false. rewrite should_exclude_row_spec.
    intros (k & Hin & Hp). exact (Hno k Hin Hp).
  - intros Hne. apply not_true_is_false. rewrite should_include_row_spec.
    intros [E|(k & Hin & Hp)]; [congruence|]. exact (Hno k Hin Hp).
Qed.

Lemma missing_product_name_field_witness :
  should_exclude_row [("sku", VStr "ITEM-1")] ["givy"] = false
  /\ (["givy"] <> [] -> should_include_row [("sku", VStr "ITEM-1")] ["givy"] = false).
Proof.
  apply (missing_product_name_field [("sku", VStr "ITEM-1")] ["givy"]).
  - reflexivity.
  - intros k Hk. apply list_elem_of_singleton in Hk. subst k. discriminate.
Defined.

(** X6. A cell of [product name] that is missing (NaN) is filtered as the
    text [nan]: the keywords that exclude the row are those that are part
    of that word. *)
Theorem missing_product_name_cell row keywords :
  DF.assoc "product name" row = Some VNaN ->
  (should_exclude_row row keywords = true
   <-> exists k, k ∈ keywords /\ part_ignoring_case k "nan").
Proof.
  intros Hrow. rewrite should_exclude_row_spec.
  unfold text_of, DF.row_get. rewrite Hrow. reflexivity.
Qed.

Lemma missing_product_name_cell_witness :
  should_exclude_row [("product name", VNaN)] ["NA"] = true
  <-> exists k, k ∈ ["NA"] /\ part_ignoring_case k "nan".
Proof.
  apply (missing_product_name_cell [("product name", VNaN)] ["NA"]).
  reflexivity.
Defined.

(** The empty keyword is part of every text. *)
Lemma blank_keyword_excludes row keywords :
  "" ∈ keywords -> should_exclude_row row keywords = true.
Proof.
  intros Hin. apply should_exclude_row_spec. exists "". split; [exact Hin|].
  exists "", (Str.lower (text_of row)). reflexivity.
Qed.

(** ** The annotated table, column by column *)

(** The annotation that a run leaves on a row of its plan: that of the
    outcome, flagged when the slot is given to another row too. *)
Definition row_ann (p : list (nat * outcome)) (io : nat * outcome) : Ann :=
  if decide (fst io ∈ flagged (plan_usage p []))
  then dup_ann (final_ann (snd io)) else final_ann (snd io).

Lemma annotated_row_ann p d_out io :
  annotated p d_out -> io ∈ p -> ann_at d_out (fst io) = Some (row_ann p io).
Proof. intros Hann Hin. destruct io as [i o]. exact (Hann i o Hin). Qed.

(** An annotation column of the table that a run returns holds, row by
    row, the cells of the annotations of the plan. *)
Lemma annotated_cells p d2 d_out c v (f : Ann -> value) :
  List.map fst p = df_index d2 -> NoDup (df_index d2) ->
  DF.get_column c d2 = Some (repeat v (DF.len d2)) ->
  same_frame d2 d_out -> annotated p d_out ->
  (forall i a, ann_at d_out i = Some a -> DF.at_get i c d_out = Some (f a)) ->
  DF.get_column c d_out = Some (List.map (fun io => f (row_ann p io)) p).
Proof.
  intros Hlabels Hnd Hinit Hframe Hann Hf.
  destruct (sf_length _ _ Hframe _ _ Hinit) as (data & Hdata & Hlen).
  rewrite Hdata. f_equal. apply list_eq. intros k.
  rewrite list_lookup_fmap.
  destruct (p !! k) as [[i o]|] eqn:Hk; simpl.
  - pose proof (plan_lookup_label _ _ _ _ _ Hlabels Hk) as Hi.
    rewrite <- (sf_index _ _ Hframe) in Hi, Hnd.
    rewrite <- (at_get_position _ _ _ _ _ Hnd Hdata Hi).
    assert (Hin : (i, o) ∈ p) by (apply list_elem_of_lookup; eauto).
    apply Hf. exact (Hann i o Hin).
  - apply lookup_ge_None. apply lookup_ge_None in Hk.
    rewrite Hlen, repeat_length. unfold DF.len.
    rewrite <- Hlabels, length_map. exact Hk.
Qed.

(** A row that is flagged carries a slot. *)
Lemma flagged_assigned (p : list (nat * outcome)) i o :
  NoDup (List.map fst p) -> (i, o) ∈ p -> i ∈ flagged (plan_usage p []) ->
  exists m n, o = Assigned m n.
Proof.
  intros Hnd Hin Hf. apply flagged_iff in Hf as (m & n & Hin' & _).
  exists m, n. exact (NoDup_fst_unique _ _ _ _ Hnd Hin Hin').
Qed.

(** The four annotations that a row can end with. *)
Lemma row_ann_cases (p : list (nat * outcome)) i o :
  NoDup (List.map fst p) -> (i, o) ∈ p ->
  row_ann p (i, o) = final_ann o
  \/ exists m n, o = Assigned m n
                 /\ i ∈ flagged (plan_usage p [])
                 /\ row_ann p (i, o)
                    = mkAnn (VInt n) (VStr (item_label n)) (VStr m) (VBool true)
                        (VStr "duplicate_slot").
Proof.
  intros Hnd Hin. unfold row_ann. simpl.
  destruct (decide (i ∈ flagged (plan_usage p []))) as [Hf|Hf]; [|now left].
  right. destruct (flagged_assigned p i o Hnd Hin Hf) as (m & n & ->).
  exists m, n. split; [reflexivity|]. split; [exact Hf|reflexivity].
Qed.

Lemma row_ann_slot p io : a_slot (row_ann p io) = a_slot (final_ann (snd io)).
Proof. unfold row_ann. now destruct (decide _). Qed.

Lemma row_ann_label p io : a_label (row_ann p io) = a_label (final_ann (snd io)).
Proof. unfold row_ann. now destruct (decide _). Qed.

Lemma row_ann_method p io : a_method (row_ann p io) = a_method (final_ann (snd io)).
Proof. unfold row_ann. now destruct (decide _). Qed.

(** ** Counting *)

Lemma filter_all {A} (f : A -> bool) (l : list A) :
  (forall x, x ∈ l -> f x = true) -> List.filter f l = l.
Proof.
  induction l as [|x l IH]; intros H; simpl; [reflexivity|].
  rewrite (H x) by left. f_equal. apply IH. intros y Hy. apply H. now right.
Qed.

Lemma filter_none {A} (f : A -> bool) (l : list A) :
  (forall x, x ∈ l -> f x = false) -> List.filter f l = [].
Proof.
  induction l as [|x l IH]; intros H; simpl; [reflexivity|].
  rewrite (H x) by left. apply IH. intros y Hy. apply H. now right.
Qed.

(** Every row of a plan is assigned, excluded or left to manual review. *)
Lemma outcomes_partition (p : list (nat * outcome)) :
  (List.length (List.filter is_assignment p)
   + List.length (List.filter is_excluded p)
   + List.length (List.filter is_manual p))%nat
  = List.length p.
Proof.
  induction p as [|[i o] p IH]; simpl; [reflexivity|].
  unfold is_assignment, is_excluded, is_manual in *. simpl.
  destruct o; simpl; lia.
Qed.

Lemma filter_length_or {A} (f g : A -> bool) (l : list A) :
  (forall x, x ∈ l -> f x = true -> g x = false) ->
  List.length (List.filter (fun x => f x || g x) l)
  = (List.length (List.filter f l) + List.length (List.filter g l))%nat.
Proof.
  induction l as [|x l IH]; intros H; simpl; [reflexivity|].
  assert (E : List.length (List.filter (fun y => f y || g y) l)
              = (List.length (List.filter f l) + List.length (List.filter g l))%nat)
    by (apply IH; intros y Hy; apply H; now right).
  assert (Hx : f x = true -> g x = false) by (apply H; left).
  destruct (f x) eqn:Ef; simpl.
  - rewrite (Hx eq_refl). simpl. lia.
  - destruct (g x); simpl; lia.
Qed.

Lemma NoDup_concat_filter {A} (f : Z * list A -> bool) (u : list (Z * list A)) :
  NoDup (concat (List.map snd u)) ->
  NoDup (concat (List.map snd (List.filter f u))).
Proof.
  induction u as [|g u IH]; simpl; intros Hnd; [exact Hnd|].
  apply NoDup_app in Hnd as (H1 & H2 & H3).
  destruct (f g); simpl; [|auto].
  apply NoDup_app. split; [exact H1|]. split; [|auto].
  intros x Hx Hin. apply (H2 x Hx).
  apply elem_of_concat in Hin as (l & Hl & Hll).
  apply elem_of_concat. exists l. split; [exact Hl|].
  apply list_elem_of_fmap in Hll as (y & -> & Hy).
  apply list_elem_of_fmap. exists y. split; [reflexivity|].
  apply list_elem_of_In, filter_In in Hy as [Hy _]. now apply list_elem_of_In.
Qed.

Lemma flagged_NoDup (p : list (nat * outcome)) :
  NoDup (List.map fst p) -> NoDup (flagged (plan_usage p [])).
Proof.
  intros Hnd. unfold flagged. apply NoDup_concat_filter.
  now apply plan_usage_all_ids_NoDup.
Qed.

Lemma flagged_label (p : list (nat * outcome)) i :
  i ∈ flagged (plan_usage p []) -> i ∈ List.map fst p.
Proof.
  intros Hf. apply flagged_iff in Hf as (m & n & Hin & _).
  apply list_elem_of_fmap. now exists (i, Assigned m n).
Qed.

(** The rows of a plan that are flagged are as many as the flagged labels. *)
Lemma flagged_count (p : list (nat * outcome)) :
  NoDup (List.map fst p) ->
  List.length (List.filter (fun io => bool_decide (fst io ∈ flagged (plan_usage p []))) p)
  = List.length (flagged (plan_usage p [])).
Proof.
  intros Hnd. set (F := flagged (plan_usage p [])).
  pose proof (filter_length_map (fun i => bool_decide (i ∈ F)) fst p) as E.
  cbv beta in E. rewrite <- E. clear E.
  apply Permutation_length. apply NoDup_Permutation.
  - apply NoDup_ListNoDup. apply List.NoDup_filter. now apply NoDup_ListNoDup.
  - now apply flagged_NoDup.
  - intros i. rewrite (list_elem_of_In _ i), filter_In, <- list_elem_of_In.
    rewrite bool_decide_eq_true. split; [tauto|].
    intros Hi. split; [now apply flagged_label|exact Hi].
Qed.

(** ** Runs of the engine *)

(** In each of the modes that the callers admit, the call runs a
    strategy when the parser returns on the identifiers; the sequence
    strategy, when it is asked for, does not read them. *)
Lemma known_mode_runs mode d ex inc :
  mode = "auto" \/ mode = "sku" \/ mode = "sequence" ->
  mode = "sequence" \/ parser_returns_on d = true ->
  exists m, runs_as mode d m ex inc.
Proof.
  intros [-> | [-> | ->]] Hret.
  - destruct Hret as [Hret|Hret]; [discriminate|].
    destruct (detect_mode_returns d Hret) as (m & Hm & Hv).
    exists m. apply runs_as_intro; auto.
  - destruct Hret as [Hret|Hret]; [discriminate|].
    exists "sku". now apply runs_as_sku.
  - exists "sequence". now apply runs_as_sequence.
Qed.

Lemma plan_of_methods m ex inc start_slot d2 :
  methods_ok (plan_of m ex inc start_slot d2).
Proof.
  unfold plan_of. destruct (String.eqb m "sku").
  - apply sku_plan_methods.
  - apply sequence_plan_methods.
Qed.

(** The number of cells of a column that satisfy a test. *)
Definition column_count (c : string) (f : value -> bool) (d : DataFrame) : nat :=
  match DF.get_column c d with
  | Some cells => List.length (List.filter f cells)
  | None => 0%nat
  end.

Definition is_str (s : string) (v : value) : bool :=
  match v with
  | VStr s' => String.eqb s' s
  | _ => false
  end.

Definition is_true (v : value) : bool :=
  match v with
  | VBool b => b
  | _ => false
  end.

Section Runs.

Variable to_datetime : list value -> option (list value).
Variable argsort : list value -> list nat.
Hypothesis argsort_perm :
  forall keys, Permutation (argsort keys) (seq 0 (List.length keys)).

(** A run on a table with distinct labels, with the plan of its loop and
    the annotation columns that it leaves. *)
Lemma match_table (h : heap) df d mode m start_slot ex inc :
  h !! df = Some d ->
  DF.empty d = false ->
  runs_as mode d m (normalize_keywords ex) (normalize_keywords inc) ->
  plan_converts
    (plan_of m (normalize_keywords ex) (normalize_keywords inc) start_slot
       (iterated_frame to_datetime argsort m (init_columns d))) ->
  NoDup (df_index d) ->
  let exk := normalize_keywords ex in
  let ink := normalize_keywords inc in
  let d2 := iterated_frame to_datetime argsort m (init_columns d) in
  let p := plan_of m exk ink start_slot d2 in
  exists h' out d_out,
    match_ to_datetime argsort df mode start_slot ex inc h
    = (h', inr (out, summary_of d m start_slot exk ink p))
    /\ h' !! out = Some d_out
    /\ same_frame d2 d_out
    /\ Permutation (df_index d_out) (df_index d)
    /\ NoDup (List.map fst p)
    /\ List.map fst p = df_index d_out
    /\ annotated p d_out
    /\ (forall i o, (i, o) ∈ p -> outcome_for m exk ink (row_of d i) o)
    /\ DF.get_column "slot" d_out
       = Some (List.map (fun io => a_slot (row_ann p io)) p)
    /\ DF.get_column "matched_item_label" d_out
       = Some (List.map (fun io => a_label (row_ann p io)) p)
    /\ DF.get_column "match_method" d_out
       = Some (List.map (fun io => a_method (row_ann p io)) p)
    /\ DF.get_column "needs_review" d_out
       = Some (List.map (fun io => a_review (row_ann p io)) p)
    /\ DF.get_column "review_reason" d_out
       = Some (List.map (fun io => a_reason (row_ann p io)) p).
Proof.
  intros Hl Hempty Hruns Hconv Hnd exk ink d2 p.
  destruct (match_ok to_datetime argsort argsort_perm h df d mode m start_slot
              ex inc Hl Hempty Hruns Hconv Hnd)
    as (h' & out & d_out & Hrun & Hout & Hframe & Hann & Hnd2 & Hinit & Hlabels).
  fold exk ink d2 p in Hrun, Hframe, Hann, Hnd2, Hinit, Hlabels.
  exists h', out, d_out.
  split; [exact Hrun|]. split; [exact Hout|]. split; [exact Hframe|].
  split.
  { rewrite (sf_index _ _ Hframe). unfold d2.
    rewrite (iterated_frame_index to_datetime argsort argsort_perm).
    now rewrite init_columns_index. }
  split; [now rewrite Hlabels|].
  split; [now rewrite (sf_index _ _ Hframe)|].
  split; [exact Hann|].
  split.
  { intros i o Hin. apply plan_of_outcome in Hin as (row & Hrow & Ho).
    apply list_elem_of_lookup in Hrow as [k Hk].
    destruct (iterated_rows to_datetime argsort argsort_perm _ d k i row Hnd Hk)
      as [_ Hsame].
    exact (outcome_for_same_inputs _ _ _ _ _ _ Hsame Ho). }
  repeat split.
  - apply (annotated_cells p d2 d_out "slot" VNone a_slot Hlabels Hnd2
             (in_slot _ Hinit) Hframe Hann).
    intros i a Ha. now destruct (ann_at_inv _ _ _ Ha) as (H1 & _).
  - apply (annotated_cells p d2 d_out "matched_item_label" VNone a_label Hlabels Hnd2
             (in_label _ Hinit) Hframe Hann).
    intros i a Ha. now destruct (ann_at_inv _ _ _ Ha) as (_ & H1 & _).
  - apply (annotated_cells p d2 d_out "match_method" VNone a_method Hlabels Hnd2
             (in_method _ Hinit) Hframe Hann).
    intros i a Ha. now destruct (ann_at_inv _ _ _ Ha) as (_ & _ & H1 & _).
  - apply (annotated_cells p d2 d_out "needs_review" (VBool false) a_review Hlabels Hnd2
             (in_review _ Hinit) Hframe Hann).
    intros i a Ha. now destruct (ann_at_inv _ _ _ Ha) as (_ & _ & _ & H1 & _).
  - apply (annotated_cells p d2 d_out "review_reason" (VStr "") a_reason Hlabels Hnd2
             (in_reason _ Hinit) Hframe Hann).
    intros i a Ha. now destruct (ann_at_inv _ _ _ Ha) as (_ & _ & _ & _ & H1).
Qed.

End Runs.

Section RunProperties.

Variable to_datetime : list value -> option (list value).
Variable argsort : list value -> list nat.
Hypothesis argsort_perm :
  forall keys, Permutation (argsort keys) (seq 0 (List.length keys)).

(** X7. On a non-empty table with distinct row labels, a call in one of
    the modes [auto], [sku] and [sequence] returns, whatever the
    keywords, within the limits of the integer conversions: in the modes
    [auto] and [sku] the parser returns on every identifier of the table
    (no first run of more than 4300 digits), and in the modes [auto] and
    [sequence] the slots of the rows from the start slot on have 4300
    digits at most.  The summary names the strategy that was used, never
    [auto]: the given one, or the one that [detect_mode] selects from the
    table alone.  It echoes the number of rows of the input, the start
    slot and the trimmed keywords; the table that is returned has as many
    rows as the input. *)
Theorem match_returns (h : heap) df d mode start_slot ex inc :
  h !! df = Some d ->
  DF.empty d = false ->
  NoDup (df_index d) ->
  mode = "auto" \/ mode = "sku" \/ mode = "sequence" ->
  mode = "sequence" \/ parser_returns_on d = true ->
  mode = "sku" \/ within_str_limit start_slot d ->
  exists h' out summary d_out,
    match_ to_datetime argsort df mode start_slot ex inc h
    = (h', inr (out, summary))
    /\ h' !! out = Some d_out
    /\ (mode_used summary = "sku" \/ mode_used summary = "sequence")
    /\ (if String.eqb mode "auto" then detect_mode d else inr mode)
       = inr (mode_used summary)
    /\ total_rows summary = DF.len d
    /\ DF.len d_out = DF.len d
    /\ start_slot_used summary = start_slot
    /\ exclude_keywords_used summary = normalize_keywords ex
    /\ include_keywords_used summary = normalize_keywords inc.
Proof.
  intros Hl Hempty Hnd Hmode Hret Hwithin.
  destruct (known_mode_runs mode d (normalize_keywords ex) (normalize_keywords inc)
              Hmode Hret) as (m & Hruns).
  pose proof (plan_converts_intro to_datetime argsort argsort_perm m start_slot
                (normalize_keywords ex) (normalize_keywords inc) d
                (proj1 (proj2 Hruns))
                (resolved_within_str_limit _ _ _ _ (proj1 Hruns) Hwithin)) as Hconv.
  destruct (match_table to_datetime argsort argsort_perm h df d mode m start_slot
              ex inc Hl Hempty Hruns Hconv Hnd)
    as (h' & out & d_out & Hrun & Hout & Hframe & Hperm & _).
  eexists h', out, _, d_out. split; [exact Hrun|]. split; [exact Hout|].
  unfold summary_of. simpl.
  destruct Hruns as (Hres & Hvalid & _).
  split.
  { unfold valid_mode in Hvalid. apply orb_true_iff in Hvalid as [E|E];
      apply String.eqb_eq in E; auto. }
  split; [exact Hres|].
  split; [reflexivity|].
  split; [unfold DF.len; now rewrite (Permutation_length Hperm)|].
  auto.
Qed.

(** X8. After a run on a table with distinct row labels (in the
    identifier strategy, a table on whose identifiers the parser returns;
    in the sequence strategy, from a start slot from which the slots of
    the rows have 4300 digits at most), the counters of the summary count
    the rows of the table that is returned: [matched] the rows with a
    slot, [excluded] the rows with the method [excluded]; together with
    the rows left to manual review they are all the rows. *)
Theorem summary_counts_the_rows (h : heap) df d mode m start_slot ex inc :
  h !! df = Some d ->
  DF.empty d = false ->
  NoDup (df_index d) ->
  resolve_mode mode d = inr m ->
  valid_mode m = true ->
  (m = "sku" -> parser_returns_on d = true) ->
  (m = "sequence" -> within_str_limit start_slot d) ->
  exists h' out summary d_out,
    match_ to_datetime argsort df mode start_slot ex inc h
    = (h', inr (out, summary))
    /\ h' !! out = Some d_out
    /\ matched summary = column_count "slot" (fun v => negb (isna v)) d_out
    /\ excluded summary = column_count "match_method" (is_str "excluded") d_out
    /\ (matched summary + excluded summary
        + column_count "match_method" (is_str "manual_review") d_out)%nat
       = total_rows summary.
Proof.
  intros Hl Hempty Hnd Hres Hvalid Hret Hwithin.
  destruct (match_table to_datetime argsort argsort_perm h df d mode m start_slot
              ex inc Hl Hempty (runs_as_intro _ _ _ _ _ Hres Hvalid Hret)
              (plan_converts_intro to_datetime argsort argsort_perm _ _ _ _ _ Hvalid Hwithin) Hnd)
    as (h' & out & d_out & Hrun & Hout & Hframe & Hperm & Hndp & Hlabels & Hann
        & Hrows & Hslot & _ & Hmethod & _).
  set (p := plan_of m (normalize_keywords ex)
              (normalize_keywords inc) start_slot
              (iterated_frame to_datetime argsort m (init_columns d))) in *.
  eexists h', out, _, d_out. split; [exact Hrun|]. split; [exact Hout|].
  destruct (tally_plan_counts p initial_tally) as (H1 & H2 & H3).
  pose proof (plan_of_methods m (normalize_keywords ex)
                (normalize_keywords inc) start_slot
                (iterated_frame to_datetime argsort m (init_columns d))) as Hmeth.
  fold p in Hmeth.
  assert (Hs : column_count "slot" (fun v => negb (isna v)) d_out
               = List.length (List.filter is_assignment p)).
  { unfold column_count. rewrite Hslot, filter_length_map.
    apply filter_length_ext. intros [i o] _. rewrite row_ann_slot.
    now destruct o. }
  assert (He : column_count "match_method" (is_str "excluded") d_out
               = List.length (List.filter is_excluded p)).
  { unfold column_count. rewrite Hmethod, filter_length_map.
    apply filter_length_ext. intros [i o] Hin. rewrite row_ann_method.
    destruct o as [| |m' n]; try reflexivity.
    simpl. destruct (Hmeth _ _ _ Hin) as [-> | ->]; reflexivity. }
  assert (Hm : column_count "match_method" (is_str "manual_review") d_out
               = List.length (List.filter is_manual p)).
  { unfold column_count. rewrite Hmethod, filter_length_map.
    apply filter_length_ext. intros [i o] Hin. rewrite row_ann_method.
    destruct o as [| |m' n]; try reflexivity.
    simpl. destruct (Hmeth _ _ _ Hin) as [-> | ->]; reflexivity. }
  unfold summary_of. simpl. rewrite H1, H2, Hs, He, Hm. simpl.
  split; [reflexivity|]. split; [reflexivity|].
  rewrite outcomes_partition.
  rewrite <- (length_map fst p), Hlabels. unfold DF.len.
  apply Permutation_length. exact Hperm.
Qed.

(** X9. After a run on a table with distinct row labels (in the
    identifier strategy, a table on whose identifiers the parser returns;
    in the sequence strategy, from a start slot from which the slots of
    the rows have 4300 digits at most), the counter [needs_review] of the
    summary is the number of rows of the returned table whose cell
    [needs_review] is true. *)
Theorem needs_review_counts_the_rows (h : heap) df d mode m start_slot ex inc :
  h !! df = Some d ->
  DF.empty d = false ->
  NoDup (df_index d) ->
  resolve_mode mode d = inr m ->
  valid_mode m = true ->
  (m = "sku" -> parser_returns_on d = true) ->
  (m = "sequence" -> within_str_limit start_slot d) ->
  exists h' out summary d_out,
    match_ to_datetime argsort df mode start_slot ex inc h
    = (h', inr (out, summary))
    /\ h' !! out = Some d_out
    /\ needs_review summary = column_count "needs_review" is_true d_out.
Proof.
  intros Hl Hempty Hnd Hres Hvalid Hret Hwithin.
  destruct (match_table to_datetime argsort argsort_perm h df d mode m start_slot
              ex inc Hl Hempty (runs_as_intro _ _ _ _ _ Hres Hvalid Hret)
              (plan_converts_intro to_datetime argsort argsort_perm _ _ _ _ _ Hvalid Hwithin) Hnd)
    as (h' & out & d_out & Hrun & Hout & Hframe & Hperm & Hndp & Hlabels & Hann
        & Hrows & _ & _ & _ & Hreview & _).
  set (p := plan_of m (normalize_keywords ex)
              (normalize_keywords inc) start_slot
              (iterated_frame to_datetime argsort m (init_columns d))) in *.
  eexists h', out, _, d_out. split; [exact Hrun|]. split; [exact Hout|].
  destruct (tally_plan_counts p initial_tally) as (_ & _ & H3).
  unfold summary_of. simpl. rewrite H3, slot_usage_tally_plan. simpl.
  unfold column_count. rewrite Hreview, filter_length_map.
  rewrite <- (flagged_count p Hndp).
  rewrite <- filter_length_or.
  - apply filter_length_ext. intros [i o] Hin. unfold row_ann. simpl.
    destruct (decide (i ∈ flagged (plan_usage p []))) as [Hf|Hf].
    + rewrite (bool_decide_eq_true_2 _ Hf). now rewrite orb_true_r.
    + rewrite (bool_decide_eq_false_2 _ Hf), orb_false_r. now destruct o.
  - intros [i o] Hin Hman. apply bool_decide_eq_false_2. intros Hf.
    destruct (flagged_assigned p i o Hndp Hin Hf) as (m' & n & ->).
    discriminate Hman.
Qed.

End RunProperties.

(** ** The rows of the annotated table *)

Lemma index_in_plan' (p : list (nat * outcome)) (index : list nat) i :
  List.map fst p = index -> i ∈ index -> exists o, (i, o) ∈ p.
Proof.
  intros <- Hi. apply list_elem_of_fmap in Hi as ([j o] & -> & Hin). eauto.
Qed.

Lemma over_assigned_NoDup (slots : list Z) :
  List.NoDup slots -> over_assigned slots = [].
Proof.
  intros Hnd. unfold over_assigned. apply filter_none. intros s _.
  apply Nat.ltb_ge. now apply (proj1 (List.NoDup_count_occ Z.eq_dec slots)).
Qed.

Lemma counting_up_NoDup (start : Z) n :
  List.NoDup (List.map (fun k => start + Z.of_nat k) (seq 0 n)).
Proof.
  apply NoDup_ListNoDup.
  assert (Hinj : Inj eq eq (fun k => start + Z.of_nat k)) by (intros a b; lia).
  apply (NoDup_fmap_2 _), NoDup_seq.
Qed.

(** The sequence strategy gives no slot twice: nothing is flagged. *)
Lemma sequence_plan_unflagged ex inc cur rows :
  List.filter is_dup_group (plan_usage (sequence_plan ex inc cur rows) []) = []
  /\ flagged (plan_usage (sequence_plan ex inc cur rows) []) = [].
Proof.
  assert (H : List.filter is_dup_group
                (plan_usage (sequence_plan ex inc cur rows) []) = []).
  { apply length_zero_iff_nil. rewrite dup_groups_count.
    rewrite sequence_plan_slots, over_assigned_NoDup; [reflexivity|].
    apply counting_up_NoDup. }
  split; [exact H|]. unfold flagged. now rewrite H.
Qed.



Section RowProperties.

Variable to_datetime : list value -> option (list value).
Variable argsort : list value -> list nat.
Hypothesis argsort_perm :
  forall keys, Permutation (argsort keys) (seq 0 (List.length keys)).

(** X10. Every row of the table that a run on a table with distinct row
    labels returns (in the identifier strategy, a table on whose
    identifiers the parser returns; in the sequence strategy, from a
    start slot from which the slots of the rows have 4300 digits at most)
    ends in one of four states: excluded; left to manual review for its
    identifier; given a slot, with the label of that slot and the
    strategy as method, and not to review; or the same with
    [needs_review] true and the reason [duplicate_slot].  A row needs
    review exactly when it has a reason, and no reason is ever joined to
    another one. *)
Theorem rows_end_in_four_states (h : heap) df d mode m start_slot ex inc :
  h !! df = Some d ->
  DF.empty d = false ->
  NoDup (df_index d) ->
  resolve_mode mode d = inr m ->
  valid_mode m = true ->
  (m = "sku" -> parser_returns_on d = true) ->
  (m = "sequence" -> within_str_limit start_slot d) ->
  exists h' out summary d_out,
    match_ to_datetime argsort df mode start_slot ex inc h
    = (h', inr (out, summary))
    /\ h' !! out = Some d_out
    /\ forall i, i ∈ df_index d ->
         ann_at d_out i
         = Some (mkAnn VNone VNone (VStr "excluded") (VBool false) (VStr ""))
         \/ ann_at d_out i
            = Some (mkAnn VNone VNone (VStr "manual_review") (VBool true)
                      (VStr "sku_missing_or_invalid"))
         \/ exists n,
              ann_at d_out i
              = Some (mkAnn (VInt n) (VStr (item_label n))
                        (VStr (mode_used summary)) (VBool false) (VStr ""))
              \/ ann_at d_out i
                 = Some (mkAnn (VInt n) (VStr (item_label n))
                           (VStr (mode_used summary)) (VBool true)
                           (VStr "duplicate_slot")).
Proof.
  intros Hl Hempty Hnd Hres Hvalid Hret Hwithin.
  destruct (match_table to_datetime argsort argsort_perm h df d mode m start_slot
              ex inc Hl Hempty (runs_as_intro _ _ _ _ _ Hres Hvalid Hret)
              (plan_converts_intro to_datetime argsort argsort_perm _ _ _ _ _ Hvalid Hwithin) Hnd)
    as (h' & out & d_out & Hrun & Hout & Hframe & Hperm & Hndp & Hlabels & Hann
        & Hrows & _).
  set (p := plan_of m (normalize_keywords ex) (normalize_keywords inc) start_slot
              (iterated_frame to_datetime argsort m (init_columns d))) in *.
  eexists h', out, _, d_out. split; [exact Hrun|]. split; [exact Hout|].
  intros i Hi. unfold summary_of. simpl.
  assert (Hi' : i ∈ df_index d_out) by now rewrite Hperm.
  destruct (index_in_plan' p _ i Hlabels Hi') as [o Hin].
  assert (Ha : ann_at d_out i = Some (row_ann p (i, o))) by exact (Hann i o Hin).
  rewrite Ha.
  assert (Hm : forall m' n, o = Assigned m' n -> m' = m).
  { intros m' n ->. pose proof (Hrows _ _ Hin) as Ho. unfold outcome_for in Ho.
    destruct (passes _ _ _); [|discriminate].
    destruct (String.eqb m "sku") eqn:E.
    - apply String.eqb_eq in E. unfold sku_outcome in Ho.
      destruct (passes _ _ _); [|discriminate].
      destruct (slot_of _); [|discriminate]. congruence.
    - destruct Ho as [n' Ho]. injection Ho as -> _.
      unfold valid_mode in Hvalid. rewrite E in Hvalid.
      simpl in Hvalid. apply String.eqb_eq in Hvalid. now rewrite Hvalid. }
  destruct (row_ann_cases p i o Hndp Hin) as [-> | (m' & n & -> & _ & ->)].
  - destruct o as [| |m' n]; simpl; [now left|right; now left|].
    right. right. exists n. left. now rewrite (Hm m' n eq_refl).
  - right. right. exists n. right. now rewrite (Hm m' n eq_refl).
Qed.

(** X11. On a table with distinct row labels, from a start slot from
    which the slots of the rows have 4300 digits at most, the sequence
    strategy leaves nothing to review: no slot is given twice, no row is
    flagged, and every row is either matched or excluded. *)
Theorem sequence_leaves_nothing_to_review (h : heap) df d mode start_slot ex inc :
  h !! df = Some d ->
  DF.empty d = false ->
  NoDup (df_index d) ->
  resolve_mode mode d = inr "sequence" ->
  within_str_limit start_slot d ->
  exists h' out summary d_out,
    match_ to_datetime argsort df mode start_slot ex inc h
    = (h', inr (out, summary))
    /\ h' !! out = Some d_out
    /\ needs_review summary = 0%nat
    /\ duplicate_slots summary = 0%nat
    /\ (matched summary + excluded summary)%nat = total_rows summary
    /\ forall i, i ∈ df_index d ->
         DF.at_get i "needs_review" d_out = Some (VBool false)
         /\ DF.at_get i "review_reason" d_out = Some (VStr "").
Proof.
  intros Hl Hempty Hnd Hmode Hwithin.
  destruct (match_table to_datetime argsort argsort_perm h df d mode "sequence"
              start_slot ex inc Hl Hempty (runs_as_sequence _ _ _ _ Hmode)
              (plan_converts_sequence to_datetime argsort argsort_perm _ _ _ _ Hwithin) Hnd) as
    (h' & out & d_out & Hrun & Hout & Hframe & Hperm & Hndp & Hlabels & Hann
     & Hrows & _).
  set (d2 := iterated_frame to_datetime argsort "sequence" (init_columns d)) in *.
  set (exk := normalize_keywords ex) in *.
  set (ink := normalize_keywords inc) in *.
  assert (Hp : plan_of "sequence" exk ink start_slot d2
               = sequence_plan exk ink start_slot (DF.iterrows d2)) by reflexivity.
  rewrite Hp in *.
  set (p := sequence_plan exk ink start_slot (DF.iterrows d2)) in *.
  destruct (sequence_plan_unflagged exk ink start_slot (DF.iterrows d2))
    as [Hgroups Hflagged].
  fold p in Hgroups, Hflagged.
  destruct (tally_plan_counts p initial_tally) as (H1 & H2 & H3).
  assert (Hman : List.filter is_manual p = []).
  { apply filter_none. intros [i o] Hin.
    destruct (sequence_plan_outcome _ _ _ _ _ _ Hin) as (row & _ & Ho).
    destruct (passes exk ink row); [destruct Ho as [n ->]|subst o]; reflexivity. }
  eexists h', out, _, d_out. split; [exact Hrun|]. split; [exact Hout|].
  unfold summary_of. simpl.
  rewrite H1, H2, H3, slot_usage_tally_plan, Hman. simpl.
  rewrite Hgroups, Hflagged. simpl.
  split; [reflexivity|]. split; [reflexivity|]. split.
  - pose proof (outcomes_partition p) as Hpart. rewrite Hman in Hpart.
    simpl in Hpart. rewrite Nat.add_0_r in Hpart. rewrite Hpart.
    rewrite <- (length_map fst p), Hlabels. unfold DF.len.
    apply Permutation_length. exact Hperm.
  - intros i Hi.
    assert (Hi' : i ∈ df_index d_out) by now rewrite Hperm.
    destruct (index_in_plan' p _ i Hlabels Hi') as [o Hin].
    pose proof (Hann i o Hin) as Ha. rewrite Hflagged in Ha.
    rewrite decide_False in Ha by apply not_elem_of_nil.
    destruct (ann_at_inv _ _ _ Ha) as (_ & _ & _ & Hr & He).
    rewrite Hr, He.
    destruct (sequence_plan_outcome _ _ _ _ _ _ Hin) as (row & _ & Ho).
    destruct (passes exk ink row); [destruct Ho as [n ->]|subst o]; auto.
Qed.

(** X12. The identifier strategy does not read the start slot: on a table
    with distinct row labels on whose identifiers the parser returns, two
    runs that differ in the start slot only return tables with the same
    rows, columns and cells, and summaries that differ in the echo of the
    start slot only. *)
Theorem sku_mode_ignores_start_slot (h : heap) df d mode s1 s2 ex inc :
  h !! df = Some d ->
  DF.empty d = false ->
  NoDup (df_index d) ->
  resolve_mode mode d = inr "sku" ->
  parser_returns_on d = true ->
  exists h1 out1 sum1 d1 h2 out2 sum2 d2,
    match_ to_datetime argsort df mode s1 ex inc h = (h1, inr (out1, sum1))
    /\ h1 !! out1 = Some d1
    /\ match_ to_datetime argsort df mode s2 ex inc h = (h2, inr (out2, sum2))
    /\ h2 !! out2 = Some d2
    /\ df_index d1 = df_index d2
    /\ DF.columns d1 = DF.columns d2
    /\ (forall i c, DF.at_get i c d1 = DF.at_get i c d2)
    /\ (matched sum1, excluded sum1, needs_review sum1, duplicate_slots sum1)
       = (matched sum2, excluded sum2, needs_review sum2, duplicate_slots sum2).
Proof.
  intros Hl Hempty Hnd Hmode Hret.
  destruct (match_table to_datetime argsort argsort_perm h df d mode "sku" s1
              ex inc Hl Hempty (runs_as_sku _ _ _ _ Hmode Hret)
              (plan_converts_sku _ _ _ _) Hnd) as
    (h1 & out1 & d1 & Hrun1 & Hout1 & Hframe1 & _ & _ & _ & _ & _
     & A1 & A2 & A3 & A4 & A5).
  destruct (match_table to_datetime argsort argsort_perm h df d mode "sku" s2
              ex inc Hl Hempty (runs_as_sku _ _ _ _ Hmode Hret)
              (plan_converts_sku _ _ _ _) Hnd) as
    (h2 & out2 & d2 & Hrun2 & Hout2 & Hframe2 & _ & _ & _ & _ & _
     & B1 & B2 & B3 & B4 & B5).
  change (plan_of "sku" (normalize_keywords ex) (normalize_keywords inc) s2
            (iterated_frame to_datetime argsort "sku" (init_columns d)))
    with (plan_of "sku" (normalize_keywords ex) (normalize_keywords inc) s1
            (iterated_frame to_datetime argsort "sku" (init_columns d))) in *.
  eexists h1, out1, _, d1, h2, out2, _, d2.
  split; [exact Hrun1|]. split; [exact Hout1|].
  split; [exact Hrun2|]. split; [exact Hout2|].
  split; [now rewrite (sf_index _ _ Hframe1), (sf_index _ _ Hframe2)|].
  split; [now rewrite (sf_columns _ _ Hframe1), (sf_columns _ _ Hframe2)|].
  split; [|reflexivity].
  intros i c. unfold DF.at_get.
  rewrite (sf_index _ _ Hframe1), (sf_index _ _ Hframe2).
  assert (Hc : DF.get_column c d1 = DF.get_column c d2).
  { destruct (is_annotation c) eqn:Hc.
    - apply is_annotation_cases in Hc.
      destruct Hc as [-> | [-> | [-> | [-> | ->]]]]; congruence.
    - now rewrite (sf_other _ _ Hframe1), (sf_other _ _ Hframe2). }
  now rewrite Hc.
Qed.

End RowProperties.

(** ** The cells and the columns of the input *)

Lemma sort_keys_init_columns to_datetime d :
  sort_keys to_datetime (init_columns d) = sort_keys to_datetime d.
Proof. unfold sort_keys. now rewrite init_columns_other. Qed.

Section CellProperties.

Variable to_datetime : list value -> option (list value).
Variable argsort : list value -> list nat.
Hypothesis argsort_perm :
  forall keys, Permutation (argsort keys) (seq 0 (List.length keys)).

(** A cell of the input, in a column that is neither an annotation nor
    the sort key, is a cell of the frame that the loop iterates, at the
    same label. *)
Lemma iterated_frame_cell m d i c v :
  NoDup (df_index d) ->
  is_annotation c = false -> c <> "_sort_key" ->
  DF.at_get i c d = Some v ->
  DF.at_get i c (iterated_frame to_datetime argsort m (init_columns d)) = Some v.
Proof.
  intros Hnd Hc Hs Hv.
  assert (Hplain : DF.at_get i c (init_columns d) = Some v).
  { unfold DF.at_get in *. now rewrite init_columns_index, init_columns_other. }
  unfold iterated_frame. destruct (String.eqb m "sku"); [exact Hplain|].
  destruct (sort_keys to_datetime (init_columns d)) as [keys|]; [|exact Hplain].
  clear Hplain. unfold DF.at_get in Hv.
  destruct (DF.get_loc i (df_index d)) as [q|] eqn:Hq; [|discriminate].
  destruct (DF.get_column c d) as [data|] eqn:Hdata; [|discriminate].
  apply DFFacts.get_loc_lookup in Hq.
  set (perm := argsort (key_column keys (init_columns d))).
  assert (Hqin : q ∈ perm).
  { unfold perm. rewrite argsort_perm, key_column_length.
    apply list_elem_of_In, in_seq. apply lookup_lt_Some in Hq.
    unfold DF.len. rewrite init_columns_index. lia. }
  apply list_elem_of_lookup in Hqin as [k Hk].
  assert (Hnd2 : NoDup (df_index (sorted_frame argsort keys (init_columns d)))).
  { rewrite (sorted_frame_index argsort argsort_perm). now rewrite init_columns_index. }
  assert (Hik : df_index (sorted_frame argsort keys (init_columns d)) !! k = Some i).
  { unfold sorted_frame, DF.take. simpl. fold perm.
    rewrite list_lookup_fmap, Hk. simpl. f_equal. now apply lookup_nth. }
  unfold DF.at_get. rewrite (DFFacts.get_loc_NoDup _ _ _ Hnd2 Hik).
  unfold sorted_frame. rewrite DFFacts.get_column_take.
  unfold keyed_frame. rewrite DFFacts.get_column_set_series.
  rewrite decide_False by congruence.
  rewrite init_columns_other, Hdata by done. simpl. fold perm.
  rewrite list_lookup_fmap, Hk. simpl. f_equal. now apply lookup_nth.
Qed.

(** X13. On a table with distinct row labels (in the identifier strategy,
    a table on whose identifiers the parser returns; in the sequence
    strategy, from a start slot from which the slots of the rows have
    4300 digits at most), the table that a run returns has the rows of
    the input, each under its label (in the order of the input when the
    identifier strategy is used), and every cell of the input in a column
    that is neither an annotation nor [_sort_key] stands unchanged in
    it. *)
Theorem input_cells_are_kept (h : heap) df d mode m start_slot ex inc :
  h !! df = Some d ->
  DF.empty d = false ->
  NoDup (df_index d) ->
  resolve_mode mode d = inr m ->
  valid_mode m = true ->
  (m = "sku" -> parser_returns_on d = true) ->
  (m = "sequence" -> within_str_limit start_slot d) ->
  exists h' out summary d_out,
    match_ to_datetime argsort df mode start_slot ex inc h
    = (h', inr (out, summary))
    /\ h' !! out = Some d_out
    /\ Permutation (df_index d_out) (df_index d)
    /\ (mode_used summary = "sku" -> df_index d_out = df_index d)
    /\ forall i c v,
         is_annotation c = false -> c <> "_sort_key" ->
         DF.at_get i c d = Some v -> DF.at_get i c d_out = Some v.
Proof.
  intros Hl Hempty Hnd Hres Hvalid Hret Hwithin.
  destruct (match_table to_datetime argsort argsort_perm h df d mode m start_slot
              ex inc Hl Hempty (runs_as_intro _ _ _ _ _ Hres Hvalid Hret)
              (plan_converts_intro to_datetime argsort argsort_perm _ _ _ _ _ Hvalid Hwithin) Hnd)
    as (h' & out & d_out & Hrun & Hout & Hframe & Hperm & _).
  eexists h', out, _, d_out. split; [exact Hrun|]. split; [exact Hout|].
  split; [exact Hperm|]. unfold summary_of. simpl. split.
  - intros Hm. rewrite (sf_index _ _ Hframe), Hm. reflexivity.
  - intros i c v Hc Hs Hv.
    pose proof (iterated_frame_cell m d i c v Hnd Hc Hs Hv) as H2.
    unfold DF.at_get in *.
    now rewrite (sf_index _ _ Hframe), (sf_other _ _ Hframe).
Qed.

(** X14. The columns of the table that a run returns, for an input with
    distinct row labels (in the identifier strategy, on whose identifiers
    the parser returns; in the sequence strategy, from a start slot from
    which the slots of the rows have 4300 digits at most) that has no
    column named as an annotation or [_sort_key]: the columns of the
    input, the five annotations and, when the sequence strategy sorted
    the rows by timestamp, the column [_sort_key]. *)
Theorem columns_of_the_result (h : heap) df d mode m start_slot ex inc :
  h !! df = Some d ->
  DF.empty d = false ->
  NoDup (df_index d) ->
  resolve_mode mode d = inr m ->
  valid_mode m = true ->
  (m = "sku" -> parser_returns_on d = true) ->
  (m = "sequence" -> within_str_limit start_slot d) ->
  no_annotation_column d ->
  DF.has_column "_sort_key" d = false ->
  exists h' out summary d_out,
    match_ to_datetime argsort df mode start_slot ex inc h
    = (h', inr (out, summary))
    /\ h' !! out = Some d_out
    /\ DF.columns d_out
       = (DF.columns d ++ annotation_columns
          ++ if String.eqb (mode_used summary) "sku" then []
             else match sort_keys to_datetime d with
                  | Some _ => ["_sort_key"]
                  | None => []
                  end)%list.
Proof.
  intros Hl Hempty Hnd Hres Hvalid Hret Hwithin Hcols Hkey.
  destruct (match_table to_datetime argsort argsort_perm h df d mode m start_slot
              ex inc Hl Hempty (runs_as_intro _ _ _ _ _ Hres Hvalid Hret)
              (plan_converts_intro to_datetime argsort argsort_perm _ _ _ _ _ Hvalid Hwithin) Hnd)
    as (h' & out & d_out & Hrun & Hout & Hframe & _).
  eexists h', out, _, d_out. split; [exact Hrun|]. split; [exact Hout|].
  unfold summary_of. cbn [mode_used].
  rewrite (sf_columns _ _ Hframe). unfold iterated_frame.
  rewrite sort_keys_init_columns.
  destruct (String.eqb m "sku").
  - rewrite app_nil_r. now apply columns_init_columns.
  - destruct (sort_keys to_datetime d) as [keys|].
    + unfold sorted_frame, keyed_frame.
      rewrite columns_take, columns_set_series.
      assert (E : DF.has_column "_sort_key" (init_columns d) = false).
      { unfold DF.has_column. rewrite init_columns_other by reflexivity.
        exact Hkey. }
      rewrite E, columns_init_columns by done. now rewrite <- app_assoc.
    + rewrite app_nil_r. now apply columns_init_columns.
Qed.

(** X15. A keyword that is blank once trimmed excludes every row: with such a
    keyword in the exclude list, a run of either strategy on a table
    with distinct row labels matches nothing. *)
Theorem blank_exclude_keyword_excludes_all (h : heap) df d mode m start_slot ex inc k :
  h !! df = Some d ->
  DF.empty d = false ->
  NoDup (df_index d) ->
  resolve_mode mode d = inr m ->
  valid_mode m = true ->
  k ∈ ex -> Str.strip k = "" ->
  exists h' out summary d_out,
    match_ to_datetime argsort df mode start_slot (Some ex) inc h
    = (h', inr (out, summary))
    /\ h' !! out = Some d_out
    /\ excluded summary = total_rows summary
    /\ matched summary = 0%nat
    /\ needs_review summary = 0%nat
    /\ forall i, i ∈ df_index d ->
         DF.at_get i "match_method" d_out = Some (VStr "excluded")
         /\ DF.at_get i "slot" d_out = Some VNone.
Proof.
  intros Hl Hempty Hnd Hres Hvalid Hk Hblank.
  assert (Hin : "" ∈ normalize_keywords (Some ex)).
  { unfold normalize_keywords. destruct ex as [|k0 ex]; [now apply elem_of_nil in Hk|].
    rewrite <- Hblank. apply list_elem_of_fmap. now exists k. }
  assert (Hruns : runs_as mode d m (normalize_keywords (Some ex))
                    (normalize_keywords inc)).
  { split; [exact Hres|]. split; [exact Hvalid|]. intros _.
    apply Forall_forall. intros x _ Hpass. unfold passes in Hpass.
    now rewrite (blank_keyword_excludes _ _ Hin) in Hpass. }
  assert (Hconv :
    plan_converts
      (plan_of m (normalize_keywords (Some ex)) (normalize_keywords inc)
         start_slot (iterated_frame to_datetime argsort m (init_columns d)))).
  { apply Forall_forall. intros [i o] Hio.
    apply plan_of_outcome in Hio as (row & _ & Ho).
    unfold outcome_for, passes in Ho.
    rewrite (blank_keyword_excludes _ _ Hin) in Ho. simpl in Ho. now subst o. }
  destruct (match_table to_datetime argsort argsort_perm h df d mode m start_slot
              (Some ex) inc Hl Hempty Hruns Hconv Hnd)
    as (h' & out & d_out & Hrun & Hout & Hframe & Hperm & Hndp & Hlabels & Hann
        & Hrows & _).
  set (exk := normalize_keywords (Some ex)) in *.
  set (ink := normalize_keywords inc) in *.
  set (p := plan_of m exk ink start_slot
              (iterated_frame to_datetime argsort m (init_columns d))) in *.
  assert (Hall : forall i o, (i, o) ∈ p -> o = Excluded).
  { intros i o Hio. pose proof (Hrows _ _ Hio) as Ho. unfold outcome_for, passes in Ho.
    now rewrite (blank_keyword_excludes _ _ Hin) in Ho. }
  destruct (tally_plan_counts p initial_tally) as (H1 & H2 & H3).
  assert (Hex : List.filter is_excluded p = p).
  { apply filter_all. intros [i o] Hio. now rewrite (Hall i o Hio). }
  assert (Has : List.filter is_assignment p = []).
  { apply filter_none. intros [i o] Hio. now rewrite (Hall i o Hio). }
  assert (Hman : List.filter is_manual p = []).
  { apply filter_none. intros [i o] Hio. now rewrite (Hall i o Hio). }
  assert (Hfl : flagged (plan_usage p []) = []).
  { destruct (flagged (plan_usage p [])) as [|i l] eqn:E; [reflexivity|exfalso].
    assert (Hi : i ∈ flagged (plan_usage p [])) by (rewrite E; left).
    apply flagged_iff in Hi as (m' & n & Hio & _).
    discriminate (Hall _ _ Hio). }
  eexists h', out, _, d_out. split; [exact Hrun|]. split; [exact Hout|].
  unfold summary_of. simpl.
  rewrite H1, H2, H3, slot_usage_tally_plan, Hex, Has, Hman. simpl.
  rewrite Hfl. simpl.
  split.
  { rewrite <- (length_map fst p), Hlabels. unfold DF.len.
    apply Permutation_length. exact Hperm. }
  split; [reflexivity|]. split; [reflexivity|].
  intros i Hi.
  assert (Hi' : i ∈ df_index d_out) by now rewrite Hperm.
  destruct (index_in_plan' p _ i Hlabels Hi') as [o Hio].
  pose proof (Hann i o Hio) as Ha. rewrite Hfl in Ha.
  rewrite decide_False in Ha by apply not_elem_of_nil.
  rewrite (Hall i o Hio) in Ha.
  destruct (ann_at_inv _ _ _ Ha) as (Hs & _ & Hm & _). auto.
Qed.

(** X16. The engine trims its keywords and reads a missing list as the empty
    one: a call with keywords and the call with the trimmed keywords
    return the same, and so do a call with empty lists and a call
    without lists. *)
Theorem keywords_are_trimmed (h : heap) df mode start_slot ex inc :
  match_ to_datetime argsort df mode start_slot (Some ex) (Some inc) h
  = match_ to_datetime argsort df mode start_slot
      (Some (List.map Str.strip ex)) (Some (List.map Str.strip inc)) h
  /\ match_ to_datetime argsort df mode start_slot (Some []) (Some []) h
     = match_ to_datetime argsort df mode start_slot None None h.
Proof.
  assert (Hn : forall ks, normalize_keywords (Some (List.map Str.strip ks))
                          = normalize_keywords (Some ks)).
  { intros [|k ks]; [reflexivity|]. unfold normalize_keywords.
    cbn [List.map]. rewrite TrimFacts.strip_idem. f_equal.
    rewrite List.map_map. apply List.map_ext.
    intros s. apply TrimFacts.strip_idem. }
  split; [|reflexivity].
  unfold match_. now rewrite !Hn.
Qed.

End CellProperties.

(** ** Comma-separated keywords *)

Module SplitFacts.
Import Str.

Lemma split_comma_nonempty s : split_comma s <> [].
Proof.
  destruct s as [|c s]; simpl; [discriminate|].
  destruct (Ascii.eqb c ","); [discriminate|].
  destruct (split_comma s); discriminate.
Qed.

(** Splitting distributes over a comma. *)
Lemma split_comma_app a b :
  split_comma (a ++ "," ++ b) = (split_comma a ++ split_comma b)%list.
Proof.
  induction a as [|c a IH].
  - reflexivity.
  - change (String c a ++ "," ++ b) with (String c (a ++ "," ++ b)).
    cbn [split_comma]. rewrite IH.
    destruct (Ascii.eqb c ","); [reflexivity|].
    pose proof (split_comma_nonempty a) as Hne.
    destruct (split_comma a) as [|piece pieces]; [congruence|reflexivity].
Qed.

(** A string without a comma is one piece. *)
Lemma split_comma_single s : contains "," s = false -> split_comma s = [s].
Proof.
  induction s as [|c s IH]; [reflexivity|].
  change (contains "," (String c s))
    with (String.prefix "," (String c s) || contains "," s).
  intros H. apply orb_false_iff in H as [H1 H2].
  cbn [split_comma]. rewrite (IH H2).
  destruct (Ascii.eqb_spec c ",") as [->|Hne]; [|reflexivity].
  assert (Ht : String.prefix "," (String "," s) = true)
    by (apply StrFacts.prefix_spec; now exists s).
  congruence.
Qed.

Lemma contains_cons k c s : contains k s = true -> contains k (String c s) = true.
Proof.
  intros H. change (contains k (String c s))
    with (String.prefix k (String c s) || contains k s).
  rewrite H. apply orb_true_r.
Qed.

(** No piece holds a comma. *)
Lemma split_comma_pieces s piece :
  piece ∈ split_comma s -> contains "," piece = false.
Proof.
  revert piece. induction s as [|c s IH]; intros piece; cbn [split_comma].
  - intros H. apply list_elem_of_singleton in H. now subst.
  - destruct (Ascii.eqb_spec c ",") as [->|Hne].
    + intros H. apply elem_of_cons in H as [->|H]; [reflexivity|now apply IH].
    + pose proof (split_comma_nonempty s) as Hs.
      destruct (split_comma s) as [|p ps]; [congruence|].
      intros H. apply elem_of_cons in H as [->|H].
      * change (contains "," (String c p))
          with (String.prefix "," (String c p) || contains "," p).
        rewrite (IH p) by left. rewrite orb_false_r.
        apply not_true_is_false. intros Hp.
        apply StrFacts.prefix_spec in Hp as [post Hp]. simpl in Hp. congruence.
      * apply IH. now right.
Qed.

Lemma contains_part k a s b :
  contains k s = true -> contains k (a ++ s ++ b) = true.
Proof.
  rewrite !StrFacts.contains_spec. intros (pre & post & ->).
  exists (a ++ pre), (post ++ b). now rewrite !StrFacts.append_assoc.
Qed.

Lemma contains_strip k s : contains k (strip s) = true -> contains k s = true.
Proof.
  intros H. destruct (StrFacts.strip_part s) as (a & b & E).
  rewrite E. now apply contains_part.
Qed.

End SplitFacts.

(** X17. The keywords that the endpoints and the command line read from a
    comma-separated text are clean: none is empty, none has white space
    around it, none holds a comma; the engine keeps them as they are. *)
Theorem parse_keywords_clean s :
  (forall k, k ∈ parse_keywords s ->
     k <> "" /\ Str.strip k = k /\ Str.contains "," k = false)
  /\ normalize_keywords (Some (parse_keywords s)) = parse_keywords s.
Proof.
  assert (H : forall k, k ∈ parse_keywords s ->
                k <> "" /\ Str.strip k = k /\ Str.contains "," k = false).
  { intros k Hk. unfold parse_keywords in Hk.
    apply list_elem_of_fmap in Hk as (piece & -> & Hp).
    apply list_elem_of_In, filter_In in Hp as [Hp Hne].
    apply list_elem_of_In in Hp.
    split; [|split].
    - intros E. rewrite E in Hne. discriminate.
    - apply TrimFacts.strip_idem.
    - apply not_true_is_false. intros Hc.
      apply SplitFacts.contains_strip in Hc.
      now rewrite (SplitFacts.split_comma_pieces _ _ Hp) in Hc. }
  split; [exact H|].
  unfold normalize_keywords.
  destruct (parse_keywords s) as [|k ks] eqn:E; [reflexivity|].
  rewrite <- E in *. rewrite <- (List.map_id (parse_keywords s)) at 2.
  apply List.map_ext_in. intros k' Hk'. apply list_elem_of_In in Hk'.
  now destruct (H k' Hk') as (_ & -> & _).
Qed.

(** X18. Reading keywords distributes over a comma, and a text without a
    comma gives its trimmed form, or nothing when that is empty: an empty
    form field means no keyword. *)
Theorem parse_keywords_pieces a b :
  parse_keywords (a ++ "," ++ b) = (parse_keywords a ++ parse_keywords b)%list
  /\ (Str.contains "," a = false ->
      parse_keywords a
      = if Str.is_empty (Str.strip a) then [] else [Str.strip a]).
Proof.
  split.
  - unfold parse_keywords. rewrite SplitFacts.split_comma_app.
    now rewrite List.filter_app, List.map_app.
  - intros H. unfold parse_keywords. rewrite (SplitFacts.split_comma_single a H).
    simpl. now destruct (Str.is_empty (Str.strip a)).
Qed.

Lemma parse_keywords_pieces_witness :
  parse_keywords "givy" = if Str.is_empty (Str.strip "givy") then [] else [Str.strip "givy"].
Proof.
  apply (proj2 (parse_keywords_pieces "givy" "")). reflexivity.
Defined.


(** ** The HTTP endpoints *)


Section EndpointProperties.

Variable read_csv : string -> string + DataFrame.
Variable to_datetime : list value -> option (list value).
Variable argsort : list value -> list nat.
Hypothesis argsort_perm :
  forall keys, Permutation (argsort keys) (seq 0 (List.length keys)).

(** X19. Both endpoints answer a mode that they do not know and a start slot
    below 1 with status 500, not 400: the exception of the validation is
    raised inside the [try] whose last handler turns every exception
    into status 500.  Nothing is loaded. *)
Theorem validation_errors_answer_500 (h : heap) file_bytes mode start_slot
  exclude_keywords include_keywords :
  (mode <> "auto" /\ mode <> "sku" /\ mode <> "sequence") \/ start_slot < 1 ->
  match_endpoint read_csv to_datetime argsort file_bytes mode start_slot
    exclude_keywords include_keywords h
  = (h, inl (HTTPException 500))
  /\ download_endpoint read_csv to_datetime argsort file_bytes mode start_slot
       exclude_keywords include_keywords h
     = (h, inl (HTTPException 500)).
Proof.
  intros H. unfold match_endpoint, download_endpoint, try_except.
  destruct (negb _) eqn:Hmode; [split; reflexivity|].
  destruct H as [(Ha & Hs & Hq)|Hstart].
  - apply String.eqb_neq in Ha, Hs, Hq. rewrite Ha, Hs, Hq in Hmode. discriminate.
  - apply Z.ltb_lt in Hstart. rewrite Hstart. split; reflexivity.
Qed.

(** X20. Both endpoints answer a file that [read_csv] cannot read, or reads
    as an empty table, with status 400. *)
Theorem unreadable_file_answers_400 (h : heap) file_bytes mode start_slot
  exclude_keywords include_keywords :
  mode = "auto" \/ mode = "sku" \/ mode = "sequence" ->
  1 <= start_slot ->
  (exists msg, read_csv file_bytes = inl msg)
  \/ (exists d, read_csv file_bytes = inr d /\ DF.empty d = true) ->
  snd (match_endpoint read_csv to_datetime argsort file_bytes mode start_slot
         exclude_keywords include_keywords h)
  = inl (HTTPException 400)
  /\ snd (download_endpoint read_csv to_datetime argsort file_bytes mode start_slot
            exclude_keywords include_keywords h)
     = inl (HTTPException 400).
Proof.
  intros Hmode Hstart Hfile.
  assert (Hm : negb (String.eqb mode "auto" || String.eqb mode "sku"
                     || String.eqb mode "sequence") = false)
    by (destruct Hmode as [-> | [-> | ->]]; reflexivity).
  assert (Hs : (start_slot <? 1) = false) by (apply Z.ltb_ge; lia).
  unfold match_endpoint, download_endpoint, try_except. rewrite Hm, Hs.
  rewrite !bind_run. unfold load_csv.
  destruct Hfile as [[msg ->]|(d & -> & Hempty)].
  - split; reflexivity.
  - rewrite !bind_run. unfold alloc. rewrite Hempty. split; reflexivity.
Qed.


End EndpointProperties.

(** ** The command line *)

Section CommandLineProperties.

Variable parse_args : list string -> Parsed.
Variable path_exists : string -> bool.
Variable read_file : string -> string + string.
Variable write_error : string -> option string.
Variable read_csv : string -> string + DataFrame.
Variable to_datetime : list value -> option (list value).
Variable argsort : list value -> list nat.
Hypothesis argsort_perm :
  forall keys, Permutation (argsort keys) (seq 0 (List.length keys)).





End CommandLineProperties.

(** ** The order of the sequence strategy *)

(** The slot of a row of the sequence strategy: the start value plus the
    number of rows before it that pass the filter. *)
Lemma sequence_plan_lookup ex inc cur rows k i m s :
  sequence_plan ex inc cur rows !! k = Some (i, Assigned m s) ->
  s = cur + Z.of_nat (List.length (passing ex inc (firstn k rows))).
Proof.
  revert cur k. induction rows as [|x rows IH]; intros cur k; simpl.
  - now rewrite lookup_nil.
  - unfold passing in *.
    destruct (passes ex inc (snd x)) eqn:Hp; destruct k as [|k]; simpl.
    + intros [= _ _ <-]. lia.
    + intros H. rewrite Hp. simpl. rewrite (IH _ _ H). lia.
    + discriminate.
    + intros H. rewrite Hp. exact (IH _ _ H).
Qed.

Lemma passing_firstn_mono ex inc (rows : list (nat * Row)) k1 k2 :
  (k1 <= k2)%nat ->
  (List.length (passing ex inc (firstn k1 rows))
   <= List.length (passing ex inc (firstn k2 rows)))%nat.
Proof.
  unfold passing. revert k1 k2.
  induction rows as [|x rows IH]; intros k1 k2 Hk.
  - now rewrite !firstn_nil.
  - destruct k1 as [|k1]; [simpl; lia|].
    destruct k2 as [|k2]; [lia|]. simpl.
    assert (H := IH k1 k2 ltac:(lia)).
    destruct (passes ex inc (snd x)); simpl; lia.
Qed.

(** A smaller slot stands earlier in the plan. *)
Lemma sequence_plan_order ex inc cur rows k1 k2 i1 i2 m1 m2 s1 s2 :
  sequence_plan ex inc cur rows !! k1 = Some (i1, Assigned m1 s1) ->
  sequence_plan ex inc cur rows !! k2 = Some (i2, Assigned m2 s2) ->
  s1 < s2 -> (k1 < k2)%nat.
Proof.
  intros H1 H2 Hs.
  apply sequence_plan_lookup in H1, H2.
  destruct (Nat.lt_ge_cases k1 k2) as [|Hge]; [assumption|exfalso].
  pose proof (passing_firstn_mono ex inc rows k2 k1 Hge). lia.
Qed.

Lemma nth_key_column keys d q :
  (q < DF.len d)%nat -> nth q (key_column keys d) VNaT = nth q keys VNaT.
Proof.
  intros Hq. unfold key_column.
  apply lookup_nth. rewrite list_lookup_fmap.
  rewrite lookup_seq_lt by exact Hq. reflexivity.
Qed.

Section Chronology.

Variable to_datetime : list value -> option (list value).
Variable argsort : list value -> list nat.

(** The order of [sort_values]: [key_le a b] when the key [a] may stand
    before the key [b]. *)
Variable key_le : value -> value -> bool.

Hypothesis argsort_perm :
  forall keys, Permutation (argsort keys) (seq 0 (List.length keys)).

(** The positions that [argsort] returns are in the order of their keys. *)
Hypothesis argsort_sorted :
  forall keys,
    StronglySorted
      (fun a b => key_le (nth a keys VNaT) (nth b keys VNaT) = true)
      (argsort keys).

Lemma sorted_lookup (R : nat -> nat -> Prop) (l : list nat) a b qa qb :
  StronglySorted R l -> (a < b)%nat ->
  l !! a = Some qa -> l !! b = Some qb -> R qa qb.
Proof.
  intros Hs. revert a b. induction Hs as [|q l Hs IH Hall]; intros a b Hab Ha Hb.
  - now rewrite lookup_nil in Ha.
  - destruct b as [|b]; [lia|]. simpl in Hb.
    destruct a as [|a]; simpl in Ha.
    + injection Ha as <-. rewrite List.Forall_forall in Hall.
      apply Hall. apply list_elem_of_In, list_elem_of_lookup. eauto.
    + apply (IH a b); [lia|assumption|assumption].
Qed.

(** X24. When the sequence strategy sorts a table with distinct row
    labels by timestamp, from a start slot from which the slots of the
    rows have 4300 digits at most, the slots follow the order of the
    sort: of two rows with a slot, the one with the smaller slot has a
    key, the parsed timestamp of its cell [placed at], that may stand
    before the key of the other. *)
Theorem slots_follow_timestamps (h : heap) df d mode start_slot ex inc keys :
  h !! df = Some d ->
  DF.empty d = false ->
  NoDup (df_index d) ->
  resolve_mode mode d = inr "sequence" ->
  within_str_limit start_slot d ->
  sort_keys to_datetime d = Some keys ->
  exists h' out summary d_out,
    match_ to_datetime argsort df mode start_slot ex inc h
    = (h', inr (out, summary))
    /\ h' !! out = Some d_out
    /\ forall qi qj i j si sj,
         df_index d !! qi = Some i ->
         df_index d !! qj = Some j ->
         DF.at_get i "slot" d_out = Some (VInt si) ->
         DF.at_get j "slot" d_out = Some (VInt sj) ->
         si < sj ->
         key_le (nth qi keys VNaT) (nth qj keys VNaT) = true.
Proof.
  intros Hl Hempty Hnd Hmode Hwithin Hkeys.
  destruct (match_table to_datetime argsort argsort_perm h df d mode "sequence"
              start_slot ex inc Hl Hempty (runs_as_sequence _ _ _ _ Hmode)
              (plan_converts_sequence to_datetime argsort argsort_perm _ _ _ _ Hwithin) Hnd) as
    (h' & out & d_out & Hrun & Hout & Hframe & Hperm & Hndp & Hlabels & Hann & _).
  set (exk := normalize_keywords ex) in *.
  set (ink := normalize_keywords inc) in *.
  assert (Hd2 : iterated_frame to_datetime argsort "sequence" (init_columns d)
                = sorted_frame argsort keys (init_columns d)).
  { unfold iterated_frame. simpl. now rewrite sort_keys_init_columns, Hkeys. }
  rewrite Hd2 in *.
  set (d2 := sorted_frame argsort keys (init_columns d)) in *.
  assert (Hp : plan_of "sequence" exk ink start_slot d2
               = sequence_plan exk ink start_slot (DF.iterrows d2)) by reflexivity.
  rewrite Hp in *.
  set (p := sequence_plan exk ink start_slot (DF.iterrows d2)) in *.
  set (perm := argsort (key_column keys (init_columns d))).
  eexists h', out, _, d_out. split; [exact Hrun|]. split; [exact Hout|].
  intros qi qj i j si sj Hqi Hqj Hsi Hsj Hlt.
  (* the positions of the two rows in the plan *)
  assert (Hpos : forall q x s,
            df_index d !! q = Some x ->
            DF.at_get x "slot" d_out = Some (VInt s) ->
            exists k m, p !! k = Some (x, Assigned m s) /\ perm !! k = Some q).
  { intros q x s Hq Hs.
    destruct (annotated_slot_inv p d_out x s Hlabels Hann Hs) as [m Hin].
    apply list_elem_of_lookup in Hin as [k Hk].
    exists k, m. split; [exact Hk|].
    pose proof (plan_lookup_label _ _ _ _ _ Hlabels Hk) as Hx.
    rewrite (sf_index _ _ Hframe) in Hx.
    unfold d2, sorted_frame, DF.take in Hx. simpl in Hx. fold perm in Hx.
    rewrite list_lookup_fmap in Hx.
    destruct (perm !! k) as [q'|] eqn:Hq'; [|discriminate]. simpl in Hx.
    injection Hx as Hx. f_equal.
    assert (Hb : (q' < DF.len (init_columns d))%nat).
    { apply (argsort_bound argsort argsort_perm keys).
      apply list_elem_of_lookup. eauto. }
    unfold DF.len in Hb. rewrite init_columns_index in *.
    destruct (lookup_lt_is_Some_2 (df_index d) q' Hb) as [x' Hx'].
    rewrite (lookup_nth _ _ _ 0%nat Hx') in Hx. subst x'.
    exact (NoDup_lookup _ _ _ _ Hnd Hx' Hq). }
  destruct (Hpos qi i si Hqi Hsi) as (k1 & m1 & Hk1 & Hq1).
  destruct (Hpos qj j sj Hqj Hsj) as (k2 & m2 & Hk2 & Hq2).
  pose proof (sequence_plan_order _ _ _ _ _ _ _ _ _ _ _ _ Hk1 Hk2 Hlt) as Hk.
  pose proof (sorted_lookup _ _ _ _ _ _
                (argsort_sorted (key_column keys (init_columns d)))
                Hk Hq1 Hq2) as Hle.
  simpl in Hle.
  rewrite !nth_key_column in Hle.
  - exact Hle.
  - unfold DF.len. rewrite init_columns_index. now apply lookup_lt_Some in Hqj.
  - unfold DF.len. rewrite init_columns_index. now apply lookup_lt_Some in Hqi.
Qed.

End Chronology.

(** * The further properties on the scenarios *)

Lemma match_returns_witness :
  exists h' out summary d_out,
    match_ Sample.to_datetime Sample.argsort 0%nat "auto" 1 None None
      [Scenario.table_d]
    = (h', inr (out, summary))
    /\ h' !! out = Some d_out
    /\ (mode_used summary = "sku" \/ mode_used summary = "sequence")
    /\ (if String.eqb "auto" "auto" then detect_mode Scenario.table_d
        else inr "auto")
       = inr (mode_used summary)
    /\ total_rows summary = DF.len Scenario.table_d
    /\ DF.len d_out = DF.len Scenario.table_d
    /\ start_slot_used summary = 1
    /\ exclude_keywords_used summary = normalize_keywords None
    /\ include_keywords_used summary = normalize_keywords None.
Proof.
  apply (match_returns Sample.to_datetime Sample.argsort Sample.argsort_perm
           [Scenario.table_d] 0%nat Scenario.table_d "auto" 1 None None).
  - reflexivity.
  - reflexivity.
  - simpl. distinct_labels.
  - now left.
  - right. reflexivity.
  - right. within_limit.
Defined.

Lemma summary_counts_the_rows_witness :
  exists h' out summary d_out,
    match_ Sample.to_datetime Sample.argsort 0%nat "sku" 1 None None
      [Scenario.table_missing]
    = (h', inr (out, summary))
    /\ h' !! out = Some d_out
    /\ matched summary = column_count "slot" (fun v => negb (isna v)) d_out
    /\ excluded summary = column_count "match_method" (is_str "excluded") d_out
    /\ (matched summary + excluded summary
        + column_count "match_method" (is_str "manual_review") d_out)%nat
       = total_rows summary.
Proof.
  apply (summary_counts_the_rows Sample.to_datetime Sample.argsort
           Sample.argsort_perm [Scenario.table_missing] 0%nat
           Scenario.table_missing "sku" "sku" 1 None None).
  - reflexivity.
  - reflexivity.
  - simpl. distinct_labels.
  - reflexivity.
  - reflexivity.
  - intros _. reflexivity.
  - intros E. discriminate E.
Defined.

Lemma needs_review_counts_the_rows_witness :
  exists h' out summary d_out,
    match_ Sample.to_datetime Sample.argsort 0%nat "sku" 1 None None
      [Scenario.table_c]
    = (h', inr (out, summary))
    /\ h' !! out = Some d_out
    /\ needs_review summary = column_count "needs_review" is_true d_out.
Proof.
  apply (needs_review_counts_the_rows Sample.to_datetime Sample.argsort
           Sample.argsort_perm [Scenario.table_c] 0%nat
           Scenario.table_c "sku" "sku" 1 None None).
  - reflexivity.
  - reflexivity.
  - simpl. distinct_labels.
  - reflexivity.
  - reflexivity.
  - intros _. reflexivity.
  - intros E. discriminate E.
Defined.

Lemma rows_end_in_four_states_witness :
  exists h' out summary d_out,
    match_ Sample.to_datetime Sample.argsort 0%nat "sku" 1 None None
      [Scenario.table_c]
    = (h', inr (out, summary))
    /\ h' !! out = Some d_out
    /\ forall i, i ∈ df_index Scenario.table_c ->
         ann_at d_out i
         = Some (mkAnn VNone VNone (VStr "excluded") (VBool false) (VStr ""))
         \/ ann_at d_out i
            = Some (mkAnn VNone VNone (VStr "manual_review") (VBool true)
                      (VStr "sku_missing_or_invalid"))
         \/ exists n,
              ann_at d_out i
              = Some (mkAnn (VInt n) (VStr (item_label n))
                        (VStr (mode_used summary)) (VBool false) (VStr ""))
              \/ ann_at d_out i
                 = Some (mkAnn (VInt n) (VStr (item_label n))
                           (VStr (mode_used summary)) (VBool true)
                           (VStr "duplicate_slot")).
Proof.
  apply (rows_end_in_four_states Sample.to_datetime Sample.argsort
           Sample.argsort_perm [Scenario.table_c] 0%nat
           Scenario.table_c "sku" "sku" 1 None None).
  - reflexivity.
  - reflexivity.
  - simpl. distinct_labels.
  - reflexivity.
  - reflexivity.
  - intros _. reflexivity.
  - intros E. discriminate E.
Defined.

Lemma sequence_leaves_nothing_to_review_witness :
  exists h' out summary d_out,
    match_ Sample.to_datetime Sample.argsort 0%nat "sequence" 1
      (Some ["givy"]) None [Scenario.table_b]
    = (h', inr (out, summary))
    /\ h' !! out = Some d_out
    /\ needs_review summary = 0%nat
    /\ duplicate_slots summary = 0%nat
    /\ (matched summary + excluded summary)%nat = total_rows summary
    /\ forall i, i ∈ df_index Scenario.table_b ->
         DF.at_get i "needs_review" d_out = Some (VBool false)
         /\ DF.at_get i "review_reason" d_out = Some (VStr "").
Proof.
  apply (sequence_leaves_nothing_to_review Sample.to_datetime Sample.argsort
           Sample.argsort_perm [Scenario.table_b] 0%nat
           Scenario.table_b "sequence" 1 (Some ["givy"]) None).
  - reflexivity.
  - reflexivity.
  - simpl. distinct_labels.
  - reflexivity.
  - within_limit.
Defined.

Lemma sku_mode_ignores_start_slot_witness :
  exists h1 out1 sum1 d1 h2 out2 sum2 d2,
    match_ Sample.to_datetime Sample.argsort 0%nat "sku" 1 None None
      [Scenario.table_a] = (h1, inr (out1, sum1))
    /\ h1 !! out1 = Some d1
    /\ match_ Sample.to_datetime Sample.argsort 0%nat "sku" 100 None None
         [Scenario.table_a] = (h2, inr (out2, sum2))
    /\ h2 !! out2 = Some d2
    /\ df_index d1 = df_index d2
    /\ DF.columns d1 = DF.columns d2
    /\ (forall i c, DF.at_get i c d1 = DF.at_get i c d2)
    /\ (matched sum1, excluded sum1, needs_review sum1, duplicate_slots sum1)
       = (matched sum2, excluded sum2, needs_review sum2, duplicate_slots sum2).
Proof.
  apply (sku_mode_ignores_start_slot Sample.to_datetime Sample.argsort
           Sample.argsort_perm [Scenario.table_a] 0%nat
           Scenario.table_a "sku" 1 100 None None).
  - reflexivity.
  - reflexivity.
  - simpl. distinct_labels.
  - reflexivity.
  - reflexivity.
Defined.

Lemma input_cells_are_kept_witness :
  exists h' out summary d_out,
    match_ Sample.to_datetime Sample.argsort 0%nat "sequence" 1 None None
      [Scenario.table_times]
    = (h', inr (out, summary))
    /\ h' !! out = Some d_out
    /\ Permutation (df_index d_out) (df_index Scenario.table_times)
    /\ (mode_used summary = "sku" -> df_index d_out = df_index Scenario.table_times)
    /\ forall i c v,
         is_annotation c = false -> c <> "_sort_key" ->
         DF.at_get i c Scenario.table_times = Some v ->
         DF.at_get i c d_out = Some v.
Proof.
  apply (input_cells_are_kept Sample.to_datetime Sample.argsort
           Sample.argsort_perm [Scenario.table_times] 0%nat
           Scenario.table_times "sequence" "sequence" 1 None None).
  - reflexivity.
  - reflexivity.
  - simpl. distinct_labels.
  - reflexivity.
  - reflexivity.
  - discriminate.
  - within_limit.
Defined.

Lemma no_annotation_column_table_times : no_annotation_column Scenario.table_times.
Proof.
  intros c Hc. apply is_annotation_cases in Hc.
  destruct Hc as [-> | [-> | [-> | [-> | ->]]]]; reflexivity.
Qed.

Lemma columns_of_the_result_witness :
  exists h' out summary d_out,
    match_ Sample.to_datetime Sample.argsort 0%nat "sequence" 1 None None
      [Scenario.table_times]
    = (h', inr (out, summary))
    /\ h' !! out = Some d_out
    /\ DF.columns d_out
       = (DF.columns Scenario.table_times ++ annotation_columns
          ++ if String.eqb (mode_used summary) "sku" then []
             else match sort_keys Sample.to_datetime Scenario.table_times with
                  | Some _ => ["_sort_key"]
                  | None => []
                  end)%list.
Proof.
  apply (columns_of_the_result Sample.to_datetime Sample.argsort
           Sample.argsort_perm [Scenario.table_times] 0%nat
           Scenario.table_times "sequence" "sequence" 1 None None).
  - reflexivity.
  - reflexivity.
  - simpl. distinct_labels.
  - reflexivity.
  - reflexivity.
  - discriminate.
  - within_limit.
  - apply no_annotation_column_table_times.
  - reflexivity.
Defined.

Lemma blank_exclude_keyword_excludes_all_witness :
  exists h' out summary d_out,
    match_ Sample.to_datetime Sample.argsort 0%nat "sku" 1
      (Some ["givy"; "  "]) None [Scenario.table_a]
    = (h', inr (out, summary))
    /\ h' !! out = Some d_out
    /\ excluded summary = total_rows summary
    /\ matched summary = 0%nat
    /\ needs_review summary = 0%nat
    /\ forall i, i ∈ df_index Scenario.table_a ->
         DF.at_get i "match_method" d_out = Some (VStr "excluded")
         /\ DF.at_get i "slot" d_out = Some VNone.
Proof.
  apply (blank_exclude_keyword_excludes_all Sample.to_datetime Sample.argsort
           Sample.argsort_perm [Scenario.table_a] 0%nat
           Scenario.table_a "sku" "sku" 1 ["givy"; "  "] None "  ").
  - reflexivity.
  - reflexivity.
  - simpl. distinct_labels.
  - reflexivity.
  - reflexivity.
  - rewrite !elem_of_cons. tauto.
  - reflexivity.
Defined.

Lemma parse_keywords_clean_witness :
  "shipping" ∈ parse_keywords "givy, shipping ,,tip"
  /\ "shipping" <> ""
  /\ Str.strip "shipping" = "shipping"
  /\ Str.contains "," "shipping" = false.
Proof.
  assert (H : "shipping" ∈ parse_keywords "givy, shipping ,,tip").
  { change (parse_keywords "givy, shipping ,,tip")
      with ["givy"; "shipping"; "tip"].
    rewrite !elem_of_cons. tauto. }
  split; [exact H|].
  exact (proj1 (parse_keywords_clean "givy, shipping ,,tip") "shipping" H).
Defined.

Lemma validation_errors_answer_500_witness :
  match_endpoint (fun _ => inr Scenario.table_a) Sample.to_datetime
    Sample.argsort "" "sku" 0 "" "" []
  = ([], inl (HTTPException 500))
  /\ download_endpoint (fun _ => inr Scenario.table_a) Sample.to_datetime
       Sample.argsort "" "sku" 0 "" "" []
     = ([], inl (HTTPException 500)).
Proof.
  apply (validation_errors_answer_500 (fun _ => inr Scenario.table_a)
           Sample.to_datetime Sample.argsort [] "" "sku" 0 "" "").
  right. lia.
Defined.

Lemma unreadable_file_answers_400_witness :
  snd (match_endpoint (fun _ => inl "No columns to parse from file")
         Sample.to_datetime Sample.argsort "" "auto" 1 "" "" [])
  = inl (HTTPException 400)
  /\ snd (download_endpoint (fun _ => inl "No columns to parse from file")
            Sample.to_datetime Sample.argsort "" "auto" 1 "" "" [])
     = inl (HTTPException 400).
Proof.
  apply (unreadable_file_answers_400 (fun _ => inl "No columns to parse from file")
           Sample.to_datetime Sample.argsort [] "" "auto" 1 "" "").
  - now left.
  - lia.
  - left. now exists "No columns to parse from file".
Defined.


(** A file with an empty field in its second record: the cell is a NaN. *)
Definition table_empty_field : DataFrame :=
  mkDF [0; 1]%nat
    [("product name", [VStr "Item A"; VNaN]);
     ("sku", Scenario.names ["ITEM-1"; "ITEM-2"])].

(** On the table of scenario A [/match] answers with its response; on
    the table with the empty field it answers with status 500, where
    [/download] answers with the export. *)
Example match_endpoint_answers :
  (exists response,
      snd (match_endpoint (fun _ => inr Scenario.table_a) Sample.to_datetime
             Sample.argsort "" "auto" 1 "givy" "" [])
      = inr response)
  /\ snd (match_endpoint (fun _ => inr table_empty_field) Sample.to_datetime
            Sample.argsort "" "auto" 1 "givy" "" [])
     = inl (HTTPException 500)
  /\ exists body,
       snd (download_endpoint (fun _ => inr table_empty_field) Sample.to_datetime
              Sample.argsort "" "auto" 1 "givy" "" [])
       = inr body.
Proof.
  split; [|split].
  - eexists. vm_compute. reflexivity.
  - vm_compute. reflexivity.
  - eexists. vm_compute. reflexivity.
Qed.




(** The sample sorting routine is in the order of its keys. *)
Module SampleFacts.

Lemma key_le_total a b :
  Sample.key_le a b = false -> Sample.key_le b a = true.
Proof.
  destruct a, b; simpl; try congruence.
  intros H. apply Z.leb_gt in H. apply Z.leb_le. lia.
Qed.

Lemma key_le_trans a b c :
  Sample.key_le a b = true -> Sample.key_le b c = true ->
  Sample.key_le a c = true.
Proof.
  destruct a, b, c; simpl; try congruence.
  intros H1 H2. apply Z.leb_le in H1, H2. apply Z.leb_le. lia.
Qed.

Lemma insert_position_sorted keys p l :
  StronglySorted
    (fun a b => Sample.key_le (nth a keys VNaT) (nth b keys VNaT) = true) l ->
  StronglySorted
    (fun a b => Sample.key_le (nth a keys VNaT) (nth b keys VNaT) = true)
    (Sample.insert_position keys p l).
Proof.
  induction 1 as [|q l Hs IH Hall]; simpl.
  - constructor; constructor.
  - destruct (Sample.key_le (nth q keys VNaT) (nth p keys VNaT)) eqn:E.
    + constructor; [exact IH|].
      rewrite Sample.insert_position_perm. constructor; assumption.
    + apply key_le_total in E.
      constructor; [constructor; assumption|].
      constructor; [exact E|].
      rewrite List.Forall_forall in *. intros x Hx.
      exact (key_le_trans _ _ _ E (Hall x Hx)).
Qed.

Lemma argsort_sorted keys :
  StronglySorted
    (fun a b => Sample.key_le (nth a keys VNaT) (nth b keys VNaT) = true)
    (Sample.argsort keys).
Proof.
  unfold Sample.argsort.
  assert (H : forall l acc,
             StronglySorted
               (fun a b => Sample.key_le (nth a keys VNaT) (nth b keys VNaT) = true)
               acc ->
             StronglySorted
               (fun a b => Sample.key_le (nth a keys VNaT) (nth b keys VNaT) = true)
               (fold_left (fun acc p => Sample.insert_position keys p acc) l acc)).
  { induction l as [|p l IH]; intros acc Hacc; simpl; [exact Hacc|].
    apply IH. now apply insert_position_sorted. }
  apply H. constructor.
Qed.

End SampleFacts.

Lemma slots_follow_timestamps_witness :
  exists h' out summary d_out,
    match_ Sample.to_datetime Sample.argsort 0%nat "sequence" 1 None None
      [Scenario.table_times]
    = (h', inr (out, summary))
    /\ h' !! out = Some d_out
    /\ forall qi qj i j si sj,
         df_index Scenario.table_times !! qi = Some i ->
         df_index Scenario.table_times !! qj = Some j ->
         DF.at_get i "slot" d_out = Some (VInt si) ->
         DF.at_get j "slot" d_out = Some (VInt sj) ->
         si < sj ->
         Sample.key_le
           (nth qi [VTime 1704276000000000000 "2024-01-03 10:00:00";
                    VTime 1704103200000000000 "2024-01-01 10:00:00";
                    VTime 1704189600000000000 "2024-01-02 10:00:00"] VNaT)
           (nth qj [VTime 1704276000000000000 "2024-01-03 10:00:00";
                    VTime 1704103200000000000 "2024-01-01 10:00:00";
                    VTime 1704189600000000000 "2024-01-02 10:00:00"] VNaT)
         = true.
Proof.
  apply (slots_follow_timestamps Sample.to_datetime Sample.argsort Sample.key_le
           Sample.argsort_perm SampleFacts.argsort_sorted
           [Scenario.table_times] 0%nat Scenario.table_times "sequence" 1
           None None).
  - reflexivity.
  - reflexivity.
  - simpl. distinct_labels.
  - reflexivity.
  - within_limit.
  - reflexivity.
Defined.
